(** * Lightning Pose: utility functions of the streamlit apps

    A shallow embedding of [lightning_pose/apps/utils.py] and the
    properties its description states about it, followed by further
    properties of the code: its errors and edge cases, what it changes
    and what it leaves alone, and how its functions fit together.

    Conventions of the embedding.
    - Python [str] is [string] (byte strings; the file names and column
      names of the application are ASCII).
    - A raised exception is the [Raise] case of [result]; a function
      that reads the file system takes it as an argument; a function
      that handles tables runs in the monad [M] over a store of table
      objects, because Python passes tables by reference.
    - Floating-point cells are exact rationals ([Q]); [NaN] is a cell of
      its own.
    - The streamlit decorators ([st.cache_data], [st.cache_resource])
      memoise calls; what is embedded is the body of each function. *)

From Stdlib Require Import ZArith QArith Bool List Ascii String Lia.
From stdpp Require Import base option list strings gmap.

#[local] Set Warnings "-clear-no-such-hyp".

Local Open Scope string_scope.
Local Open Scope list_scope.

(* ================================================================= *)
(** ** Python built-ins *)
(* ================================================================= *)

Module Py.

(** The exceptions met below; [InvalidIndexError] is pandas' own.
    [NoSuchObject] is not one of Python's: it stands for a reference to
    nothing, which no program can hold. *)
Inductive exn :=
| IndexError | KeyError | ValueError | TypeError | AttributeError
| UnboundLocalError | FileNotFoundError | NotADirectoryError
| InvalidIndexError
| NoSuchObject.

Inductive result (A : Type) :=
| Ok (a : A)
| Raise (e : exn).
Arguments Ok {A} a.
Arguments Raise {A} e.

#[global] Instance result_ret : MRet result := fun A a => Ok a.
#[global] Instance result_bind : MBind result := fun A B f m =>
  match m with Ok a => f a | Raise e => Raise e end.
#[global] Instance result_fmap : FMap result := fun A B f m =>
  match m with Ok a => Ok (f a) | Raise e => Raise e end.

(** [for x in xs: ...], the variables the body assigns being threaded
    as [acc]; an exception ends the loop. *)
Fixpoint for_each `{MBind F, MRet F} {A S : Type} (xs : list A)
    (body : A -> S -> F S) (acc : S) : F S :=
  match xs with
  | [] => mret acc
  | x :: xs' => acc' ← body x acc; for_each xs' body acc'
  end.

(** [l[i]] *)
Definition item {A : Type} (l : list A) (i : nat) : result A :=
  match l !! i with
  | Some x => Ok x
  | None => Raise IndexError
  end.

(** [sub in s] *)
Fixpoint contains (sub s : string) : bool :=
  String.prefix sub s ||
  match s with
  | EmptyString => false
  | String _ s' => contains sub s'
  end.

(** [s.count(c)] for a one-character [c] *)
Fixpoint count (c : ascii) (s : string) : Z :=
  match s with
  | EmptyString => 0
  | String a s' => (if Ascii.eqb a c then 1 else 0) + count c s'
  end%Z.

(** [s.split(sep)] for a non-empty [sep]: the pieces between the
    occurrences of [sep], found left to right without overlap.  [skip]
    counts the characters of a matched separator still to be dropped,
    [cur] is the piece read so far. *)
Fixpoint split_from (sep s : string) (skip : nat) (cur : string)
    : list string :=
  match s with
  | EmptyString => [cur]
  | String a s' =>
      match skip with
      | S k => split_from sep s' k cur
      | O =>
          if String.prefix sep s
          then cur :: split_from sep s' (Nat.pred (String.length sep)) ""
          else split_from sep s' 0 (cur +:+ String a "")
      end
  end.

Definition split (sep s : string) : list string := split_from sep s 0 "".

(** [s[-1]] and [s[:-1]] *)
Fixpoint last_char (s : string) : result ascii :=
  match s with
  | EmptyString => Raise IndexError
  | String a EmptyString => Ok a
  | String _ s' => last_char s'
  end.

Fixpoint drop_last (s : string) : string :=
  match s with
  | EmptyString => ""
  | String _ EmptyString => ""
  | String a s' => String a (drop_last s')
  end.

Definition startswith (c : ascii) (s : string) : bool :=
  match s with
  | String a _ => Ascii.eqb a c
  | EmptyString => false
  end.

Definition endswith (c : ascii) (s : string) : bool :=
  match last_char s with
  | Ok a => Ascii.eqb a c
  | Raise _ => false
  end.

(** [str.isspace] on one ASCII character: tab, line feed, vertical
    tab, form feed, carriage return, the four separators 28-31, space. *)
Definition isspace (a : ascii) : bool :=
  let n := nat_of_ascii a in
  (Nat.leb 9 n && Nat.leb n 13) || (Nat.leb 28 n && Nat.leb n 32).

Fixpoint lstrip (s : string) : string :=
  match s with
  | EmptyString => ""
  | String a s' => if isspace a then lstrip s' else s
  end.

(** [rstrip] keeps a character when it is not white space or when
    something non-blank follows it. *)
Fixpoint rstrip (s : string) : string :=
  match s with
  | EmptyString => ""
  | String a s' =>
      match rstrip s' with
      | EmptyString => if isspace a then "" else String a ""
      | r => String a r
      end
  end.

(** [s.strip()] *)
Definition strip (s : string) : string := rstrip (lstrip s).

(** [sep.join(parts)] *)
Definition join (sep : string) (parts : list string) : string :=
  String.concat sep parts.

(** [l[-2:]]: the last two items, or all of them when there are
    fewer. *)
Definition last_two {A : Type} (l : list A) : list A :=
  drop (length l - 2) l.

(** A string seen as the sequence of its one-character strings, which
    is how [join] iterates over a [str] argument. *)
Fixpoint chars (s : string) : list string :=
  match s with
  | EmptyString => []
  | String a s' => String a "" :: chars s'
  end.

End Py.
Import Py.

(* ================================================================= *)
(** ** The file system, as [os] and [os.path] see it *)
(* ================================================================= *)

Module Posix.

(** A directory tree without links.  Entries are kept in listing
    order. *)
#[local] Set Warnings "-register-all".
Inductive node :=
| File
| Dir (entries : list (string * node)).

Record filesystem := { root : node; cwd : list string }.

Definition sep : ascii := "/"%char.

Fixpoint lookup_entry (name : string) (es : list (string * node))
    : option node :=
  match es with
  | [] => None
  | (n, x) :: es' => if String.eqb n name then Some x else lookup_entry name es'
  end.

(** Path resolution, one component at a time.  [stack] holds the node
    reached so far and its ancestors, innermost first.  An empty
    component or [.] stays in place, [..] goes up (and stays at the
    root), a name goes down; every step needs a directory to start
    from. *)
Fixpoint descend (stack : list node) (comps : list string)
    : option (list node) :=
  match comps with
  | [] => Some stack
  | c :: rest =>
      match stack with
      | Dir es :: up =>
          if String.eqb c "" || String.eqb c "." then descend stack rest
          else if String.eqb c ".."
          then descend (match up with [] => stack | _ => up end) rest
          else match lookup_entry c es with
               | Some x => descend (x :: stack) rest
               | None => None
               end
      | _ => None
      end
  end.

(** The node a path names; the empty path names nothing. *)
Definition resolve (fs : filesystem) (path : string) : option node :=
  match path with
  | EmptyString => None
  | _ =>
      start ← (if startswith sep path then Some [root fs]
               else descend [root fs] (cwd fs));
      stack ← descend start (split "/" path);
      head stack
  end.

(** [os.listdir(path)] *)
Definition listdir (fs : filesystem) (path : string) : result (list string) :=
  match resolve fs path with
  | Some (Dir es) => Ok (map fst es)
  | Some File => Raise NotADirectoryError
  | None => Raise FileNotFoundError
  end.

(** [os.path.isfile(path)] *)
Definition isfile (fs : filesystem) (path : string) : bool :=
  match resolve fs path with
  | Some File => true
  | _ => false
  end.

(** [os.path.join(a, b)] *)
Definition path_join (a b : string) : string :=
  if startswith sep b then b
  else if String.eqb a "" || endswith sep a then a +:+ b
  else a +:+ String sep b.

(** [os.path.join(a, b, c)] *)
Definition path_join3 (a b c : string) : string :=
  path_join (path_join a b) c.

(** [os.path.join] applied to the unpacked list [parts]: the parts are
    joined from left to right; without any part the call lacks its
    first argument. *)
Definition path_join_all (parts : list string) : result string :=
  match parts with
  | [] => Raise TypeError
  | a :: rest => Ok (fold_left path_join rest a)
  end.

Definition is_dir_entry (e : string * node) : bool :=
  match e.2 with Dir _ => true | File => false end.

(** [os.walk(top)] from a node reached as [top], top down: a
    directory yields itself, with the names of its sub-directories and
    of its other entries, and then what each sub-directory yields, in
    listing order; the path of a sub-directory is [join(top, name)]. *)
Fixpoint walk_node (top : string) (n : node)
    : list (string * list string * list string) :=
  match n with
  | File => []
  | Dir es =>
      (top, map fst (filter is_dir_entry es),
            map fst (filter (fun e => negb (is_dir_entry e)) es))
      :: (fix below (l : list (string * node)) :=
            match l with
            | [] => []
            | (d, x) :: l' => walk_node (path_join top d) x ++ below l'
            end) es
  end.

(** [os.walk(top)]: a top that cannot be listed yields nothing (the
    error is swallowed, [onerror] being [None]). *)
Definition walk (fs : filesystem) (top : string)
    : list (string * list string * list string) :=
  match resolve fs top with
  | Some n => walk_node top n
  | None => []
  end.

End Posix.
Import Posix.

(* ================================================================= *)
(** ** Tables, as [pandas] and [numpy] handle them *)
(* ================================================================= *)

Module Pandas.

(** A table is kept column by column, each column under one label; a
    label is a name or the tuple of a header of several levels.  The
    column axis of a table has one of two kinds, which pandas keeps
    apart as [Index] and [MultiIndex]: an axis whose labels are all
    tuples is a header of several levels, any other one is flat.
    Numbers are rationals, so the rounding of floating point is left
    out; the missing value is a cell of its own.  Tables live in a
    store and are named by references, so that two names of one table
    see each other's updates. *)

(** A cell: a number, the missing value, or a string. *)
Inductive cell := Num (q : Q) | NaN | Str (s : string).

(** A row label: a position or an image path. *)
Inductive ilabel := IInt (z : Z) | IStr (s : string).

(** A column label: a string, or a tuple of strings (the levels of a
    two-level header).  The column axis is a sequence of such labels;
    a label may occur more than once. *)
Inductive label := Name (s : string) | Levels (parts : list string).

#[global] Instance ilabel_eq_dec : EqDecision ilabel.
Proof. solve_decision. Defined.
#[global] Instance label_eq_dec : EqDecision label.
Proof. solve_decision. Defined.

Record Series := { s_index : list ilabel; s_values : list cell }.

(** A table, stored by column. *)
Record DataFrame :=
  { index : list ilabel; columns : list (label * list cell) }.

Definition nrows (T : DataFrame) : nat := length (index T).
Definition ncols (T : DataFrame) : nat := length (columns T).
Definition labels (T : DataFrame) : list label := map fst (columns T).

(** Every column has one cell per row. *)
Definition well_formed (T : DataFrame) : bool :=
  forallb (fun c => Nat.eqb (length c.2) (nrows T)) (columns T).

Definition has_label (l : label) (c : label * list cell) : bool :=
  bool_decide (c.1 = l).

Definition is_tuple (c : label * list cell) : bool :=
  match c.1 with Levels _ => true | Name _ => false end.

(** [isinstance(T.columns, pd.MultiIndex)], for the columns of [T]:
    every label is a tuple, and there is one at least.  (A table read
    with a header of two rows has such an axis; assigning a list of
    strings to [T.columns] makes a flat one.) *)
Definition multi_level (cols : list (label * list cell)) : bool :=
  match cols with
  | [] => false
  | _ :: _ => forallb is_tuple cols
  end.

(** The number of levels of the axis. *)
Definition nlevels (cols : list (label * list cell)) : nat :=
  match cols with
  | (Levels parts, _) :: _ => length parts
  | _ => 1
  end.

(** Whether [key] is the first level of the label of [c]. *)
Definition has_level0 (key : string) (c : label * list cell) : bool :=
  match c.1 with
  | Levels (a :: _) => bool_decide (a = key)
  | _ => false
  end.

(** The columns of [cols] that a key stands for, in [T[key]],
    [T[[key, ...]]] and [T[key] = ...]: on a flat axis the columns the
    key labels; on a header of several levels the columns whose first
    level the key is. *)
Definition has_key (cols : list (label * list cell)) (key : string)
    : label * list cell -> bool :=
  if multi_level cols then has_level0 key else has_label (Name key).

Definition cell_of_ilabel (l : ilabel) : cell :=
  match l with
  | IInt z => Num (inject_Z z)
  | IStr s => Str s
  end.

(** [RangeIndex(n)] *)
Definition range_index (n : nat) : list ilabel :=
  map (fun i => IInt (Z.of_nat i)) (seq 0 n).

(** Row [i] of a list of columns. *)
Definition cells_at (i : nat) (cols : list (label * list cell)) : list cell :=
  map (fun c => nth i c.2 NaN) cols.

(** [T.to_numpy()]: the cells row by row. *)
Definition to_numpy (T : DataFrame) : list (list cell) :=
  map (fun i => cells_at i (columns T)) (seq 0 (nrows T)).

(** *** Row means *)

Definition Qsum (qs : list Q) : Q := fold_right Qplus 0%Q qs.

(** The arithmetic mean of a non-empty list of numbers. *)
Definition arithmetic_mean (qs : list Q) : Q :=
  (Qsum qs / inject_Z (Z.of_nat (length qs)))%Q.

(** The numbers among some cells; a string among them is a
    [TypeError] as soon as it is summed. *)
Fixpoint numbers (cs : list cell) : result (list Q) :=
  match cs with
  | [] => Ok []
  | Num q :: cs' => qs ← numbers cs'; mret (q :: qs)
  | NaN :: cs' => numbers cs'
  | Str _ :: _ => Raise TypeError
  end.

(** The mean of the cells of one row, missing values skipped; missing
    itself when no number is left. *)
Definition row_mean (cs : list cell) : result cell :=
  qs ← numbers cs;
  mret (match qs with
        | [] => NaN
        | _ => Num (arithmetic_mean qs)
        end).

(** [mean(axis=1)] of the columns [cols] of a table with index [idx]. *)
Definition mean_axis1 (idx : list ilabel) (cols : list (label * list cell))
    : result Series :=
  vals ← mapM (fun i => row_mean (cells_at i cols)) (seq 0 (length idx));
  mret {| s_index := idx; s_values := vals |}.

(** *** Selecting columns *)

(** [T[keys]] for a list of keys: for each key in turn, every column
    it stands for; a key that stands for none is a [KeyError]. *)
Fixpoint select_columns (keys : list string) (cols : list (label * list cell))
    : result (list (label * list cell)) :=
  match keys with
  | [] => Ok []
  | k :: keys' =>
      match filter (has_key cols k) cols with
      | [] => Raise KeyError
      | found => rest ← select_columns keys' cols; mret (found ++ rest)
      end
  end.

(** [T[key]] (and [T.key]) for one key, read as a series: the one
    column that the key labels.  With a repeated label pandas hands
    back a sub-table, on which the uses below fail in ways of their
    own; the embedding stops there with [TypeError].  The key is
    compared with whole labels, as on a flat axis: the tables read this
    way ([get_df_box], [get_df_scatter]) are those with a column
    "model_name", "set" or "img_file" and a column per keypoint. *)
Definition select_column (missing : exn) (key : string) (T : DataFrame)
    : result Series :=
  match filter (has_label (Name key)) (columns T) with
  | [] => Raise missing
  | [c] => Ok {| s_index := index T; s_values := c.2 |}
  | _ => Raise TypeError
  end.

(** [s == v], cell by cell; the missing value equals nothing. *)
Definition cell_eqb (a b : cell) : bool :=
  match a, b with
  | Num x, Num y => Qeq_bool x y
  | Str x, Str y => String.eqb x y
  | _, _ => false
  end.

Definition eq_scalar (s : Series) (v : cell) : list bool :=
  map (fun c => cell_eqb c v) (s_values s).

Fixpoint keep_where {A : Type} (mask : list bool) (l : list A) : list A :=
  match mask, l with
  | true :: mask', x :: l' => x :: keep_where mask' l'
  | false :: mask', _ :: l' => keep_where mask' l'
  | _, _ => []
  end.

(** [s[mask]], the mask being a boolean series over the same rows. *)
Definition mask_select (s : Series) (mask : list bool) : Series :=
  {| s_index := keep_where mask (s_index s);
     s_values := keep_where mask (s_values s) |}.

(** [T[mask]], the mask being a boolean series over the rows of [T]:
    the rows where it holds. *)
Definition mask_rows (T : DataFrame) (mask : list bool) : DataFrame :=
  {| index := keep_where mask (index T);
     columns := map (fun c => (c.1, keep_where mask c.2)) (columns T) |}.

(** *** Assigning columns *)

(** Assignment by a whole label, which [put_item] below comes to on a
    flat axis: put [vals] in every column labelled [key], or add such
    a column at the end when there is none. *)
Definition put_column (key : label) (vals : list cell)
    (cols : list (label * list cell)) : list (label * list cell) :=
  if existsb (has_label key) cols
  then map (fun c => if has_label key c then (c.1, vals) else c) cols
  else cols ++ [(key, vals)].

(** The label of a column added under [key]: the key itself on a flat
    axis; on a header of several levels the key followed by empty
    strings, one for each further level. *)
Definition new_label (cols : list (label * list cell)) (key : string) : label :=
  if multi_level cols
  then Levels (key :: repeat "" (nlevels cols - 1))
  else Name key.

(** [T[key] = ...] on the columns: put [vals] in every column [key]
    stands for, or add a column for it at the end when there is
    none. *)
Definition put_item (key : string) (vals : list cell)
    (cols : list (label * list cell)) : list (label * list cell) :=
  if existsb (has_key cols key) cols
  then map (fun c => if has_key cols key c then (c.1, vals) else c) cols
  else cols ++ [(new_label cols key, vals)].

(** [T[key] = v] for a scalar [v] *)
Definition setitem_scalar (key : string) (v : cell) (T : DataFrame)
    : DataFrame :=
  {| index := index T;
     columns := put_item key (repeat v (nrows T)) (columns T) |}.

(** A table without rows takes its rows from the first non-empty list
    of values assigned to it; the columns it has are filled with the
    missing value. *)
Definition ensure_valid_index (idx : list ilabel) (T : DataFrame) : DataFrame :=
  if Nat.eqb (nrows T) 0 && negb (Nat.eqb (length idx) 0)
  then {| index := idx;
          columns := map (fun c => (c.1, repeat NaN (length idx))) (columns T) |}
  else T.

(** [T[key] = vals] for an array (or an index) [vals]: the values go
    in by position and must be as many as the rows. *)
Definition setitem_values (key : string) (vals : list cell) (T : DataFrame)
    : result DataFrame :=
  let T := ensure_valid_index (range_index (length vals)) T in
  if Nat.eqb (length vals) (nrows T)
  then Ok {| index := index T;
             columns := put_item key vals (columns T) |}
  else Raise ValueError.

(** The value of a series at a row label, the missing value when the
    label is absent. *)
Definition value_at (s : Series) (l : ilabel) : cell :=
  match list_find (fun x => x = l) (s_index s) with
  | Some (i, _) => nth i (s_values s) NaN
  | None => NaN
  end.

(** [T[key] = s] for a series [s]: the values are matched to the rows
    by row label.  With the index of [T] itself they go in as they
    are; otherwise the labels of [s] have to be distinct. *)
Definition setitem_series (key : string) (s : Series) (T : DataFrame)
    : result DataFrame :=
  let T := ensure_valid_index (s_index s) T in
  if bool_decide (s_index s = index T)
  then Ok {| index := index T;
             columns := put_item key (s_values s) (columns T) |}
  else if bool_decide (NoDup (s_index s))
  then Ok {| index := index T;
             columns := put_item key (map (value_at s) (index T))
                          (columns T) |}
  else Raise ValueError.

(** [T.rename(columns={old: new}, inplace=True)] for a string [new].
    On a flat axis the mapping is applied to the labels: every label
    that is [old] becomes [new].  On a header of several levels it is
    applied to the values of each level, which are strings: a tuple
    [old] is none of them and renames nothing. *)
Definition rename_levels (old : label) (new : string) (l : label) : label :=
  match l with
  | Levels parts =>
      Levels (map (fun p => if bool_decide (old = Name p) then new else p) parts)
  | Name _ => l
  end.

Definition rename_column (old : label) (new : string) (T : DataFrame)
    : DataFrame :=
  {| index := index T;
     columns :=
       if multi_level (columns T)
       then map (fun c => (rename_levels old new c.1, c.2)) (columns T)
       else map (fun c => if has_label old c then (Name new, c.2) else c)
                (columns T) |}.

(** [T.columns = new_labels]: as many labels as columns. *)
Definition set_labels (new_labels : list label) (T : DataFrame)
    : result DataFrame :=
  if Nat.eqb (length new_labels) (ncols T)
  then Ok {| index := index T;
             columns := zip new_labels (map snd (columns T)) |}
  else Raise ValueError.

(** [pd.DataFrame(columns=names)]: the columns, and no row. *)
Definition empty_frame (names : list string) : DataFrame :=
  {| index := []; columns := map (fun k => (Name k, [])) names |}.

(** *** Slices of the column axis *)

(** [l[0::3]] *)
Fixpoint every_third {A : Type} (l : list A) : list A :=
  match l with
  | x :: _ :: _ :: l' => x :: every_third l'
  | x :: _ => [x]
  | [] => []
  end.

(** [T.columns[1::3]] *)
Definition columns_1_3 (T : DataFrame) : list label :=
  every_third (drop 1 (labels T)).

(** [c[0]] for a column label: the first level of a tuple, the first
    character of a string. *)
Definition label_item0 (c : label) : result string :=
  match c with
  | Levels (a :: _) => Ok a
  | Name (String a _) => Ok (String a "")
  | _ => Raise IndexError
  end.

(** ["_".join(c)] for a column label *)
Definition join_label (c : label) : string :=
  match c with
  | Levels parts => join "_" parts
  | Name s => join "_" (chars s)
  end.

(** [T.iloc[:, :-1]] and [T.iloc[:, -1].to_numpy()] *)
Definition without_last_column (T : DataFrame) : DataFrame :=
  {| index := index T; columns := removelast (columns T) |}.

Definition last_column (T : DataFrame) : result (list cell) :=
  match last (columns T) with
  | Some c => Ok c.2
  | None => Raise IndexError
  end.

(** *** Arrays *)

Fixpoint triplets (row : list cell) : list (cell * cell * cell) :=
  match row with
  | x :: y :: z :: row' => (x, y, z) :: triplets row'
  | _ => []
  end.

(** [a.reshape(n, -1, 3)] for a two-dimensional array [a] of [n] rows
    and [m] columns: possible when [n] is not zero and 3 divides [m]. *)
Definition reshape_3 (n m : nat) (a : list (list cell))
    : result (list (list (cell * cell * cell))) :=
  if Nat.eqb n 0 || negb (Nat.eqb (m mod 3) 0)
  then Raise ValueError
  else Ok (map triplets a).

(** [a[:, :, 2]] *)
Definition third_slots (a : list (list (cell * cell * cell)))
    : list (list cell) :=
  map (map snd) a.

(** [a[:, c]] for a two-dimensional array [a] with [k] columns *)
Definition array_column (k c : nat) (a : list (list cell))
    : result (list cell) :=
  if Nat.ltb c k then Ok (map (fun row => nth c row NaN) a)
  else Raise IndexError.

(** *** Joining tables side by side *)

Definition reindex_column (old new : list ilabel) (c : label * list cell)
    : label * list cell :=
  (c.1, map (value_at {| s_index := old; s_values := c.2 |}) new).

(** [pd.concat([A, B], axis=1)]: with one and the same index the
    columns are put side by side; otherwise the rows are those of [A]
    followed by the rows only [B] has, cells without a value being
    missing, which needs distinct labels on both sides. *)
Definition concat_axis1 (A B : DataFrame) : result DataFrame :=
  if bool_decide (index A = index B)
  then Ok {| index := index A; columns := columns A ++ columns B |}
  else if bool_decide (NoDup (index A)) && bool_decide (NoDup (index B))
  then
    let idx := index A ++ filter (fun l => l ∉ index A) (index B) in
    Ok {| index := idx;
          columns := map (reindex_column (index A) idx) (columns A)
                     ++ map (reindex_column (index B) idx) (columns B) |}
  else Raise InvalidIndexError.

(** *** Putting tables one below the other *)

(** The cells of the first column of [T] labelled [l]; missing values,
    one per row, when [T] has no such column. *)
Definition column_or_missing (l : label) (T : DataFrame) : list cell :=
  match filter (has_label l) (columns T) with
  | c :: _ => c.2
  | [] => repeat NaN (nrows T)
  end.

(** The labels of some tables, each once, in the order in which they
    are first met. *)
Definition labels_in_order (tables : list DataFrame) : list label :=
  fold_left (fun ls l => if bool_decide (l ∈ ls) then ls else ls ++ [l])
            (flat_map labels tables) [].

(** [pd.concat(tables)]: nothing to put together is a [ValueError].
    Tables with one and the same labels are stacked column by column.
    Otherwise the columns are those met in any of the tables, a table
    without one of them contributing missing values, which needs
    distinct labels in every table. *)
Definition concat_axis0 (tables : list DataFrame) : result DataFrame :=
  match tables with
  | [] => Raise ValueError
  | T :: rest =>
      if forallb (fun T' => bool_decide (labels T' = labels T)) rest
      then Ok {| index := flat_map index tables;
                 columns :=
                   imap (fun j l =>
                           (l, flat_map (fun T' =>
                                           match columns T' !! j with
                                           | Some c => c.2
                                           | None => []
                                           end) tables))
                        (labels T) |}
      else if forallb (fun T' => bool_decide (NoDup (labels T'))) tables
      then Ok {| index := flat_map index tables;
                 columns :=
                   map (fun l => (l, flat_map (column_or_missing l) tables))
                       (labels_in_order tables) |}
      else Raise InvalidIndexError
  end.


(** *** Table objects *)

(** Python hands tables around by reference: a table is an object in
    a store, and what a function receives or returns is a reference
    to it. *)
Abbreviation ref := nat (only parsing).
Abbreviation heap := (list DataFrame).

Definition M (A : Type) : Type := heap -> result A * heap.

#[global] Instance M_ret : MRet M := fun A a h => (Ok a, h).
#[global] Instance M_bind : MBind M := fun A B f m h =>
  match m h with
  | (Ok a, h') => f a h'
  | (Raise e, h') => (Raise e, h')
  end.

Definition lift {A : Type} (r : result A) : M A := fun h => (r, h).

Definition alloc (T : DataFrame) : M ref :=
  fun h => (Ok (length h), h ++ [T]).

Definition load (r : ref) : M DataFrame :=
  fun h => match h !! r with
           | Some T => (Ok T, h)
           | None => (Raise NoSuchObject, h)
           end.

Definition store (r : ref) (T : DataFrame) : M unit :=
  fun h => (Ok (), <[r:=T]> h).

(** An operation that changes the object itself. *)
Definition in_place (r : ref) (f : DataFrame -> result DataFrame) : M unit :=
  T ← load r; T' ← lift (f T); store r T'.

(** [T.copy()]: a new object with the same content. *)
Definition copy (r : ref) : M ref := T ← load r; alloc T.

(** Reading a local variable, which an earlier statement may or may
    not have bound. *)
Definition read_local {A : Type} (v : option A) : M A :=
  match v with
  | Some a => mret a
  | None => lift (Raise UnboundLocalError)
  end.

(** The cells of a dictionary handed to [pd.DataFrame]. *)
Inductive dict_value := Column (s : Series) | Scalar (c : cell).

(** [d[k] = v] on a dictionary kept in insertion order *)
Fixpoint dict_set {V : Type} (k : string) (v : V) (d : list (string * V))
    : list (string * V) :=
  match d with
  | [] => [(k, v)]
  | (k', v') :: d' =>
      if String.eqb k' k then (k, v) :: d' else (k', v') :: dict_set k v d'
  end.

(** [d[k].append(v)] on a [defaultdict(list)] kept in insertion
    order: a key met for the first time starts with the empty list. *)
Fixpoint dict_append {V : Type} (k : string) (v : V)
    (d : list (string * list V)) : list (string * list V) :=
  match d with
  | [] => [(k, [v])]
  | (k', l) :: d' =>
      if String.eqb k' k then (k', l ++ [v]) :: d'
      else (k', l) :: dict_append k v d'
  end.

End Pandas.
Import Pandas.

(* ================================================================= *)
(** ** File discovery ([utils.py], lines 18-71 and 205-223) *)
(* ================================================================= *)

(** [pathlib.Path(name)], for a bare file name: a wrapper around it. *)
Record PurePath := Path { path_name : string }.

(** [[f for f in os.listdir(d) if os.path.isfile(os.path.join(d, f))]] *)
Definition listed_files (fs : filesystem) (d : string) : result (list string) :=
  names ← listdir fs d;
  mret (filter (fun f => isfile fs (path_join d f)) names).

(** The same listing for [os.path.join(folder, 'video_preds')], the file
    test being on [os.path.join(folder, 'video_preds', f)]. *)
Definition listed_video_files (fs : filesystem) (folder : string)
    : result (list string) :=
  names ← listdir fs (path_join folder "video_preds");
  mret (filter (fun f => isfile fs (path_join3 folder "video_preds" f)) names).

Definition update_labeled_file_list (fs : filesystem)
    (model_preds_folders : list string) (use_ood : bool)
    : result (list (list PurePath)) :=
  for_each model_preds_folders
    (fun model_pred_folder per_model_preds =>
       model_preds ← listed_files fs model_pred_folder;
       let ret_files :=
         fold_left
           (fun ret_files file =>
              if contains "predictions" file then
                if negb (contains "new" file) && negb use_ood
                then ret_files ++ [Path file]
                else if contains "new" file && use_ood
                then ret_files ++ [Path file]
                else ret_files
              else ret_files)
           model_preds [] in
       mret (per_model_preds ++ [ret_files]))
    [].

Definition update_vid_metric_files_list (fs : filesystem) (video : string)
    (model_preds_folders : list string) : result (list (list PurePath)) :=
  for_each model_preds_folders
    (fun model_preds_folder per_vid_preds =>
       model_preds ← listed_video_files fs model_preds_folder;
       let ret_files :=
         fold_left
           (fun ret_files file =>
              if contains video file then ret_files ++ [Path file]
              else ret_files)
           model_preds [] in
       mret (per_vid_preds ++ [ret_files]))
    [].

(** The result is [list(ret_videos)], a list without repetition whose
    order Python does not fix; the embedding returns the set. *)
Definition get_all_videos (fs : filesystem) (model_preds_folders : list string)
    : result (gset string) :=
  for_each model_preds_folders
    (fun model_preds_folder ret_videos =>
       model_preds ← listed_video_files fs model_preds_folder;
       for_each model_preds
         (fun file (ret_videos : gset string) =>
            if contains "temporal" file then
              vid_file ← item (split "_temporal_norm.csv" file) 0;
              mret (ret_videos ∪ {[vid_file]})
            else if negb (contains "temporal" file) && negb (contains "pca" file)
            then
              vid_file ← item (split ".csv" file) 0;
              mret (ret_videos ∪ {[vid_file]})
            else mret ret_videos)
         ret_videos)
    ∅.

Definition get_model_folders (fs : filesystem) (model_dir : string)
    : result (list string) :=
  last ← last_char model_dir;
  let model_dir := if Ascii.eqb last sep then drop_last model_dir else model_dir in
  mret (fold_left
          (fun model_folders '(root, dirs, files) =>
             if (count sep root - count sep model_dir =? 2)%Z
             then model_folders ++ [root]
             else model_folders)
          (walk fs model_dir) []).

(** The separator is the literal ['/'] here, not [os.sep]. *)
Definition get_model_folders_vis (model_folders : list string)
    : result (list string) :=
  let fs :=
    fold_left (fun fs f => fs ++ [last_two (split "/" f)]) model_folders [] in
  mapM path_join_all fs.

(* ================================================================= *)
(** ** Merging and deriving tables ([utils.py], lines 11-16 and 74-200) *)
(* ================================================================= *)

Definition strip_cols_append_name (df : ref) (name : string) : M ref :=
  T ← load df;
  in_place df
    (set_labels (map (fun col => Name (strip (join_label col))) (labels T)));;
  T ← load df;
  cols ← lift (mapM (fun col => match col with
                                | Name col => Ok (Name (col +:+ "_" +:+ name))
                                | Levels _ => Raise TypeError
                                end) (labels T));
  in_place df (set_labels cols);;
  mret df.

(** The variables of [concat_dfs]; the two results are unbound until
    the loop body has run once. *)
Record concat_vars :=
  { counter : Z;
    df_concat : option ref;
    base_colnames : option (list string) }.

Definition concat_dfs (dframes : list (string * ref)) : M (ref * list string) :=
  vars ← for_each dframes
    (fun '(model_name, dframe) vars =>
       if (counter vars =? 0)%Z then
         df_concat0 ← copy dframe;
         T ← load df_concat0;
         base_colnames0 ← lift (mapM label_item0 (columns_1_3 T));
         df_concat0 ← strip_cols_append_name df_concat0 model_name;
         mret {| counter := counter vars + 1;
                 df_concat := Some df_concat0;
                 base_colnames := Some base_colnames0 |}
       else
         dframe_copy ← copy dframe;
         df ← strip_cols_append_name dframe_copy model_name;
         df_concat0 ← read_local (df_concat vars);
         A ← load df_concat0;
         B ← load df;
         AB ← lift (concat_axis1 A B);
         df_concat0 ← alloc AB;
         mret {| counter := counter vars + 1;
                 df_concat := Some df_concat0;
                 base_colnames := base_colnames vars |})
    {| counter := 0; df_concat := None; base_colnames := None |};
  df_concat0 ← read_local (df_concat vars);
  base_colnames0 ← read_local (base_colnames vars);
  mret (df_concat0, base_colnames0).

(** [T[keypoint_names[:-1]].mean(axis=1)] *)
Definition mean_without_last (keypoint_names : list string) (T : DataFrame)
    : result Series :=
  cols ← select_columns (removelast keypoint_names) (columns T);
  mean_axis1 (index T) cols.

Definition get_precomputed_error (df : ref) (keypoint_names : list string)
    (model_name : string) : M ref :=
  let df_ := df in
  in_place df_ (fun T => Ok (setitem_scalar "model_name" (Str model_name) T));;
  T ← load df_;
  mean ← lift (mean_without_last keypoint_names T);
  in_place df_ (setitem_series "mean" mean);;
  T ← load df;
  first ← lift (item (labels T) 0);
  in_place df_ (fun T => Ok (rename_column first "img_file" T));;
  mret df_.

Definition compute_confidence (df : ref) (keypoint_names : list string)
    (model_name : string) : M ref :=
  T ← load df;
  '(tmp, set_) ←
    (if Nat.eqb (ncols T mod 3) 1 then
       tmp ← lift (reshape_3 (nrows T) (ncols T - 1)
                     (to_numpy (without_last_column T)));
       set_ ← lift (last_column T);
       mret (tmp, Some set_)
     else
       tmp ← lift (reshape_3 (nrows T) (ncols T) (to_numpy T));
       mret (tmp, None));
  let results := third_slots tmp in
  let keypoints := (match set_ with Some _ => ncols T - 1 | None => ncols T end) / 3 in
  df_ ← alloc (empty_frame keypoint_names);
  for_each (imap pair keypoint_names)
    (fun '(c, col) (_ : unit) =>
       values ← lift (array_column keypoints c results);
       in_place df_ (setitem_values col values))
    ();;
  in_place df_ (fun T => Ok (setitem_scalar "model_name" (Str model_name) T));;
  T_ ← load df_;
  mean ← lift (mean_without_last keypoint_names T_);
  in_place df_ (setitem_series "mean" mean);;
  match set_ with
  | Some set_ =>
      in_place df_ (setitem_values "set" set_);;
      T ← load df;
      in_place df_ (setitem_values "img_file" (map cell_of_ilabel (index T)))
  | None => mret ()
  end;;
  mret df_.

(** [get_df_scatter] builds one table per keypoint with
    [pd.DataFrame({...})] and stacks them with [pd.concat].  What these
    two library calls compute is not needed below: they are parameters,
    [DataFrame_of_dict] and [concat_rows]. *)
Section Scatter.

Variable DataFrame_of_dict : list (string * dict_value) -> result DataFrame.
Variable concat_rows : list DataFrame -> result DataFrame.

(** [T.name[T.set == data_type]] and [T[name][T.set == data_type]] *)
Definition subset_of (missing : exn) (df : ref) (name : string)
    (data_type : cell) : M Series :=
  T ← load df;
  column ← lift (select_column missing name T);
  T ← load df;
  set_ ← lift (select_column AttributeError "set" T);
  mret (mask_select column (eq_scalar set_ data_type)).

Definition get_df_scatter (df_0 df_1 : ref) (data_type : cell)
    (model_names keypoint_names : list string) : M ref :=
  df_scatters ← for_each keypoint_names
    (fun keypoint df_scatters =>
       img_file ← subset_of AttributeError df_0 "img_file" data_type;
       let d := dict_set "img_file" (Column img_file) [] in
       let d := dict_set "keypoint" (Scalar (Str keypoint)) d in
       model_0 ← lift (item model_names 0);
       value_0 ← subset_of KeyError df_0 keypoint data_type;
       let d := dict_set model_0 (Column value_0) d in
       model_1 ← lift (item model_names 1);
       value_1 ← subset_of KeyError df_1 keypoint data_type;
       let d := dict_set model_1 (Column value_1) d in
       T ← lift (DataFrame_of_dict d);
       df_scatter ← alloc T;
       mret (df_scatters ++ [df_scatter]))
    [];
  tables ← mapM load df_scatters;
  T ← lift (concat_rows tables);
  alloc T.

End Scatter.

Definition get_full_name (keypoint coordinate model : string) : string :=
  join "_" [keypoint; coordinate; model].

Definition get_col_names (keypoint coordinate : string) (models : list string)
    : list string :=
  map (fun model => get_full_name keypoint coordinate model) models.

(** [pd.DataFrame(tmp_dict)] in [get_df_box]: the dictionary holds one
    series, under "value", and three scalars; the rows are those of the
    series, and each scalar fills its column. *)
Definition frame_of_box (keypoint : string) (value : Series)
    (model_curr : string) : DataFrame :=
  let n := length (s_index value) in
  {| index := s_index value;
     columns := [(Name "keypoint", repeat (Str keypoint) n);
                 (Name "metric", repeat (Str "Pixel error") n);
                 (Name "value", s_values value);
                 (Name "model_name", repeat (Str model_curr) n)] |}.

Definition get_df_box (df_orig : ref) (keypoint_names model_names : list string)
    : M ref :=
  df_boxes ← for_each keypoint_names
    (fun keypoint df_boxes =>
       for_each model_names
         (fun model_curr df_boxes =>
            T ← load df_orig;
            model_name ← lift (select_column AttributeError "model_name" T);
            let rows := mask_rows T (eq_scalar model_name (Str model_curr)) in
            value ← lift (select_column KeyError keypoint rows);
            df_box ← alloc (frame_of_box keypoint value model_curr);
            mret (df_boxes ++ [df_box]))
         df_boxes)
    [];
  tables ← mapM load df_boxes;
  T ← lift (concat_axis0 tables);
  alloc T.

(** The names under which the metrics are shown. *)
Definition pix_error_key : string := "pixel error".
Definition conf_error_key : string := "confidence".
Definition temp_norm_error_key : string := "temporal norm".
Definition pcamv_error_key : string := "pca multiview".
Definition pcasv_error_key : string := "pca singleview".

(** [dframes] maps a model name to a dictionary from metric names to
    tables; [kwargs] holds the names of the further keyword arguments
    (their values are only handed on).  [compute_confidence] takes any
    keyword argument but a second value for one of its own parameters;
    [get_precomputed_error] takes none.  The local dictionary is a
    [defaultdict(list)]; the last loop replaces each of its lists by
    the table [pd.concat] makes of it. *)
Definition build_precomputed_metrics_df
    (dframes : list (string * list (string * ref)))
    (keypoint_names : list string) (kwargs : list string)
    : M (list (string * ref)) :=
  concat_dfs ← for_each dframes
    (fun '(model_name, df_dict) concat_dfs =>
       for_each df_dict
         (fun '(metric_name, df) concat_dfs =>
            concat_dfs ←
              (if contains "confidence" metric_name then
                 df_ ← (if existsb
                             (fun k => bool_decide
                                         (k ∈ ["df"; "keypoint_names"; "model_name"]))
                             kwargs
                        then lift (Raise TypeError)
                        else compute_confidence df keypoint_names model_name);
                 mret (dict_append conf_error_key df_ concat_dfs)
               else mret concat_dfs);
            df_ ← (match kwargs with
                   | [] => get_precomputed_error df keypoint_names model_name
                   | _ :: _ => lift (Raise TypeError)
                   end);
            if contains "single" metric_name
            then mret (dict_append pcasv_error_key df_ concat_dfs)
            else if contains "multi" metric_name
            then mret (dict_append pcamv_error_key df_ concat_dfs)
            else if contains "temporal" metric_name
            then mret (dict_append temp_norm_error_key df_ concat_dfs)
            else if contains "pixel" metric_name
            then mret (dict_append pix_error_key df_ concat_dfs)
            else mret concat_dfs)
         concat_dfs)
    [];
  mapM (fun '(key, refs) =>
          tables ← mapM load refs;
          T ← lift (concat_axis0 tables);
          r ← alloc T;
          mret (key, r))
       concat_dfs.

(** *** Reference definitions for the statements *)

(** Which labeled files a folder contributes, in the words of the
    description: the name contains "predictions", and "new" appears in
    it exactly when [use_ood] is set. *)
Definition keeps (use_ood : bool) (file : string) : bool :=
  contains "predictions" file && Bool.eqb (contains "new" file) use_ood.

(** The part of [s] before the first occurrence of [sep]; all of [s]
    when [sep] does not occur. *)
Fixpoint before (sep s : string) : string :=
  if String.prefix sep s then ""
  else match s with
       | EmptyString => ""
       | String a s' => String a (before sep s')
       end.

(** The identifier [get_all_videos] derives from a file name. *)
Definition video_id (file : string) : option string :=
  if contains "temporal" file then Some (before "_temporal_norm.csv" file)
  else if contains "pca" file then None
  else Some (before ".csv" file).

(** [s] without the suffix [suf], when it ends with it. *)
Fixpoint strip_suffix (suf s : string) : option string :=
  if String.eqb s suf then Some ""
  else match s with
       | EmptyString => None
       | String a s' => String a <$> strip_suffix suf s'
       end.

(** The identifier as the description words it: the name without its
    suffix [_temporal_norm.csv] when it has it; failing that, the name
    without its suffix [.csv] when neither "temporal" nor "pca" appears
    in it; no identifier otherwise. *)
Definition described_video_id (file : string) : option string :=
  match strip_suffix "_temporal_norm.csv" file with
  | Some v => Some v
  | None =>
      if negb (contains "temporal" file) && negb (contains "pca" file)
      then Some (default file (strip_suffix ".csv" file))
      else None
  end.

(** The directories two levels below a directory reached as [top],
    given its entries. *)
Definition subdirs (es : list (string * node)) : list (string * node) :=
  filter is_dir_entry es.

Definition entries_of (n : option node) : list (string * node) :=
  match n with
  | Some (Dir es) => es
  | _ => []
  end.

Definition two_below (top : string) (es : list (string * node)) : list string :=
  flat_map
    (fun d1 => map (fun d2 => top +:+ "/" +:+ d1.1 +:+ "/" +:+ d2.1)
                   (subdirs (entries_of (Some d1.2))))
    (subdirs es).

(** A name, as in any real directory: not empty, and no separator in
    it. *)
Definition name_ok (d : string) : bool :=
  negb (String.eqb d "") && (count sep d =? 0)%Z.

Fixpoint names_ok (n : node) : bool :=
  match n with
  | File => true
  | Dir es =>
      (fix all (l : list (string * node)) :=
         match l with
         | [] => true
         | (d, x) :: l' => name_ok d && names_ok x && all l'
         end) es
  end.

(** The path [get_model_folders] walks from: its argument without one
    trailing separator. *)
Definition walked_top (model_dir : string) : string :=
  if endswith sep model_dir then drop_last model_dir else model_dir.

(** A top that [os.path.join] extends with a separator. *)
Definition plain_top (top : string) : Prop :=
  top <> "" /\ endswith sep top = false.

(** The directories [os.walk] visits from a node reached as [top]. *)
Definition walk_paths (top : string) (n : node) : list string :=
  map (fun x => x.1.1) (walk_node top n).

(** The directories [os.walk] visits. *)
Definition walked (fs : filesystem) (top : string) : list string :=
  map (fun x => x.1.1) (walk fs top).

(** The directories [depth] levels below a node reached as [top]. *)
Fixpoint paths_at (depth : nat) (top : string) (n : node) {struct n}
    : list string :=
  match n with
  | File => []
  | Dir es =>
      match depth with
      | O => [top]
      | S depth' =>
          (fix below (l : list (string * node)) :=
             match l with
             | [] => []
             | (d, x) :: l' =>
                 paths_at depth' (top +:+ "/" +:+ d) x ++ below l'
             end) es
      end
  end.

(** What [strip_cols_append_name] makes of a column label, and of a
    table: the levels joined with "_", stripped, and "_" and the model
    name appended. *)
Definition renamed_label (name : string) (col : label) : label :=
  Name (strip (join_label col) +:+ "_" +:+ name).

Definition renamed (name : string) (T : DataFrame) : DataFrame :=
  {| index := index T;
     columns := map (fun c => (renamed_label name c.1, c.2)) (columns T) |}.

(** The table [concat_dfs] builds from the tables of the models: the
    renamed tables, joined side by side from left to right. *)
Definition merged (tables : list (string * DataFrame)) : result DataFrame :=
  match tables with
  | [] => Raise UnboundLocalError
  | (name, T) :: rest =>
      for_each rest
        (fun '(name, T) merged => concat_axis1 merged (renamed name T))
        (renamed name T)
  end.

(** The columns of [T] that a key stands for: on a flat axis those it
    labels, on a header of several levels those under it. *)
Definition columns_of (key : string) (T : DataFrame)
    : list (label * list cell) :=
  filter (has_key (columns T) key) (columns T).

(** The key under which a label is found on an axis of the one or the
    other kind, if there is one. *)
Definition key_of (multi : bool) (l : label) : option string :=
  match l with
  | Name s => if multi then None else Some s
  | Levels (a :: _) => if multi then Some a else None
  | Levels [] => None
  end.

(** The cells of row [i] in the columns that [keys] stand for, key by
    key. *)
Definition keypoint_cells (keys : list string) (T : DataFrame) (i : nat)
    : list cell :=
  flat_map (fun k => cells_at i (columns_of k T)) keys.

(** The mean of some cells as the description has it: the arithmetic
    mean of the numbers among them, the missing value when there is
    none. *)
Definition present (cs : list cell) : list Q :=
  omap (fun c => match c with Num q => Some q | _ => None end) cs.

Definition mean_of (cs : list cell) : cell :=
  match present cs with
  | [] => NaN
  | qs => Num (arithmetic_mean qs)
  end.

(** A cell a mean can be taken over: a number or the missing value. *)
Definition numeric (c : cell) : bool :=
  match c with Str _ => false | _ => true end.

(** The table [get_precomputed_error] makes of the table it is given. *)
Definition precomputed_error_table (keypoint_names : list string)
    (model_name : string) (T : DataFrame) : result DataFrame :=
  let T1 := setitem_scalar "model_name" (Str model_name) T in
  mean ← mean_without_last keypoint_names T1;
  T2 ← setitem_series "mean" mean T1;
  first ← item (labels T2) 0;
  mret (rename_column first "img_file" T2).

(** The table [compute_confidence] makes from the table it is given:
    the array of third slots and the "set" column if there is one, the
    keypoint columns filled one after the other, then the other
    columns. *)
Definition third_slots_and_set (T : DataFrame)
    : result (list (list cell) * nat * option (list cell)) :=
  if Nat.eqb (ncols T mod 3) 1 then
    tmp ← reshape_3 (nrows T) (ncols T - 1) (to_numpy (without_last_column T));
    set_ ← last_column T;
    mret (third_slots tmp, (ncols T - 1) / 3, Some set_)
  else
    tmp ← reshape_3 (nrows T) (ncols T) (to_numpy T);
    mret (third_slots tmp, ncols T / 3, None).

Definition fill_keypoints (keypoints : nat) (results : list (list cell))
    (todo : list (nat * string)) (T_ : DataFrame) : result DataFrame :=
  for_each todo
    (fun '(c, col) T_ =>
       values ← array_column keypoints c results;
       setitem_values col values T_)
    T_.

Definition confidence_table (keypoint_names : list string)
    (model_name : string) (T : DataFrame) : result DataFrame :=
  '(results, keypoints, set_) ← third_slots_and_set T;
  T0 ← fill_keypoints keypoints results (imap pair keypoint_names)
         (empty_frame keypoint_names);
  let T1 := setitem_scalar "model_name" (Str model_name) T0 in
  mean ← mean_without_last keypoint_names T1;
  T2 ← setitem_series "mean" mean T1;
  match set_ with
  | Some set_ =>
      T3 ← setitem_values "set" set_ T2;
      setitem_values "img_file" (map cell_of_ilabel (index T)) T3
  | None => mret T2
  end.

(** The names [compute_confidence] gives to columns of its own. *)
Definition reserved_names : list string :=
  ["model_name"; "mean"; "set"; "img_file"].

(** The table [get_df_box] makes for one keypoint and one model. *)
Definition box_of (T : DataFrame) (keypoint model_curr : string)
    : result DataFrame :=
  model_name ← select_column AttributeError "model_name" T;
  value ← select_column KeyError keypoint
             (mask_rows T (eq_scalar model_name (Str model_curr)));
  mret (frame_of_box keypoint value model_curr).

(** The long form of a table [T] whose column "model_name" holds
    [model_name]: for each keypoint in turn and, within it, each model
    in turn, the rows of that model, with the keypoint, the metric, the
    cell of the keypoint's column and the model. *)
Definition long_form (T : DataFrame) (model_name : list cell)
    (keypoint_names model_names : list string) : DataFrame :=
  let rows model := map (fun c => cell_eqb c (Str model)) model_name in
  let pairs := list_prod keypoint_names model_names in
  let count model := length (keep_where (rows model) (index T)) in
  {| index := flat_map (fun km => keep_where (rows km.2) (index T)) pairs;
     columns :=
       [(Name "keypoint",
         flat_map (fun km => repeat (Str km.1) (count km.2)) pairs);
        (Name "metric",
         flat_map (fun km => repeat (Str "Pixel error") (count km.2)) pairs);
        (Name "value",
         flat_map (fun km => keep_where (rows km.2)
                               (column_or_missing (Name km.1) T)) pairs);
        (Name "model_name",
         flat_map (fun km => repeat (Str km.2) (count km.2)) pairs)] |}.

(** The names under which [build_precomputed_metrics_df] files the
    table of a metric, by the name of the metric. *)
Definition metric_keys (metric_name : string) : list string :=
  (if contains "confidence" metric_name then [conf_error_key] else [])
  ++ (if contains "single" metric_name then [pcasv_error_key]
      else if contains "multi" metric_name then [pcamv_error_key]
      else if contains "temporal" metric_name then [temp_norm_error_key]
      else if contains "pixel" metric_name then [pix_error_key]
      else []).

(** The keys of a dictionary after one more key is used. *)
Definition add_key (keys : list string) (k : string) : list string :=
  if bool_decide (k ∈ keys) then keys else keys ++ [k].

(** A computation leaves the objects of the store [h0] as they are,
    whatever it adds, and its result satisfies [Q]. *)
Definition preserves {A : Type} (h0 : heap) (m : M A) (Q : A -> Prop) : Prop :=
  forall h, h0 `prefix_of` h ->
    h0 `prefix_of` (m h).2 /\
    match (m h).1 with
    | Ok a => Q a
    | Raise _ => True
    end.

(** A computation raises nothing but exceptions in [E], and its result
    satisfies [Q]. *)
Definition raises_only {A : Type} (E : exn -> Prop) (m : M A) (Q : A -> Prop)
    : Prop :=
  forall h, match (m h).1 with
            | Ok a => Q a
            | Raise e => E e
            end.

(** A computation started in a store that satisfies [P] ends, when it
    returns, with a result and a store that satisfy [Q]. *)
Definition hoare {A : Type} (P : heap -> Prop) (m : M A)
    (Q : A -> heap -> Prop) : Prop :=
  forall h, P h -> match m h with
                   | (Ok a, h') => Q a h'
                   | (Raise _, _) => True
                   end.

(** What [get_precomputed_error] keeps of a table [T0] in the table
    [T] it makes of it: the rows, the kind of the column axis and, on
    a header of several levels, the first label. *)
Definition same_frame (T0 T : DataFrame) : Prop :=
  index T = index T0
  /\ multi_level (columns T) = multi_level (columns T0)
  /\ (multi_level (columns T0) = true -> head (labels T) = head (labels T0)).

(** The table at [df], if its axis is flat, has "img_file" for its
    first column. *)
Definition img_file_first (h : heap) (df : ref) : Prop :=
  exists T, h !! df = Some T
            /\ (multi_level (columns T) = false ->
                head (labels T) = Some (Name "img_file")).

(** The tables of [h0] are still in the store [h], each the same frame. *)
Definition same_frames (h0 h : heap) : Prop :=
  forall df T0, h0 !! df = Some T0 ->
    exists T, h !! df = Some T /\ same_frame T0 T.

(** A reference to an object made after [h0]. *)
Definition fresh_for (h0 : heap) (r : ref) : Prop := length h0 <= r.

(** *** Example file systems *)

Definition fs_models : filesystem :=
  {| root := Dir [("a", Dir [("b", Dir [("c", Dir [("d", Dir [])])]);
                             ("x", Dir [("y", Dir [])])])];
     cwd := [] |}.

Definition fs_labeled : filesystem :=
  {| root := Dir [("m", Dir [("m_predictions.csv", File);
                             ("m_predictions_new.csv", File);
                             ("other.csv", File);
                             ("video_preds",
                              Dir [("vid1_temporal_norm.csv", File);
                                   ("vid1.csv", File);
                                   ("vid2_pca_x.csv", File)])]);
                  ("n", Dir [("video_preds",
                              Dir [("temporal_01.csv", File)])])];
     cwd := [] |}.


(** *** Example tables *)

(** A one-row error table for the keypoints A, B, C. *)
Definition errors_ABC : DataFrame :=
  {| index := [IInt 0];
     columns := [(Name "Unnamed: 0", [Str "img0.png"]);
                 (Name "A", [Num 1]); (Name "B", [Num 2]); (Name "C", [Num 3])] |}.

(** Predictions for the keypoints A, B, C: x, y and likelihood each,
    with and without a trailing "set" column. *)
Definition xyl (k : string) (x y l : Q) : list (label * list cell) :=
  [(Levels [k; "x"], [Num x; Num (x + 1)]);
   (Levels [k; "y"], [Num y; Num (y + 1)]);
   (Levels [k; "likelihood"], [Num l; Num (l / 2)])].

Definition preds_ABC : DataFrame :=
  {| index := [IStr "img0.png"; IStr "img1.png"];
     columns := xyl "A" 10 11 1 ++ xyl "B" 20 21 2 ++ xyl "C" 30 31 3 |}.

Definition preds_ABC_set : DataFrame :=
  {| index := index preds_ABC;
     columns := columns preds_ABC ++ [(Levels ["set"; ""], [Str "train"; Str "test"])] |}.

(** The same with a leading column, as [concat_dfs] expects. *)
Definition raw_ABC : DataFrame :=
  {| index := index preds_ABC;
     columns := (Levels ["set"; " "], [Str "train"; Str "test"]) :: columns preds_ABC |}.

(** A scatter table for each of two models. *)
Definition scatter_A : DataFrame :=
  {| index := [IInt 0; IInt 1];
     columns := [(Name "nose", [Num 1; Num 2]);
                 (Name "model_name", [Str "a"; Str "a"]);
                 (Name "mean", [Num 1; Num 2]);
                 (Name "set", [Str "train"; Str "test"]);
                 (Name "img_file", [Str "img0.png"; Str "img1.png"])] |}.

Definition scatter_B : DataFrame :=
  {| index := [IInt 0; IInt 1];
     columns := [(Name "nose", [Num 3; Num 4]);
                 (Name "model_name", [Str "b"; Str "b"]);
                 (Name "mean", [Num 3; Num 4]);
                 (Name "set", [Str "train"; Str "test"]);
                 (Name "img_file", [Str "img0.png"; Str "img1.png"])] |}.

(** [pd.DataFrame(d)] and [pd.concat(tables)] for the examples, where
    all the series of [d] carry the same rows and all the tables the
    same columns; anything else is refused here. *)
Definition DataFrame_of_aligned (d : list (string * dict_value))
    : result DataFrame :=
  match omap (fun kv => match kv.2 with
                        | Column s => Some (s_index s)
                        | Scalar _ => None
                        end) d with
  | [] => Raise ValueError
  | idx :: others =>
      if forallb (fun i => bool_decide (i = idx)) others
      then Ok {| index := idx;
                 columns := map (fun kv =>
                                   (Name kv.1,
                                    match kv.2 with
                                    | Column s => s_values s
                                    | Scalar c => repeat c (length idx)
                                    end)) d |}
      else Raise ValueError
  end.

Definition stack_rows (tables : list DataFrame) : result DataFrame :=
  match tables with
  | [] => Raise ValueError
  | T :: rest =>
      if forallb (fun T' => bool_decide (labels T' = labels T)) rest
      then Ok {| index := flat_map index tables;
                 columns := imap (fun j l =>
                                    (l, flat_map (fun T' =>
                                                    match columns T' !! j with
                                                    | Some c => c.2
                                                    | None => []
                                                    end) tables))
                                 (labels T) |}
      else Raise ValueError
  end.

(* ================================================================= *)
(** * Properties *)
(* ================================================================= *)

(** ** Strings *)

#[local] Arguments String.append !_ _ / : simpl nomatch.

Lemma str_app_nil_r (s : string) : s +:+ "" = s.
Proof. induction s; simpl; congruence. Qed.

Lemma str_app_assoc (a b c : string) : (a +:+ b) +:+ c = a +:+ (b +:+ c).
Proof. induction a; simpl; congruence. Qed.

Lemma count_app (c : ascii) (a b : string) :
  count c (a +:+ b) = (count c a + count c b)%Z.
Proof. induction a as [|x a IH]; simpl; [done | rewrite IH; lia]. Qed.

Lemma count_nonneg (c : ascii) (s : string) : (0 <= count c s)%Z.
Proof. induction s as [|x s IH]; simpl; [done | destruct (Ascii.eqb x c); lia]. Qed.

Lemma prefix_split (sep s : string) :
  String.prefix sep s = true -> exists rest, s = sep +:+ rest.
Proof.
  revert s; induction sep as [|a sep IH]; intros s.
  - by exists s.
  - destruct s as [|b s]; simpl; [done|].
    destruct (ascii_dec a b) as [->|]; [|done].
    intros [rest ->]%IH. by exists rest.
Qed.

(** [split] starts with the text before the first separator. *)
Lemma split_from_before (sep s cur : string) :
  exists rest, split_from sep s 0 cur = (cur +:+ before sep s) :: rest.
Proof.
  revert cur; induction s as [|a s IH]; intros cur.
  - simpl. destruct sep; simpl; rewrite str_app_nil_r; eauto.
  - cbn [split_from before]. destruct (String.prefix sep (String a s)).
    + rewrite str_app_nil_r. eauto.
    + destruct (IH (cur +:+ String a "")) as [rest ->].
      exists rest. f_equal. by rewrite str_app_assoc.
Qed.

Lemma split_item0 (sep s : string) : item (split sep s) 0 = Ok (before sep s).
Proof.
  unfold split. by destruct (split_from_before sep s "") as [rest ->].
Qed.

(** What [before] computes: the text up to the first place where [sep]
    starts, and all of the text when there is no such place. *)
Lemma before_spec (sep s : string) :
  (exists rest, s = before sep s +:+ sep +:+ rest) \/
  (contains sep s = false /\ before sep s = s).
Proof.
  induction s as [|a s IH]; cbn [before contains].
  - destruct (String.prefix sep "") eqn:E.
    + left. apply prefix_split in E as [rest E]. by exists rest.
    + by right.
  - destruct (String.prefix sep (String a s)) eqn:E.
    + left. apply prefix_split in E as [rest E]. by exists rest.
    + destruct IH as [[rest IH]|[IH1 IH2]].
      * left. exists rest. simpl. by rewrite <- IH.
      * right. simpl. by rewrite IH1, IH2.
Qed.

(** ** File discovery *)

Lemma filter_bool_cons {A : Type} (p : A -> bool) (x : A) (l : list A) :
  filter p (x :: l) = if p x then x :: filter p l else filter p l.
Proof. rewrite filter_cons. by destruct (p x). Qed.

Lemma fold_left_ret_files (use_ood : bool) (files : list string)
    (acc : list PurePath) :
  fold_left
    (fun ret_files file =>
       if contains "predictions" file then
         if negb (contains "new" file) && negb use_ood
         then ret_files ++ [Path file]
         else if contains "new" file && use_ood
         then ret_files ++ [Path file]
         else ret_files
       else ret_files)
    files acc
  = acc ++ map Path (filter (keeps use_ood) files).
Proof.
  revert acc; induction files as [|f files IH]; intros acc; simpl.
  - by rewrite app_nil_r.
  - rewrite IH, filter_bool_cons.
    change (keeps use_ood f)
      with (contains "predictions" f && Bool.eqb (contains "new" f) use_ood).
    destruct (contains "predictions" f), (contains "new" f), use_ood; simpl;
      by rewrite <- ?app_assoc.
Qed.

Lemma for_each_ext {A S : Type} (xs : list A) (f g : A -> S -> result S)
    (acc : S) :
  (forall x acc, f x acc = g x acc) -> for_each xs f acc = for_each xs g acc.
Proof.
  intros E. revert acc. induction xs as [|x xs IH]; intros acc; simpl; [done|].
  rewrite E. destruct (g x acc); simpl; [apply IH | done].
Qed.

(** C7.  For every list of folders and every [use_ood],
    [update_labeled_file_list] returns, folder by folder and in listing
    order, exactly the files of the folder whose name contains
    "predictions" and in whose name "new" appears if and only if
    [use_ood] is set; a folder that cannot be listed raises the error of
    the listing. *)
Theorem update_labeled_file_list_selects (fs : filesystem)
    (folders : list string) (use_ood : bool) :
  update_labeled_file_list fs folders use_ood
  = mapM (fun folder =>
            files ← listed_files fs folder;
            mret (map Path (filter (keeps use_ood) files)))
         folders.
Proof.
  unfold update_labeled_file_list.
  enough (H : forall acc,
    for_each folders
      (fun model_pred_folder per_model_preds =>
         model_preds ← listed_files fs model_pred_folder;
         mret (per_model_preds ++ [map Path (filter (keeps use_ood) model_preds)]))
      acc
    = rest ← mapM (fun folder =>
                     files ← listed_files fs folder;
                     mret (map Path (filter (keeps use_ood) files))) folders;
      mret (acc ++ rest)).
  { etransitivity; [|etransitivity; [apply (H [])|]].
    - apply for_each_ext. intros d acc.
      destruct (listed_files fs d); simpl; [|done].
      by rewrite fold_left_ret_files.
    - by destruct (mapM _ folders). }
  induction folders as [|d folders IH]; intros acc; simpl.
  - by rewrite app_nil_r.
  - destruct (listed_files fs d) as [files|e]; simpl; [|done].
    rewrite IH. destruct (mapM _ folders); simpl; [|done].
    by rewrite <- app_assoc.
Qed.

Example update_labeled_file_list_example :
  update_labeled_file_list fs_labeled ["/m"] false
    = Ok [[Path "m_predictions.csv"]]
  /\ update_labeled_file_list fs_labeled ["/m"] true
    = Ok [[Path "m_predictions_new.csv"]].
Proof. split; reflexivity. Qed.

Lemma for_each_videos (files : list string) (acc : gset string) :
  for_each files
    (fun file (ret_videos : gset string) =>
       if contains "temporal" file then
         vid_file ← item (split "_temporal_norm.csv" file) 0;
         mret (ret_videos ∪ {[vid_file]})
       else if negb (contains "temporal" file) && negb (contains "pca" file)
       then
         vid_file ← item (split ".csv" file) 0;
         mret (ret_videos ∪ {[vid_file]})
       else mret ret_videos)
    acc
  = Ok (acc ∪ list_to_set (omap video_id files)).
Proof.
  revert acc; induction files as [|f files IH]; intros acc; simpl.
  - f_equal. set_solver.
  - unfold video_id at 1. rewrite !split_item0.
    destruct (contains "temporal" f); simpl.
    + rewrite IH. f_equal. set_solver.
    + destruct (contains "pca" f); simpl; rewrite IH; f_equal; set_solver.
Qed.

(** C5, as the code has it.  [get_all_videos] derives an identifier
    from every file of every folder's [video_preds] directory: when
    "temporal" appears in the name, the text before the first
    occurrence of "_temporal_norm.csv" (the whole name when that text
    does not occur); otherwise, when "pca" does not appear either, the
    text before the first occurrence of ".csv" (again the whole name
    without one); otherwise none.  The result is the set of these
    identifiers over all folders. *)
Theorem get_all_videos_identifiers (fs : filesystem) (folders : list string) :
  get_all_videos fs folders
  = (fun files => list_to_set (omap video_id (concat files)))
      <$> mapM (listed_video_files fs) folders.
Proof.
  unfold get_all_videos.
  enough (H : forall acc : gset string,
    for_each folders
      (fun model_preds_folder ret_videos =>
         model_preds ← listed_video_files fs model_preds_folder;
         mret (ret_videos ∪ list_to_set (omap video_id model_preds)))
      acc
    = (fun files => acc ∪ list_to_set (omap video_id (concat files)))
        <$> mapM (listed_video_files fs) folders).
  { etransitivity; [|etransitivity; [apply (H ∅)|]].
    - apply for_each_ext. intros d acc.
      destruct (listed_video_files fs d); simpl; [|done].
      apply for_each_videos.
    - destruct (mapM _ folders); simpl; [|done]. f_equal. set_solver. }
  induction folders as [|d folders IH]; intros acc; simpl.
  - f_equal. set_solver.
  - destruct (listed_video_files fs d) as [files|e]; simpl; [|done].
    rewrite IH. destruct (mapM _ folders); simpl; [|done].
    f_equal. rewrite omap_app, list_to_set_app_L. set_solver.
Qed.

(** The example of the description: one identifier for the three files. *)
Example get_all_videos_example :
  get_all_videos fs_labeled ["/m"] = Ok {["vid1"]}.
Proof. reflexivity. Qed.

(** C5, as stated, fails: a file whose name holds "temporal" without
    ending in "_temporal_norm.csv" is not skipped, its whole name
    becomes an identifier. *)
Lemma get_all_videos_keeps_other_temporal_files :
  get_all_videos fs_labeled ["/n"] = Ok {["temporal_01.csv"]}
  /\ described_video_id "temporal_01.csv" = None.
Proof. split; reflexivity. Qed.

(** *** Walking a directory tree *)

Lemma node_nested_ind (P : node -> Prop) :
  P File ->
  (forall es, Forall (fun e => P e.2) es -> P (Dir es)) ->
  forall n, P n.
Proof.
  intros HF HD. fix IH 1. intros [|es]; [exact HF|].
  apply HD. induction es as [|[d x] es IHes]; constructor; [apply IH | exact IHes].
Qed.

Lemma walk_node_dir (top : string) (es : list (string * node)) :
  walk_node top (Dir es)
  = (top, map fst (filter is_dir_entry es),
          map fst (filter (fun e => negb (is_dir_entry e)) es))
    :: flat_map (fun e => walk_node (path_join top e.1) e.2) es.
Proof.
  cbn [walk_node]. f_equal.
  induction es as [|[d x] es IH]; [done|]. cbn [flat_map]. by rewrite <- IH.
Qed.

Lemma paths_at_dir (depth : nat) (top : string) (es : list (string * node)) :
  paths_at (S depth) top (Dir es)
  = flat_map (fun e => paths_at depth (top +:+ "/" +:+ e.1) e.2) es.
Proof.
  cbn [paths_at].
  induction es as [|[d x] es IH]; [done|]. cbn [flat_map]. by rewrite <- IH.
Qed.

Lemma names_ok_dir (es : list (string * node)) :
  names_ok (Dir es) = forallb (fun e => name_ok e.1 && names_ok e.2) es.
Proof.
  cbn [names_ok].
  induction es as [|[d x] es IH]; [done|]. cbn [forallb]. by rewrite <- IH.
Qed.

Lemma last_char_app (a : string) (c : ascii) (b : string) :
  last_char (a +:+ String c b) = last_char (String c b).
Proof.
  induction a as [|x a IH]; [done|].
  change (String x a +:+ String c b) with (String x (a +:+ String c b)).
  cbn [last_char]. rewrite IH.
  destruct (a +:+ String c b) eqn:E; [by destruct a|done].
Qed.

Lemma last_char_no_sep (d : string) :
  d <> "" -> count sep d = 0%Z -> endswith sep d = false.
Proof.
  unfold endswith. induction d as [|x d IH]; [done|]. intros _ Hc.
  cbn [count] in Hc. pose proof (count_nonneg sep d).
  destruct (Ascii.eqb x sep) eqn:Ex; [lia|].
  destruct d as [|y d]; [by cbn; rewrite Ex|].
  change (last_char (String x (String y d))) with (last_char (String y d)).
  apply IH; [done | lia].
Qed.

Lemma name_ok_spec (d : string) :
  name_ok d = true -> d <> "" /\ count sep d = 0%Z.
Proof.
  unfold name_ok. intros [H1 H2]%andb_true_iff. split.
  - intros ->. done.
  - by apply Z.eqb_eq.
Qed.

Lemma path_join_plain (top d : string) :
  plain_top top -> name_ok d = true ->
  path_join top d = top +:+ "/" +:+ d
  /\ plain_top (top +:+ "/" +:+ d)
  /\ count sep (top +:+ "/" +:+ d) = (count sep top + 1)%Z.
Proof.
  intros [Htop Hend] [Hd Hc]%name_ok_spec. split; [|split].
  - unfold path_join. rewrite Hend.
    destruct d as [|x d]; [done|]. cbn [startswith].
    cbn [count] in Hc. pose proof (count_nonneg sep d).
    destruct (Ascii.eqb x sep); [lia|].
    destruct top; [done|]. done.
  - split; [by destruct top|].
    unfold endswith. destruct d as [|x d]; [done|].
    change ("/" +:+ String x d) with (String sep (String x d)).
    rewrite last_char_app.
    change (last_char (String sep (String x d))) with (last_char (String x d)).
    by apply (last_char_no_sep (String x d)).
  - rewrite !count_app, Hc. cbn. lia.
Qed.

Lemma walk_paths_dir (top : string) (es : list (string * node)) :
  walk_paths top (Dir es)
  = top :: flat_map (fun e => walk_paths (path_join top e.1) e.2) es.
Proof.
  unfold walk_paths. rewrite walk_node_dir. cbn [map]. f_equal.
  induction es as [|e es IH]; [done|]. cbn [flat_map]. by rewrite map_app, IH.
Qed.

(** Every directory met below [top] is at least as deep as [top]. *)
Lemma walk_paths_deeper (n : node) :
  forall top p,
    names_ok n = true -> plain_top top -> In p (walk_paths top n) ->
    (count sep top <= count sep p)%Z.
Proof.
  induction n as [|es IH] using node_nested_ind; intros top p Hok Htop Hp.
  - done.
  - rewrite walk_paths_dir in Hp. rewrite names_ok_dir in Hok.
    destruct Hp as [->|Hp]; [lia|].
    apply in_flat_map in Hp as [e [He Hp]].
    rewrite forallb_forall in Hok.
    destruct (andb_prop _ _ (Hok e He)) as [Hd Hx].
    destruct (path_join_plain top e.1 Htop Hd) as (Hj & Hplain & Hcount).
    rewrite Hj in Hp.
    rewrite Forall_forall in IH.
    specialize (IH e (proj2 (list_elem_of_In _ _) He) _ _ Hx Hplain Hp). lia.
Qed.

Lemma filter_bool_nil {A : Type} (p : A -> bool) (l : list A) :
  (forall x, In x l -> p x = false) -> filter p l = [].
Proof.
  induction l as [|x l IH]; intros H; [done|].
  rewrite filter_bool_cons, (H x) by (by left). apply IH. intros y Hy. apply H. by right.
Qed.

Lemma filter_bool_ext {A : Type} (p q : A -> bool) (l : list A) :
  (forall x, In x l -> p x = q x) -> filter p l = filter q l.
Proof.
  induction l as [|x l IH]; intros H; [done|].
  rewrite !filter_bool_cons, (H x) by (by left).
  rewrite IH; [done|]. intros y Hy. apply H. by right.
Qed.

Lemma filter_bool_app {A : Type} (p : A -> bool) (l1 l2 : list A) :
  filter p (l1 ++ l2) = filter p l1 ++ filter p l2.
Proof. apply filter_app. Qed.

(** The directories of [os.walk] whose path has [depth] separators
    more than [top] are the directories [depth] levels below it. *)
Lemma walk_paths_at_depth (n : node) :
  forall depth top,
    names_ok n = true -> plain_top top ->
    filter (fun p => (count sep p - count sep top =? Z.of_nat depth)%Z)
           (walk_paths top n)
    = paths_at depth top n.
Proof.
  induction n as [|es IH] using node_nested_ind; intros depth top Hok Htop.
  - reflexivity.
  - rewrite walk_paths_dir, filter_bool_cons.
    pose proof Hok as Hok'. rewrite names_ok_dir, forallb_forall in Hok'.
    destruct depth as [|depth].
    + replace (count sep top - count sep top =? Z.of_nat 0)%Z with true
        by (symmetry; apply Z.eqb_eq; lia).
      cbn [paths_at]. f_equal. apply filter_bool_nil. intros p Hp.
      apply in_flat_map in Hp as [e [He Hp]].
      destruct (andb_prop _ _ (Hok' e He)) as [Hd Hx].
      destruct (path_join_plain top e.1 Htop Hd) as (Hj & Hplain & Hcount).
      rewrite Hj in Hp.
      pose proof (walk_paths_deeper _ _ _ Hx Hplain Hp).
      apply Z.eqb_neq. lia.
    + replace (count sep top - count sep top =? Z.of_nat (S depth))%Z with false
        by (symmetry; apply Z.eqb_neq; lia).
      rewrite paths_at_dir. clear Hok.
      induction es as [|e es IHes]; [done|].
      cbn [flat_map]. rewrite filter_bool_app.
      apply Forall_cons in IH as [IHe IH].
      destruct (andb_prop _ _ (Hok' e (or_introl eq_refl))) as [Hd Hx].
      destruct (path_join_plain top e.1 Htop Hd) as (Hj & Hplain & Hcount).
      f_equal.
      * rewrite Hj, <- (IHe depth _ Hx Hplain).
        apply filter_bool_ext. intros p _. rewrite Hcount.
        destruct (Z.eqb_spec (count sep p - count sep top) (Z.of_nat (S depth)));
          symmetry; [apply Z.eqb_eq|apply Z.eqb_neq]; lia.
      * apply IHes; [done|]. intros x Hx'. apply Hok'. by right.
Qed.

Lemma two_below_paths_at (top : string) (es : list (string * node)) :
  two_below top es = paths_at 2 top (Dir es).
Proof.
  rewrite paths_at_dir. unfold two_below, subdirs.
  induction es as [|[d1 x1] es IH]; [done|].
  rewrite filter_bool_cons. cbn [flat_map]. rewrite <- IH.
  destruct x1 as [|es1]; [done|].
  cbn [is_dir_entry snd flat_map]. f_equal.
  rewrite paths_at_dir. cbn [entries_of fst snd]. clear.
  induction es1 as [|[d2 x2] es1 IH]; [done|].
  rewrite filter_bool_cons. cbn [flat_map]. rewrite <- IH.
  destruct x2; cbn [is_dir_entry snd paths_at map app fst]; [done|].
  f_equal. by rewrite !str_app_assoc.
Qed.

Lemma fold_left_model_folders (top : string)
    (l : list (string * list string * list string)) (acc : list string) :
  fold_left
    (fun model_folders '(root, dirs, files) =>
       if (count sep root - count sep top =? 2)%Z
       then model_folders ++ [root]
       else model_folders)
    l acc
  = acc ++ filter (fun p => (count sep p - count sep top =? 2)%Z)
                  (map (fun x => x.1.1) l).
Proof.
  revert acc; induction l as [|[[p ds] fs] l IH]; intros acc; cbn [fold_left map].
  - by rewrite app_nil_r.
  - rewrite IH, filter_bool_cons. cbn [fst].
    destruct (count sep p - count sep top =? 2)%Z; by rewrite <- ?app_assoc.
Qed.

(** What [get_model_folders] does for a root that is more than a
    separator.  For every non-empty [model_dir] it raises nothing and
    returns, in the order of the walk, exactly the directories
    [os.walk] meets whose path holds two separators more than the root
    (the root being [model_dir] without one trailing separator); there
    is none when nothing lies at that depth.  Where the root names a
    directory and does not itself end in a separator, these are the
    directories two levels below it. *)
Theorem get_model_folders_depth_two (fs : filesystem) (model_dir : string) :
  model_dir <> "" ->
  let top := walked_top model_dir in
  exists folders,
    get_model_folders fs model_dir = Ok folders
    /\ folders = filter (fun p => bool_decide (count sep p = count sep top + 2)%Z)
                        (walked fs top)
    /\ (forall n,
          resolve fs top = Some n -> names_ok n = true ->
          endswith sep top = false ->
          folders = two_below top (entries_of (Some n))).
Proof.
  intros Hne top.
  unfold get_model_folders.
  assert (exists a, last_char model_dir = Ok a) as [a Ha].
  { clear top. induction model_dir as [|x s IH]; [done|].
    destruct s as [|y s]; [by exists x|]. destruct IH as [a Ha]; [done|].
    exists a. exact Ha. }
  rewrite Ha. cbn [mbind result_bind mret result_ret].
  assert (Htop : (if Ascii.eqb a sep then drop_last model_dir else model_dir) = top).
  { unfold top, walked_top, endswith. by rewrite Ha. }
  rewrite Htop, fold_left_model_folders. cbn [app].
  eexists. split; [reflexivity|]. split.
  - apply filter_bool_ext. intros p _.
    destruct (Z.eqb_spec (count sep p - count sep top) 2).
    + rewrite bool_decide_true; [done | lia].
    + rewrite bool_decide_false; [done | lia].
  - intros n Hn Hok Hend. unfold walk. rewrite Hn.
    assert (plain_top top) as Hplain.
    { split; [|done]. intros E. unfold resolve in Hn. by rewrite E in Hn. }
    destruct n as [|es]; [done|].
    cbn [entries_of].
    by rewrite two_below_paths_at, <- (walk_paths_at_depth (Dir es) 2 top Hok Hplain).
Qed.

(** The example of the description, root [/a] with the directories
    [/a/b/c], [/a/b/c/d] and [/a/x/y], by way of the theorem. *)
Lemma get_model_folders_example :
  get_model_folders fs_models "/a" = Ok ["/a/b/c"; "/a/x/y"].
Proof.
  destruct (get_model_folders_depth_two fs_models "/a") as (folders & -> & _ & H);
    [done|].
  f_equal. exact (H _ eq_refl eq_refl eq_refl).
Defined.

(** C6, at the root directory.  Given "/", [get_model_folders] returns
    the empty list although the tree holds directories two levels down
    ("/a/b", "/a/x") and directories whose path has two separators
    more than "/" ("/a/b/c"): the one character of "/" is taken off as
    a trailing separator, and the walk starts from the empty path,
    which names nothing.  The same tree walked from "/a" gives the two
    directories two levels below "/a". *)
Theorem get_model_folders_of_the_root :
  get_model_folders fs_models "/" = Ok []
  /\ (exists es, resolve fs_models "/a/b" = Some (Dir es))
  /\ (exists es, resolve fs_models "/a/x" = Some (Dir es))
  /\ (exists es, resolve fs_models "/a/b/c" = Some (Dir es))
  /\ count sep "/a/b/c" = (count sep "/" + 2)%Z
  /\ walked fs_models (walked_top "/") = []
  /\ get_model_folders fs_models "/a" = Ok ["/a/b/c"; "/a/x/y"].
Proof. repeat split; try reflexivity; by eexists. Qed.

(** ** The store *)

Lemma bind_run {A B : Type} (m : M A) (f : A -> M B) (h : heap) :
  (m ≫= f) h
  = match m h with
    | (Ok a, h') => f a h'
    | (Raise e, h') => (Raise e, h')
    end.
Proof. reflexivity. Qed.

Lemma load_run (h : heap) (r : ref) (T : DataFrame) :
  h !! r = Some T -> load r h = (Ok T, h).
Proof. unfold load. by intros ->. Qed.

Lemma lookup_last (h : heap) (X : DataFrame) : (h ++ [X]) !! length h = Some X.
Proof. by rewrite lookup_app_r, Nat.sub_diag. Qed.

Lemma insert_last (h : heap) (X Y : DataFrame) :
  <[length h:=Y]> (h ++ [X]) = h ++ [Y].
Proof. by rewrite insert_app_r_alt, Nat.sub_diag. Qed.

Lemma in_place_last (h : heap) (X : DataFrame)
    (f : DataFrame -> result DataFrame) :
  in_place (length h) f (h ++ [X])
  = match f X with
    | Ok Y => (Ok (), h ++ [Y])
    | Raise e => (Raise e, h ++ [X])
    end.
Proof.
  unfold in_place. rewrite bind_run, (load_run _ _ X) by apply lookup_last.
  rewrite bind_run. unfold lift. destruct (f X); [|done].
  unfold store. by rewrite insert_last.
Qed.

Lemma copy_run (h : heap) (r : ref) (T : DataFrame) :
  h !! r = Some T -> copy r h = (Ok (length h), h ++ [T]).
Proof. intros H. unfold copy. by rewrite bind_run, (load_run _ _ T). Qed.

(** ** Merging tables *)

Lemma set_labels_map (f : label -> label) (T : DataFrame) :
  set_labels (map f (labels T)) T
  = Ok {| index := index T;
          columns := map (fun c => (f c.1, c.2)) (columns T) |}.
Proof.
  unfold set_labels, labels, ncols. rewrite !length_map, Nat.eqb_refl.
  do 2 f_equal. induction (columns T) as [|c cs IH]; [done|].
  cbn. by rewrite <- IH.
Qed.

(** [strip_cols_append_name] works on the object it is given: the
    table at [df] is replaced by the renamed one, and [df] returned. *)
Lemma strip_cols_append_name_run (h : heap) (df : ref) (name : string)
    (T : DataFrame) :
  h !! df = Some T ->
  strip_cols_append_name df name h = (Ok df, <[df:=renamed name T]> h).
Proof.
  intros H. unfold strip_cols_append_name.
  assert (Hlt : df < length h) by (by eapply lookup_lt_Some).
  rewrite bind_run, (load_run _ _ T) by done.
  rewrite bind_run. unfold in_place at 1.
  rewrite bind_run, (load_run _ _ T) by done.
  rewrite bind_run. unfold lift at 1. rewrite set_labels_map.
  unfold store at 1.
  set (T1 := {| index := index T; columns := _ |}).
  rewrite bind_run, (load_run _ _ T1) by (by apply list_lookup_insert_eq).
  rewrite bind_run. unfold lift at 1.
  assert (Hm : mapM (fun col => match col with
                                | Name col => Ok (Name (col +:+ "_" +:+ name))
                                | Levels _ => Raise TypeError
                                end) (labels T1)
               = Ok (map (renamed_label name) (labels T))).
  { unfold T1, labels. cbn [columns]. clear.
    induction (columns T) as [|c cs IH]; [done|].
    cbn [map mapM fst]. cbn [map fst] in IH. rewrite IH. done. }
  rewrite Hm.
  rewrite bind_run. unfold in_place.
  rewrite bind_run, (load_run _ _ T1) by (by apply list_lookup_insert_eq).
  rewrite bind_run. unfold lift.
  assert (Hs : set_labels (map (renamed_label name) (labels T)) T1
               = Ok (renamed name T)).
  { unfold set_labels, ncols, T1, labels. cbn [columns index].
    rewrite !length_map, Nat.eqb_refl. unfold renamed. do 2 f_equal. clear.
    induction (columns T) as [|c cs IH]; [done|]. cbn. by rewrite <- IH. }
  rewrite Hs. unfold store. cbn. by rewrite list_insert_insert_eq.
Qed.

(** *** Objects a computation leaves alone *)

Lemma preserves_ret {A : Type} (h0 : heap) (a : A) (Q : A -> Prop) :
  Q a -> preserves h0 (mret a) Q.
Proof. intros HQ h Hh. by split. Qed.

Lemma preserves_lift {A : Type} (h0 : heap) (r : result A) :
  preserves h0 (lift r) (fun _ => True).
Proof. intros h Hh. split; [done|]. by destruct r. Qed.

Lemma preserves_bind {A B : Type} (h0 : heap) (m : M A) (f : A -> M B)
    (Q : A -> Prop) (R : B -> Prop) :
  preserves h0 m Q -> (forall a, Q a -> preserves h0 (f a) R) ->
  preserves h0 (m ≫= f) R.
Proof.
  intros Hm Hf h Hh. rewrite bind_run.
  destruct (Hm h Hh) as [H1 H2]. destruct (m h) as [[a|e] h1]; [|done].
  by apply Hf.
Qed.

Lemma preserves_weaken {A : Type} (h0 : heap) (m : M A) (Q R : A -> Prop) :
  preserves h0 m Q -> (forall a, Q a -> R a) -> preserves h0 m R.
Proof.
  intros Hm HQR h Hh. destruct (Hm h Hh) as [H1 H2]. split; [done|].
  destruct (m h).1; [by apply HQR | done].
Qed.

Lemma preserves_load (h0 : heap) (r : ref) :
  preserves h0 (load r) (fun _ => True).
Proof. intros h Hh. unfold load. by destruct (h !! r). Qed.

Lemma preserves_alloc (h0 : heap) (T : DataFrame) :
  preserves h0 (alloc T) (fresh_for h0).
Proof.
  intros h Hh. unfold alloc, fresh_for. cbn. split.
  - by apply prefix_app_r.
  - by apply prefix_length.
Qed.

Lemma preserves_store (h0 : heap) (r : ref) (T : DataFrame) :
  fresh_for h0 r -> preserves h0 (store r T) (fun _ => True).
Proof.
  intros Hr h [k ->]. unfold store. cbn. split; [|done].
  rewrite insert_app_r_alt by done. by apply prefix_app_r.
Qed.

Lemma preserves_read_local {A : Type} (h0 : heap) (v : option A) :
  preserves h0 (read_local v) (fun _ => True).
Proof. destruct v; [by apply preserves_ret | apply preserves_lift]. Qed.

Lemma preserves_for_each {A S : Type} (h0 : heap) (xs : list A)
    (body : A -> S -> M S) (I : S -> Prop) (acc : S) :
  (forall x acc, I acc -> preserves h0 (body x acc) I) ->
  I acc -> preserves h0 (for_each xs body acc) I.
Proof.
  intros Hbody. revert acc. induction xs as [|x xs IH]; intros acc Hacc.
  - by apply preserves_ret.
  - cbn [for_each]. eapply preserves_bind; [by apply Hbody|]. apply IH.
Qed.

Create HintDb preserves.

#[local] Hint Resolve preserves_load preserves_lift preserves_alloc
  preserves_store preserves_read_local : preserves.

(** One statement of a computation after the other: the first of a
    sequence by a known fact, then on with the rest. *)
Ltac preserve :=
  repeat first
    [ apply preserves_ret; done
    | solve [eauto with preserves]
    | eapply preserves_weaken; [solve [eauto with preserves] | done]
    | eapply preserves_bind; [solve [eauto with preserves] | intros ? ?] ].

Lemma preserves_in_place (h0 : heap) (r : ref)
    (f : DataFrame -> result DataFrame) :
  fresh_for h0 r -> preserves h0 (in_place r f) (fun _ => True).
Proof. intros Hr. unfold in_place. preserve. Qed.

Lemma preserves_copy (h0 : heap) (r : ref) :
  preserves h0 (copy r) (fresh_for h0).
Proof. unfold copy. preserve. Qed.

#[local] Hint Resolve preserves_in_place preserves_copy : preserves.

Lemma preserves_strip_cols_append_name (h0 : heap) (df : ref) (name : string) :
  fresh_for h0 df ->
  preserves h0 (strip_cols_append_name df name) (fresh_for h0).
Proof. intros Hdf. unfold strip_cols_append_name. preserve. Qed.

#[local] Hint Resolve preserves_strip_cols_append_name : preserves.

(** [concat_dfs] changes none of the objects there are when it is
    called, whatever their references in [dframes]. *)
Lemma preserves_concat_dfs (h0 : heap) (dframes : list (string * ref)) :
  preserves h0 (concat_dfs dframes) (fun _ => True).
Proof.
  unfold concat_dfs. eapply preserves_bind; [|intros vars _; preserve].
  apply (preserves_for_each h0 _ _ (fun _ => True)); [|done].
  intros [model_name dframe] vars _.
  destruct (counter vars =? 0)%Z; preserve.
Qed.

(** *** What [concat_dfs] returns *)

Lemma ret_run {A : Type} (a : A) (h : heap) : (mret a : M A) h = (Ok a, h).
Proof. reflexivity. Qed.

(** The loop of [concat_dfs] after its first round: [rc] refers to the
    table merged so far. *)
Lemma concat_dfs_rest (h0 : heap) (rest : list (string * ref))
    (tables : list (string * DataFrame)) :
  Forall2 (fun d t => d.1 = t.1 /\ h0 !! d.2 = Some t.2) rest tables ->
  forall (h : heap) (vars vars' : concat_vars) (rc : ref) (acc : DataFrame)
         (h' : heap),
    h0 `prefix_of` h ->
    (0 < counter vars)%Z -> df_concat vars = Some rc -> h !! rc = Some acc ->
    for_each rest
      (fun '(model_name, dframe) vars =>
         if (counter vars =? 0)%Z then
           df_concat0 ← copy dframe;
           T ← load df_concat0;
           base_colnames0 ← lift (mapM label_item0 (columns_1_3 T));
           df_concat0 ← strip_cols_append_name df_concat0 model_name;
           mret {| counter := counter vars + 1;
                   df_concat := Some df_concat0;
                   base_colnames := Some base_colnames0 |}
         else
           dframe_copy ← copy dframe;
           df ← strip_cols_append_name dframe_copy model_name;
           df_concat0 ← read_local (df_concat vars);
           A ← load df_concat0;
           B ← load df;
           AB ← lift (concat_axis1 A B);
           df_concat0 ← alloc AB;
           mret {| counter := counter vars + 1;
                   df_concat := Some df_concat0;
                   base_colnames := base_colnames vars |})
      vars h
    = (Ok vars', h') ->
    exists (rc' : ref) (AB : DataFrame),
      for_each tables
        (fun '(name, T) merged => concat_axis1 merged (renamed name T)) acc
      = Ok AB
      /\ df_concat vars' = Some rc' /\ h' !! rc' = Some AB
      /\ base_colnames vars' = base_colnames vars.
Proof.
  induction 1 as [|[name r] [name' T] rest tables [Hname HT] Hrest IH];
    intros h vars vars' rc acc h' Hpre Hc Hrc Hacc Hrun.
  - cbn in Hrun. injection Hrun as <- <-. by exists rc, acc.
  - cbn [fst snd] in Hname, HT. subst name'.
    cbn [for_each] in Hrun |- *. rewrite bind_run in Hrun.
    destruct (Z.eqb_spec (counter vars) 0) as [|_]; [lia|].
    assert (Hr : h !! r = Some T) by (by eapply prefix_lookup_Some).
    rewrite bind_run, (copy_run _ _ T), bind_run in Hrun by done.
    rewrite (strip_cols_append_name_run _ _ _ T) in Hrun by apply lookup_last.
    rewrite insert_last in Hrun.
    rewrite bind_run, Hrc in Hrun. cbn [read_local] in Hrun.
    rewrite ret_run in Hrun.
    rewrite bind_run, (load_run _ _ acc) in Hrun
      by (by apply lookup_app_l_Some).
    rewrite bind_run, (load_run _ _ (renamed name T)) in Hrun
      by apply lookup_last.
    rewrite bind_run in Hrun. unfold lift in Hrun.
    destruct (concat_axis1 acc (renamed name T)) as [AB|e]; [|done].
    rewrite bind_run in Hrun. unfold alloc in Hrun.
    rewrite ret_run in Hrun.
    cbn [mbind result_bind].
    rewrite <- (app_assoc h [_] [_]) in Hrun.
    eapply IH in Hrun as (rc' & AB' & H1 & H2 & H3 & H4).
    + exists rc', AB'. eauto.
    + etransitivity; [done|]. by apply prefix_app_r.
    + cbn. lia.
    + done.
    + change (h ++ [renamed name T; AB]) with (h ++ [renamed name T] ++ [AB]).
      rewrite app_assoc. apply lookup_last.
Qed.

(** What [concat_dfs] returns when it returns: a reference to the
    merged table, and the first levels of the columns 1, 4, 7, ... of
    the first table. *)
Lemma concat_dfs_returns (h : heap) (dframes : list (string * ref))
    (tables : list (string * DataFrame)) (r : ref) (names : list string)
    (h' : heap) :
  Forall2 (fun d t => d.1 = t.1 /\ h !! d.2 = Some t.2) dframes tables ->
  concat_dfs dframes h = (Ok (r, names), h') ->
  exists (first : string * DataFrame) (AB : DataFrame),
    head tables = Some first
    /\ mapM label_item0 (columns_1_3 first.2) = Ok names
    /\ merged tables = Ok AB
    /\ h' !! r = Some AB.
Proof.
  intros Hall Hrun. unfold concat_dfs in Hrun. rewrite bind_run in Hrun.
  destruct Hall as [|[name r0] [name' T] rest tables' [Hname HT] Hrest];
    [done|].
  cbn [fst snd] in Hname, HT. subst name'.
  cbn [for_each] in Hrun. rewrite bind_run in Hrun.
  cbn [counter Z.eqb] in Hrun.
  rewrite bind_run, (copy_run _ _ T), bind_run in Hrun by done.
  rewrite (load_run _ _ T), bind_run in Hrun by apply lookup_last.
  unfold lift at 1 in Hrun.
  destruct (mapM label_item0 (columns_1_3 T)) as [base|e] eqn:Hbase; [|done].
  rewrite bind_run in Hrun.
  rewrite (strip_cols_append_name_run _ _ _ T) in Hrun by apply lookup_last.
  rewrite insert_last, ret_run in Hrun.
  match type of Hrun with
  | context [for_each rest ?body ?vars ?hk] =>
      destruct (for_each rest body vars hk) as [[vars'|e] h1] eqn:Hloop;
        [|done]
  end.
  eapply (concat_dfs_rest h rest tables' Hrest) in Hloop
    as (rc' & AB & H1 & H2 & H3 & H4);
    [| by apply prefix_app_r | cbn; lia | reflexivity | apply lookup_last].
  rewrite bind_run, H2 in Hrun. cbn [read_local] in Hrun.
  rewrite ret_run, bind_run, H4 in Hrun. cbn [read_local base_colnames] in Hrun.
  rewrite ret_run, ret_run in Hrun. injection Hrun as <- <- <-.
  exists (name, T), AB. eauto.
Qed.

(** Conversely, [concat_dfs] returns whenever the first levels can be
    read and the renamed tables can be joined. *)
Lemma concat_dfs_rest_total (h0 : heap) (rest : list (string * ref))
    (tables : list (string * DataFrame)) :
  Forall2 (fun d t => d.1 = t.1 /\ h0 !! d.2 = Some t.2) rest tables ->
  forall (h : heap) (vars : concat_vars) (rc : ref) (acc AB : DataFrame),
    h0 `prefix_of` h ->
    (0 < counter vars)%Z -> df_concat vars = Some rc -> h !! rc = Some acc ->
    for_each tables
      (fun '(name, T) merged => concat_axis1 merged (renamed name T)) acc
    = Ok AB ->
    exists vars' rc' h',
      for_each rest
        (fun '(model_name, dframe) vars =>
           if (counter vars =? 0)%Z then
             df_concat0 ← copy dframe;
             T ← load df_concat0;
             base_colnames0 ← lift (mapM label_item0 (columns_1_3 T));
             df_concat0 ← strip_cols_append_name df_concat0 model_name;
             mret {| counter := counter vars + 1;
                     df_concat := Some df_concat0;
                     base_colnames := Some base_colnames0 |}
           else
             dframe_copy ← copy dframe;
             df ← strip_cols_append_name dframe_copy model_name;
             df_concat0 ← read_local (df_concat vars);
             A ← load df_concat0;
             B ← load df;
             AB ← lift (concat_axis1 A B);
             df_concat0 ← alloc AB;
             mret {| counter := counter vars + 1;
                     df_concat := Some df_concat0;
                     base_colnames := base_colnames vars |})
        vars h
      = (Ok vars', h')
      /\ df_concat vars' = Some rc' /\ h' !! rc' = Some AB
      /\ base_colnames vars' = base_colnames vars.
Proof.
  induction 1 as [|[name r] [name' T] rest tables [Hname HT] Hrest IH];
    intros h vars rc acc AB Hpre Hc Hrc Hacc Hm.
  - cbn in Hm. injection Hm as <-. by exists vars, rc, h.
  - cbn [fst snd] in Hname, HT. subst name'.
    cbn [for_each mbind result_bind] in Hm.
    destruct (concat_axis1 acc (renamed name T)) as [AB1|e] eqn:E; [|done].
    cbn [for_each]. rewrite bind_run.
    destruct (Z.eqb_spec (counter vars) 0) as [|_]; [lia|].
    assert (Hr : h !! r = Some T) by (by eapply prefix_lookup_Some).
    rewrite bind_run, (copy_run _ _ T), bind_run by done.
    rewrite (strip_cols_append_name_run _ _ _ T) by apply lookup_last.
    rewrite insert_last, bind_run, Hrc. cbn [read_local].
    rewrite ret_run, bind_run, (load_run _ _ acc) by (by apply lookup_app_l_Some).
    rewrite bind_run, (load_run _ _ (renamed name T)) by apply lookup_last.
    rewrite bind_run. unfold lift. rewrite E, bind_run. unfold alloc.
    rewrite ret_run, <- (app_assoc h [_] [_]).
    edestruct (IH (h ++ [renamed name T] ++ [AB1])
                 {| counter := counter vars + 1;
                    df_concat := Some (length (h ++ [renamed name T]));
                    base_colnames := base_colnames vars |}
                 (length (h ++ [renamed name T])) AB1 AB)
      as (vars' & rc' & h' & H1 & H2 & H3 & H4); [| | | |exact Hm|].
    + etransitivity; [done|]. by apply prefix_app_r.
    + cbn. lia.
    + reflexivity.
    + cbn [df_concat]. rewrite (app_assoc h [_] [_]). apply lookup_last.
    + exists vars', rc', h'. eauto.
Qed.

Lemma concat_dfs_total (h : heap) (dframes : list (string * ref))
    (tables : list (string * DataFrame)) (first : string * DataFrame)
    (names : list string) (AB : DataFrame) :
  Forall2 (fun d t => d.1 = t.1 /\ h !! d.2 = Some t.2) dframes tables ->
  head tables = Some first ->
  mapM label_item0 (columns_1_3 first.2) = Ok names ->
  merged tables = Ok AB ->
  exists r h', concat_dfs dframes h = (Ok (r, names), h') /\ h' !! r = Some AB.
Proof.
  intros Hall Hfirst Hnames Hmerged. unfold concat_dfs. rewrite bind_run.
  destruct Hall as [|[name r0] [name' T] rest tables' [Hname HT] Hrest];
    [done|].
  cbn [fst snd] in Hname, HT. subst name'. injection Hfirst as <-.
  cbn [fst snd merged] in Hnames, Hmerged.
  cbn [for_each]. rewrite bind_run. cbn [counter Z.eqb].
  rewrite bind_run, (copy_run _ _ T), bind_run by done.
  rewrite (load_run _ _ T), bind_run by apply lookup_last.
  unfold lift at 1. rewrite Hnames, bind_run.
  rewrite (strip_cols_append_name_run _ _ _ T) by apply lookup_last.
  rewrite insert_last, ret_run.
  edestruct (concat_dfs_rest_total h rest tables' Hrest (h ++ [renamed name T])
               {| counter := 0 + 1; df_concat := Some (length h);
                  base_colnames := Some names |}
               (length h) (renamed name T) AB)
    as (vars' & rc' & h' & H1 & H2 & H3 & H4); [| | | |exact Hmerged|].
  - by apply prefix_app_r.
  - cbn. lia.
  - reflexivity.
  - apply lookup_last.
  - rewrite H1, bind_run, H2. cbn [read_local]. rewrite ret_run, bind_run, H4.
    cbn [read_local base_colnames]. rewrite ret_run, ret_run.
    by exists rc', h'.
Qed.

Lemma concat_axis1_labels (A B AB : DataFrame) :
  concat_axis1 A B = Ok AB -> labels AB = labels A ++ labels B.
Proof.
  unfold concat_axis1, labels. repeat case_match; intros [= <-]; cbn [columns].
  - by rewrite map_app.
  - rewrite map_app, !map_map. done.
Qed.

Lemma concat_axis1_same_index (A B : DataFrame) :
  index A = index B ->
  concat_axis1 A B = Ok {| index := index A; columns := columns A ++ columns B |}.
Proof. intros H. unfold concat_axis1. by rewrite bool_decide_true. Qed.

Lemma merged_labels (tables : list (string * DataFrame)) (AB : DataFrame) :
  merged tables = Ok AB ->
  labels AB = flat_map (fun t => map (renamed_label t.1) (labels t.2)) tables.
Proof.
  destruct tables as [|[name T] rest]; [done|]. cbn [merged flat_map fst snd].
  assert (Hacc : labels (renamed name T) = map (renamed_label name) (labels T)).
  { unfold labels, renamed. cbn [columns]. by rewrite !map_map. }
  revert Hacc. generalize (renamed name T) (map (renamed_label name) (labels T)).
  induction rest as [|[name' T'] rest IH]; intros acc ls Hacc Hm.
  - injection Hm as <-. by rewrite app_nil_r.
  - cbn [for_each mbind result_bind] in Hm.
    destruct (concat_axis1 acc (renamed name' T')) as [AB'|e] eqn:E; [|done].
    cbn [flat_map fst snd]. rewrite app_assoc. eapply IH; [|done].
    rewrite (concat_axis1_labels _ _ _ E), Hacc. f_equal.
    unfold labels, renamed. cbn [columns]. by rewrite !map_map.
Qed.

Lemma merged_same_index (tables : list (string * DataFrame)) (idx : list ilabel) :
  tables <> [] -> Forall (fun t => index t.2 = idx) tables ->
  exists AB,
    merged tables = Ok AB /\ index AB = idx
    /\ ncols AB = sum_list (map (fun t => ncols t.2) tables).
Proof.
  destruct tables as [|[name T] rest]; [done|]. intros _ Hall.
  apply Forall_cons in Hall as [HT Hrest]. cbn [merged map sum_list fst snd] in *.
  assert (Hi : index (renamed name T) = idx) by done.
  assert (Hn : ncols (renamed name T) = ncols T).
  { unfold ncols, renamed. cbn [columns]. by rewrite length_map. }
  rewrite <- Hn. clear Hn HT.
  revert Hi. generalize (renamed name T).
  induction Hrest as [|[name' T'] rest HT' Hrest IH]; intros acc Hi.
  - exists acc. cbn. split; [done|]. split; [done|]. unfold id. lia.
  - cbn [for_each mbind result_bind map sum_list fst snd] in *.
    rewrite concat_axis1_same_index by (by rewrite Hi).
    edestruct IH as (AB & H1 & H2 & H3); [|exists AB; split; [exact H1|]].
    + by cbn.
    + split; [done|]. rewrite H3. unfold ncols, renamed. cbn [columns].
      rewrite length_app, length_map. unfold id. lia.
Qed.

(** C2.  For the tables of a non-empty mapping that all carry the same
    row index, the table [concat_dfs] returns has that index, hence as
    many rows as each of them, and as many columns as they have
    together. *)
Theorem concat_dfs_shape (h : heap) (dframes : list (string * ref))
    (tables : list (string * DataFrame)) (idx : list ilabel)
    (r : ref) (names : list string) (h' : heap) :
  Forall2 (fun d t => d.1 = t.1 /\ h !! d.2 = Some t.2) dframes tables ->
  Forall (fun t => index t.2 = idx) tables ->
  concat_dfs dframes h = (Ok (r, names), h') ->
  exists AB,
    h' !! r = Some AB
    /\ index AB = idx
    /\ Forall (fun t => nrows AB = nrows t.2) tables
    /\ ncols AB = sum_list (map (fun t => ncols t.2) tables).
Proof.
  intros Hrefs Hidx Hrun.
  destruct (concat_dfs_returns _ _ _ _ _ _ Hrefs Hrun)
    as (first & AB & Hfirst & _ & Hmerged & HAB).
  destruct (merged_same_index tables idx) as (AB' & H1 & H2 & H3);
    [by destruct tables | done |].
  rewrite Hmerged in H1. injection H1 as <-.
  exists AB. repeat split; try done.
  eapply Forall_impl; [exact Hidx|]. intros t Ht. unfold nrows. by rewrite H2, Ht.
Qed.

Lemma concat_dfs_shape_example :
  exists AB,
    (concat_dfs [("m0", 0); ("m1", 0)] [raw_ABC]).2 !! 3 = Some AB
    /\ index AB = index raw_ABC
    /\ Forall (fun t => nrows AB = nrows t.2) [("m0", raw_ABC); ("m1", raw_ABC)]
    /\ ncols AB = 20.
Proof.
  apply (concat_dfs_shape [raw_ABC] [("m0", 0); ("m1", 0)]
           [("m0", raw_ABC); ("m1", raw_ABC)] (index raw_ABC) 3 ["A"; "B"; "C"]).
  - repeat constructor.
  - repeat constructor.
  - reflexivity.
Defined.

Lemma every_third_lookup {A : Type} (l : list A) (i : nat) :
  every_third l !! i = l !! (3 * i).
Proof.
  revert l. induction i as [|i IH]; intros l.
  - by destruct l as [|x [|y [|z l]]].
  - replace (3 * S i) with (S (S (S (3 * i)))) by lia.
    destruct l as [|x [|y [|z l]]]; try done. cbn [every_third]. apply IH.
Qed.

Lemma columns_1_3_lookup (T : DataFrame) (i : nat) :
  columns_1_3 T !! i = labels T !! (1 + 3 * i).
Proof.
  unfold columns_1_3. rewrite every_third_lookup, lookup_drop. done.
Qed.

Lemma mapM_Ok_Forall2 {A B : Type} (f : A -> result B) (l : list A)
    (ys : list B) :
  mapM f l = Ok ys -> Forall2 (fun x y => f x = Ok y) l ys.
Proof.
  revert ys. induction l as [|x l IH]; intros ys H; cbn in H.
  - injection H as <-. constructor.
  - destruct (f x) as [y|e] eqn:E; [|done]. cbn in H.
    destruct (mapM f l) as [ys'|e]; [|done]. injection H as <-.
    constructor; [done | by apply IH].
Qed.

(** C3.  When [concat_dfs] returns, its second result lists, in their
    order, the first levels of the first table's columns 1, 4, 7, ...
    (one name for each such column, none sorted or dropped), and the
    merged table has the columns of all the tables, each renamed from
    its own label and the name of its model: the levels joined with
    "_", stripped, then "_" and the model name.  For a two-level label
    this is the first level, "_", the second level, stripped, "_" and
    the model name, and the first level is the keypoint name.
    [strip_cols_append_name] itself renames every column of the table
    it is given in this way. *)
Theorem concat_dfs_names_and_columns (h : heap)
    (dframes : list (string * ref)) (tables : list (string * DataFrame))
    (r : ref) (names : list string) (h' : heap) :
  Forall2 (fun d t => d.1 = t.1 /\ h !! d.2 = Some t.2) dframes tables ->
  concat_dfs dframes h = (Ok (r, names), h') ->
  exists (first : string * DataFrame) (AB : DataFrame),
    head tables = Some first
    /\ h' !! r = Some AB
    /\ (forall i k, names !! i = Some k ->
          exists c, labels first.2 !! (1 + 3 * i) = Some c /\ label_item0 c = Ok k)
    /\ (forall i c, labels first.2 !! (1 + 3 * i) = Some c ->
          exists k, names !! i = Some k /\ label_item0 c = Ok k)
    /\ labels AB
       = flat_map (fun t => map (renamed_label t.1) (labels t.2)) tables
    /\ (forall name a b,
          renamed_label name (Levels [a; b])
          = Name (strip (a +:+ "_" +:+ b) +:+ "_" +:+ name)
          /\ label_item0 (Levels [a; b]) = Ok a)
    /\ (forall df name T h1,
          h1 !! df = Some T ->
          strip_cols_append_name df name h1
          = (Ok df,
             <[df:={| index := index T;
                      columns := map (fun c => (renamed_label name c.1, c.2))
                                     (columns T) |}]> h1)).
Proof.
  intros Hrefs Hrun.
  destruct (concat_dfs_returns _ _ _ _ _ _ Hrefs Hrun)
    as (first & AB & Hfirst & Hnames & Hmerged & HAB).
  exists first, AB. apply mapM_Ok_Forall2 in Hnames.
  split; [done|]. split; [done|]. split; [|split; [|split; [|split]]].
  - intros i k Hk.
    destruct (Forall2_lookup_r _ _ _ _ _ Hnames Hk) as (c & Hc & Hck).
    exists c. by rewrite <- columns_1_3_lookup.
  - intros i c Hc. rewrite <- columns_1_3_lookup in Hc.
    destruct (Forall2_lookup_l _ _ _ _ _ Hnames Hc) as (k & Hk & Hck).
    by exists k.
  - by apply merged_labels.
  - intros name a b. split; [|done].
    reflexivity.
  - intros df name T h1 H1. by apply strip_cols_append_name_run.
Qed.

Lemma concat_dfs_names_and_columns_example :
  exists (first : string * DataFrame) (AB : DataFrame),
    head [("m0", raw_ABC); ("m1", raw_ABC)] = Some first
    /\ (concat_dfs [("m0", 0); ("m1", 0)] [raw_ABC]).2 !! 3 = Some AB
    /\ (forall i k, ["A"; "B"; "C"] !! i = Some k ->
          exists c, labels first.2 !! (1 + 3 * i) = Some c /\ label_item0 c = Ok k)
    /\ (forall i c, labels first.2 !! (1 + 3 * i) = Some c ->
          exists k, ["A"; "B"; "C"] !! i = Some k /\ label_item0 c = Ok k)
    /\ labels AB
       = flat_map (fun t => map (renamed_label t.1) (labels t.2))
                  [("m0", raw_ABC); ("m1", raw_ABC)]
    /\ (forall name a b,
          renamed_label name (Levels [a; b])
          = Name (strip (a +:+ "_" +:+ b) +:+ "_" +:+ name)
          /\ label_item0 (Levels [a; b]) = Ok a)
    /\ (forall df name T h1,
          h1 !! df = Some T ->
          strip_cols_append_name df name h1
          = (Ok df,
             <[df:={| index := index T;
                      columns := map (fun c => (renamed_label name c.1, c.2))
                                     (columns T) |}]> h1)).
Proof.
  apply (concat_dfs_names_and_columns [raw_ABC] [("m0", 0); ("m1", 0)]
           [("m0", raw_ABC); ("m1", raw_ABC)] 3 ["A"; "B"; "C"]).
  - repeat constructor.
  - reflexivity.
Defined.

(** *** The exceptions [concat_dfs] can raise *)

Lemma raises_only_ret {A : Type} (E : exn -> Prop) (a : A) (Q : A -> Prop) :
  Q a -> raises_only E (mret a) Q.
Proof. by intros HQ h. Qed.

Lemma raises_only_bind {A B : Type} (E : exn -> Prop) (m : M A)
    (f : A -> M B) (Q : A -> Prop) (R : B -> Prop) :
  raises_only E m Q -> (forall a, Q a -> raises_only E (f a) R) ->
  raises_only E (m ≫= f) R.
Proof.
  intros Hm Hf h. rewrite bind_run. specialize (Hm h).
  destruct (m h) as [[a|e] h1]; [|done]. by apply Hf.
Qed.

Lemma raises_only_lift {A : Type} (E : exn -> Prop) (r : result A) :
  (forall e, r = Raise e -> E e) -> raises_only E (lift r) (fun _ => True).
Proof. intros Hr h. unfold lift. cbn. destruct r; [done | by apply Hr]. Qed.

Lemma raises_only_load (E : exn -> Prop) (r : ref) :
  E NoSuchObject -> raises_only E (load r) (fun _ => True).
Proof. intros HE h. unfold load. by destruct (h !! r). Qed.

Lemma raises_only_alloc (E : exn -> Prop) (T : DataFrame) :
  raises_only E (alloc T) (fun _ => True).
Proof. by intros h. Qed.

Lemma raises_only_in_place (E : exn -> Prop) (r : ref)
    (f : DataFrame -> result DataFrame) :
  E NoSuchObject -> (forall T e, f T = Raise e -> E e) ->
  raises_only E (in_place r f) (fun _ => True).
Proof.
  intros HE Hf. unfold in_place.
  eapply raises_only_bind; [by apply raises_only_load|]. intros T _.
  eapply raises_only_bind; [apply raises_only_lift, Hf|]. intros T' _.
  by intros h.
Qed.

Lemma raises_only_for_each {A S : Type} (E : exn -> Prop) (xs : list A)
    (body : A -> S -> M S) (I : S -> Prop) (acc : S) :
  (forall x acc, I acc -> raises_only E (body x acc) I) ->
  I acc -> raises_only E (for_each xs body acc) I.
Proof.
  intros Hbody. revert acc. induction xs as [|x xs IH]; intros acc Hacc.
  - by apply raises_only_ret.
  - cbn [for_each]. eapply raises_only_bind; [by apply Hbody|]. apply IH.
Qed.

Lemma mapM_Raise {A B : Type} (f : A -> result B) (l : list A) (e : exn) :
  mapM f l = Raise e -> exists x, In x l /\ f x = Raise e.
Proof.
  induction l as [|x l IH]; [done|]. cbn.
  destruct (f x) as [y|e'] eqn:E; cbn.
  - destruct (mapM f l) as [ys|e'']; [done|]. intros [= ->].
    destruct IH as (x' & Hin & Hx'); [done|]. exists x'. split; [by right|done].
  - intros [= ->]. exists x. split; [by left|done].
Qed.

Lemma set_labels_Raise (ls : list label) (T : DataFrame) (e : exn) :
  set_labels ls T = Raise e -> e = ValueError.
Proof. unfold set_labels. destruct (Nat.eqb _ _); [done|]. by intros [= <-]. Qed.

Lemma raises_only_strip_cols_append_name (df : ref) (name : string) :
  raises_only (fun e => e <> UnboundLocalError)
    (strip_cols_append_name df name) (fun _ => True).
Proof.
  unfold strip_cols_append_name.
  eapply raises_only_bind; [by apply raises_only_load|]. intros T _.
  eapply raises_only_bind.
  { apply raises_only_in_place; [done|]. by intros T0 e ->%set_labels_Raise. }
  intros _ _.
  eapply raises_only_bind; [by apply raises_only_load|]. intros T1 _.
  eapply raises_only_bind.
  { apply raises_only_lift. intros e (c & _ & Hc)%mapM_Raise.
    destruct c; [done|]. by injection Hc as <-. }
  intros cols _.
  eapply raises_only_bind.
  { apply raises_only_in_place; [done|]. by intros T0 e ->%set_labels_Raise. }
  intros _ _. by apply raises_only_ret.
Qed.

Lemma raises_only_copy (E : exn -> Prop) (r : ref) :
  E NoSuchObject -> raises_only E (copy r) (fun _ => True).
Proof.
  intros HE. unfold copy.
  eapply raises_only_bind; [by apply raises_only_load|]. intros T _.
  apply raises_only_alloc.
Qed.

Lemma concat_axis1_Raise (A B : DataFrame) (e : exn) :
  concat_axis1 A B = Raise e -> e = InvalidIndexError.
Proof. unfold concat_axis1. repeat case_match; [done..|]. by intros [= <-]. Qed.

Lemma label_item0_Raise (c : label) (e : exn) :
  label_item0 c = Raise e -> e = IndexError.
Proof. destruct c as [[|a s]|[|a l]]; cbn; by intros [= <-]. Qed.

(** With a mapping that is not empty the two results are bound by the
    time they are read: whatever [concat_dfs] raises then, it is not
    the error of an unbound variable. *)
Lemma concat_dfs_binds_its_results (d : string * ref)
    (dframes : list (string * ref)) :
  raises_only (fun e => e <> UnboundLocalError) (concat_dfs (d :: dframes))
    (fun _ => True).
Proof.
  unfold concat_dfs.
  set (bound := fun vars => (0 < counter vars)%Z /\ is_Some (df_concat vars)
                            /\ is_Some (base_colnames vars)).
  eapply (raises_only_bind _ _ _ bound).
  - cbn [for_each]. destruct d as [model_name dframe].
    eapply (raises_only_bind _ _ _ bound).
    + cbn [counter Z.eqb].
      eapply raises_only_bind; [by apply raises_only_copy|]. intros r _.
      eapply raises_only_bind; [by apply raises_only_load|]. intros T _.
      eapply raises_only_bind.
      { apply raises_only_lift. intros e (c & _ & ->%label_item0_Raise)%mapM_Raise.
        done. }
      intros base _.
      eapply raises_only_bind; [apply raises_only_strip_cols_append_name|].
      intros r' _. apply raises_only_ret. unfold bound. cbn. repeat split; eauto; lia.
    + intros vars Hvars. apply raises_only_for_each; [|done].
      clear vars Hvars. intros [name r] vars (Hc & [rc Hrc] & Hbase).
      destruct (Z.eqb_spec (counter vars) 0) as [|_]; [lia|].
      eapply raises_only_bind; [by apply raises_only_copy|]. intros r1 _.
      eapply raises_only_bind; [apply raises_only_strip_cols_append_name|].
      intros r2 _. rewrite Hrc. cbn [read_local].
      eapply (raises_only_bind _ _ _ (fun _ => True)); [by apply raises_only_ret|]. intros rc' _.
      eapply raises_only_bind; [by apply raises_only_load|]. intros A _.
      eapply raises_only_bind; [by apply raises_only_load|]. intros B _.
      eapply raises_only_bind.
      { apply raises_only_lift. by intros e ->%concat_axis1_Raise. }
      intros AB _.
      eapply raises_only_bind; [apply raises_only_alloc|]. intros r3 _.
      apply raises_only_ret. unfold bound. cbn. repeat split; eauto; lia.
  - intros vars (_ & [rc ->] & [base ->]). cbn [read_local].
    eapply (raises_only_bind _ _ _ (fun _ => True)); [by apply raises_only_ret|]. intros rc' _.
    eapply (raises_only_bind _ _ _ (fun _ => True)); [by apply raises_only_ret|]. intros base' _.
    by apply raises_only_ret.
Qed.

(** C10.  Called with an empty mapping, [concat_dfs] runs its loop body
    not once, binds neither of its results, and raises the error of an
    unbound local variable; it returns no table and no list, and leaves
    the store as it is.  A mapping that is not empty never meets this
    error. *)
Theorem concat_dfs_empty_mapping (h : heap) :
  concat_dfs [] h = (Raise UnboundLocalError, h)
  /\ (forall d dframes,
        (concat_dfs (d :: dframes) h).1 <> Raise UnboundLocalError).
Proof.
  split; [reflexivity|]. intros d dframes.
  pose proof (concat_dfs_binds_its_results d dframes h) as H.
  destruct (concat_dfs (d :: dframes) h).1 as [res|e]; [done|]. congruence.
Qed.

(** ** Errors per keypoint *)

Lemma in_place_run (h : heap) (r : ref) (T : DataFrame)
    (f : DataFrame -> result DataFrame) :
  h !! r = Some T ->
  in_place r f h
  = match f T with
    | Ok T' => (Ok (), <[r:=T']> h)
    | Raise e => (Raise e, h)
    end.
Proof.
  intros H. unfold in_place. rewrite bind_run, (load_run _ _ T) by done.
  rewrite bind_run. unfold lift. by destruct (f T).
Qed.

Lemma get_precomputed_error_returns (h : heap) (df : ref)
    (keypoint_names : list string) (model_name : string) (T : DataFrame)
    (r : ref) (h' : heap) :
  h !! df = Some T ->
  get_precomputed_error df keypoint_names model_name h = (Ok r, h') ->
  exists T',
    precomputed_error_table keypoint_names model_name T = Ok T'
    /\ r = df /\ h' = <[df:=T']> h.
Proof.
  intros HT Hrun. unfold get_precomputed_error in Hrun.
  assert (Hlt : df < length h) by (by eapply lookup_lt_Some).
  rewrite bind_run, (in_place_run _ _ T) in Hrun by done.
  set (T1 := setitem_scalar "model_name" (Str model_name) T) in *.
  rewrite bind_run, (load_run _ _ T1) in Hrun by (by apply list_lookup_insert_eq).
  rewrite bind_run in Hrun. unfold lift at 1 in Hrun.
  unfold precomputed_error_table. fold T1.
  destruct (mean_without_last keypoint_names T1) as [mean|e]; [|done].
  cbn [mbind result_bind].
  rewrite bind_run, (in_place_run _ _ T1) in Hrun by (by apply list_lookup_insert_eq).
  destruct (setitem_series "mean" mean T1) as [T2|e]; [|done].
  cbn [mbind result_bind]. rewrite list_insert_insert_eq in Hrun.
  rewrite bind_run, (load_run _ _ T2) in Hrun by (by apply list_lookup_insert_eq).
  rewrite bind_run in Hrun. unfold lift in Hrun.
  destruct (item (labels T2) 0) as [first|e]; [|done].
  cbn [mbind result_bind].
  rewrite bind_run, (in_place_run _ _ T2) in Hrun by (by apply list_lookup_insert_eq).
  rewrite list_insert_insert_eq, ret_run in Hrun. injection Hrun as <- <-.
  eexists. split; [reflexivity|]. done.
Qed.

Lemma has_label_true (l : label) (c : label * list cell) :
  has_label l c = true <-> c.1 = l.
Proof. unfold has_label. apply bool_decide_eq_true. Qed.

Lemma has_label_false (l : label) (c : label * list cell) :
  has_label l c = false <-> c.1 <> l.
Proof. unfold has_label. apply bool_decide_eq_false. Qed.

(** *** Flat axes and headers of several levels *)

Lemma has_key_spec (cols : list (label * list cell)) (key : string)
    (c : label * list cell) :
  has_key cols key c = bool_decide (key_of (multi_level cols) c.1 = Some key).
Proof.
  unfold has_key, has_level0, has_label, key_of.
  destruct (multi_level cols), c as [[s|[|a parts]] v]; cbn [fst];
    first [ apply bool_decide_ext; split; congruence
          | symmetry; apply bool_decide_eq_false; congruence ].
Qed.

Lemma has_key_true (cols : list (label * list cell)) (key : string)
    (c : label * list cell) :
  has_key cols key c = true <-> key_of (multi_level cols) c.1 = Some key.
Proof. rewrite has_key_spec. apply bool_decide_eq_true. Qed.

Lemma has_key_false (cols : list (label * list cell)) (key : string)
    (c : label * list cell) :
  has_key cols key c = false <-> key_of (multi_level cols) c.1 <> Some key.
Proof. rewrite has_key_spec. apply bool_decide_eq_false. Qed.

(** The kind of an axis is a matter of its labels. *)
Lemma multi_level_labels (cols cols' : list (label * list cell)) :
  map fst cols = map fst cols' -> multi_level cols = multi_level cols'.
Proof.
  intros H. unfold multi_level.
  assert (forallb is_tuple cols = forallb is_tuple cols') as E.
  { revert cols' H. induction cols as [|c cols IH]; intros [|c' cols'] H;
      try done.
    injection H as Hc H. cbn [forallb]. rewrite (IH cols' H).
    unfold is_tuple. by rewrite Hc. }
  destruct cols, cols'; done.
Qed.

Lemma has_key_kind (cols cols' : list (label * list cell)) :
  multi_level cols = multi_level cols' -> has_key cols = has_key cols'.
Proof. intros H. unfold has_key. by rewrite H. Qed.

Lemma has_key_flat (cols : list (label * list cell)) (key : string) :
  multi_level cols = false -> has_key cols key = has_label (Name key).
Proof. intros H. unfold has_key. by rewrite H. Qed.

Lemma multi_level_tuples (cols : list (label * list cell))
    (c : label * list cell) :
  multi_level cols = true -> In c cols -> is_tuple c = true.
Proof.
  unfold multi_level. destruct cols as [|c0 cs]; [done|].
  rewrite forallb_forall. intros H Hc. by apply H.
Qed.

(** A name among the labels makes the axis a flat one. *)
Lemma flat_of_name (cols : list (label * list cell)) (s : string) :
  In (Name s) (map fst cols) -> multi_level cols = false.
Proof.
  intros ([l v] & Hl & Hin)%in_map_iff. cbn in Hl. subst l.
  destruct (multi_level cols) eqn:E; [|done].
  by apply (multi_level_tuples _ _ E) in Hin.
Qed.

Lemma put_item_flat (key : string) (vals : list cell)
    (cols : list (label * list cell)) :
  multi_level cols = false ->
  put_item key vals cols = put_column (Name key) vals cols.
Proof. intros H. unfold put_item, put_column, has_key, new_label. by rewrite H. Qed.

Lemma key_of_new_label (cols : list (label * list cell)) (key : string) :
  key_of (multi_level cols) (new_label cols key) = Some key.
Proof. unfold new_label, key_of. by destruct (multi_level cols). Qed.

Lemma put_item_labels (key : string) (vals : list cell)
    (cols : list (label * list cell)) :
  map fst (put_item key vals cols)
  = if existsb (has_key cols key) cols then map fst cols
    else map fst cols ++ [new_label cols key].
Proof.
  unfold put_item. destruct (existsb (has_key cols key) cols).
  - rewrite map_map. apply map_ext. intros c. by destruct (has_key cols key c).
  - by rewrite map_app.
Qed.

(** An assignment keeps the kind of the axis. *)
Lemma multi_level_put_item (key : string) (vals : list cell)
    (cols : list (label * list cell)) :
  multi_level (put_item key vals cols) = multi_level cols.
Proof.
  destruct (existsb (has_key cols key) cols) eqn:E.
  - apply multi_level_labels. by rewrite put_item_labels, E.
  - unfold put_item. rewrite E. unfold new_label.
    destruct (multi_level cols) eqn:Em.
    + unfold multi_level in *. destruct cols as [|c cs]; [done|].
      cbn [app]. change (c :: cs ++ ?l) with ((c :: cs) ++ l).
      rewrite forallb_app. rewrite Em. done.
    + unfold multi_level in *. destruct cols as [|c cs]; [done|].
      cbn [app]. change (c :: cs ++ ?l) with ((c :: cs) ++ l).
      rewrite forallb_app. rewrite Em. done.
Qed.

Lemma has_key_put_item (key : string) (vals : list cell)
    (cols : list (label * list cell)) :
  has_key (put_item key vals cols) = has_key cols.
Proof. apply has_key_kind, multi_level_put_item. Qed.

(** The columns of another key are as they were. *)
Lemma put_item_other (key k : string) (vals : list cell)
    (cols : list (label * list cell)) :
  k <> key ->
  filter (has_key cols k) (put_item key vals cols) = filter (has_key cols k) cols.
Proof.
  intros Hk. unfold put_item. destruct (existsb (has_key cols key) cols).
  - assert (forall l,
              filter (has_key cols k)
                (map (fun c => if has_key cols key c then (c.1, vals) else c) l)
              = filter (has_key cols k) l) as H; [|apply H].
    induction l as [|c cs IH]; [done|].
    cbn [map]. rewrite !filter_bool_cons, IH.
    destruct (has_key cols key c) eqn:E; [|done].
    apply has_key_true in E.
    assert (has_key cols k c = false) as Hc
      by (apply has_key_false; congruence).
    assert (has_key cols k (c.1, vals) = false) as ->
      by (apply has_key_false; cbn [fst]; congruence).
    by rewrite Hc.
  - rewrite filter_bool_app, (filter_bool_cons _ (new_label cols key, vals)).
    assert (has_key cols k (new_label cols key, vals) = false) as ->.
    { apply has_key_false. cbn [fst]. rewrite key_of_new_label. congruence. }
    by rewrite app_nil_r.
Qed.

(** The columns of the key hold the values, and there is one at
    least. *)
Lemma put_item_values (key : string) (vals : list cell)
    (cols : list (label * list cell)) (c : label * list cell) :
  In c (put_item key vals cols) -> has_key cols key c = true -> c.2 = vals.
Proof.
  unfold put_item. destruct (existsb (has_key cols key) cols) eqn:E.
  - intros (c0 & Hc & Hin)%in_map_iff Hkey.
    destruct (has_key cols key c0) eqn:E0; [by subst c|]. subst c0. congruence.
  - intros [Hin|[<-|[]]]%in_app_iff Hkey; [|done].
    exfalso. apply not_true_iff_false in E. apply E.
    apply existsb_exists. by exists c.
Qed.

Lemma put_item_has_key (key : string) (vals : list cell)
    (cols : list (label * list cell)) :
  exists c, In c (put_item key vals cols) /\ has_key cols key c = true.
Proof.
  unfold put_item. destruct (existsb (has_key cols key) cols) eqn:E.
  - apply existsb_exists in E as (c & Hc & Hkey). exists (c.1, vals). split.
    + apply in_map_iff. exists c. by rewrite Hkey.
    + rewrite has_key_spec in Hkey |- *. done.
  - exists (new_label cols key, vals). split.
    + apply in_app_iff. right. by left.
    + apply has_key_true. cbn [fst]. apply key_of_new_label.
Qed.

(** The other columns are as they were. *)
Lemma put_item_in_other (key : string) (vals : list cell)
    (cols : list (label * list cell)) (c : label * list cell) :
  has_key cols key c = false ->
  In c (put_item key vals cols) <-> In c cols.
Proof.
  intros Hc. unfold put_item. destruct (existsb (has_key cols key) cols).
  - rewrite in_map_iff. split.
    + intros (c0 & E & Hin). destruct (has_key cols key c0) eqn:E0; [|by subst c0].
      subst c. rewrite has_key_spec in Hc, E0. cbn [fst] in Hc. congruence.
    + intros Hin. exists c. by rewrite Hc.
  - rewrite in_app_iff. split; [|by left].
    intros [H|[<-|[]]]; [done|].
    apply has_key_false in Hc. cbn [fst] in Hc. by rewrite key_of_new_label in Hc.
Qed.

Lemma has_key_name (cols : list (label * list cell)) (key k : string)
    (v : list cell) :
  k <> key -> has_key cols key (Name k, v) = false.
Proof.
  intros Hk. apply has_key_false. cbn [fst key_of].
  destruct (multi_level cols); congruence.
Qed.

Lemma put_item_in_other_name (key k : string) (vals col : list cell)
    (cols : list (label * list cell)) :
  k <> key ->
  In (Name k, col) (put_item key vals cols) <-> In (Name k, col) cols.
Proof. intros Hk. by apply put_item_in_other, has_key_name. Qed.

Lemma not_name_of_multi (cols : list (label * list cell)) (s : string)
    (v : list cell) :
  multi_level cols = true -> ~ In (Name s, v) cols.
Proof. intros E Hin. by apply (multi_level_tuples _ _ E) in Hin. Qed.

Lemma put_item_values_name (key : string) (vals col : list cell)
    (cols : list (label * list cell)) :
  In (Name key, col) (put_item key vals cols) -> col = vals.
Proof.
  intros Hin. destruct (multi_level cols) eqn:E.
  - exfalso. rewrite <- (multi_level_put_item key vals) in E.
    by apply (not_name_of_multi _ _ _ E) in Hin.
  - apply (put_item_values _ _ _ _ Hin).
    rewrite has_key_flat by done. by apply bool_decide_eq_true.
Qed.

Lemma put_item_head (key : string) (vals : list cell)
    (cols : list (label * list cell)) (first : label) :
  head (map fst cols) = Some first ->
  head (map fst (put_item key vals cols)) = Some first.
Proof.
  intros H. rewrite put_item_labels.
  destruct (existsb (has_key cols key) cols); [done|]. by destruct cols.
Qed.

Lemma put_column_labels (key : label) (vals : list cell)
    (cols : list (label * list cell)) :
  map fst (put_column key vals cols)
  = if existsb (has_label key) cols then map fst cols else map fst cols ++ [key].
Proof.
  unfold put_column. destruct (existsb (has_label key) cols).
  - rewrite map_map. apply map_ext. intros c. by destruct (has_label key c).
  - by rewrite map_app.
Qed.

Lemma put_column_has_key (key : label) (vals : list cell)
    (cols : list (label * list cell)) :
  In key (map fst (put_column key vals cols)).
Proof.
  rewrite put_column_labels. destruct (existsb (has_label key) cols) eqn:E.
  - apply existsb_exists in E as (c & Hc & Hl). apply has_label_true in Hl.
    apply in_map_iff. by exists c.
  - apply in_app_iff. right. by left.
Qed.

Lemma put_column_values (key : label) (vals col : list cell)
    (cols : list (label * list cell)) :
  In (key, col) (put_column key vals cols) -> col = vals.
Proof.
  unfold put_column. destruct (existsb (has_label key) cols) eqn:E.
  - intros ((l & v) & Hc & Hin)%in_map_iff.
    destruct (has_label key (l, v)) eqn:El; [by injection Hc|].
    injection Hc as -> ->. apply has_label_false in El. done.
  - intros [Hin|[[= <-]|[]]]%in_app_iff; [|done].
    exfalso. apply not_true_iff_false in E. apply E.
    apply existsb_exists. exists (key, col). split; [done|].
    by apply has_label_true.
Qed.

(** On a flat axis the key is the label. *)
Lemma put_item_has_name (key : string) (vals : list cell)
    (cols : list (label * list cell)) :
  multi_level cols = false -> In (Name key) (map fst (put_item key vals cols)).
Proof. intros H. rewrite put_item_flat by done. apply put_column_has_key. Qed.

Lemma put_item_labels_present (key : string) (vals : list cell)
    (cols : list (label * list cell)) :
  In (Name key) (map fst cols) -> map fst (put_item key vals cols) = map fst cols.
Proof.
  intros H. pose proof (flat_of_name _ _ H) as Hf.
  rewrite put_item_labels, has_key_flat by done.
  apply in_map_iff in H as (c & Hc & Hin).
  replace (existsb (has_label (Name key)) cols) with true; [done|].
  symmetry. apply existsb_exists. exists c. split; [done|].
  by apply has_label_true.
Qed.

Lemma put_item_labels_absent (key : string) (vals : list cell)
    (cols : list (label * list cell)) :
  multi_level cols = false -> ~ In (Name key) (map fst cols) ->
  map fst (put_item key vals cols) = map fst cols ++ [Name key].
Proof.
  intros Hf H. rewrite put_item_labels, has_key_flat by done.
  unfold new_label. rewrite Hf.
  destruct (existsb (has_label (Name key)) cols) eqn:E; [|done].
  apply existsb_exists in E as (c & Hc & Hl). apply has_label_true in Hl.
  destruct H. apply in_map_iff. by exists c.
Qed.

Lemma put_item_absent (key : string) (vals : list cell)
    (cols : list (label * list cell)) :
  multi_level cols = false -> ~ In (Name key) (map fst cols) ->
  put_item key vals cols = cols ++ [(Name key, vals)].
Proof.
  intros Hf H. unfold put_item. rewrite has_key_flat by done.
  unfold new_label. rewrite Hf.
  destruct (existsb (has_label (Name key)) cols) eqn:E; [|done].
  apply existsb_exists in E as (c & Hc & Hl). apply has_label_true in Hl.
  destruct H. apply in_map_iff. by exists c.
Qed.

Lemma put_item_in_key (key : string) (vals : list cell)
    (cols : list (label * list cell)) :
  multi_level cols = false -> In (Name key, vals) (put_item key vals cols).
Proof.
  intros Hf. destruct (put_item_has_key key vals cols) as (c & Hc & Hkey).
  rewrite has_key_flat in Hkey by done. apply has_label_true in Hkey.
  pose proof (put_item_values _ _ _ _ Hc) as Hv.
  rewrite has_key_flat in Hv by done.
  destruct c as [l v]. cbn [fst snd] in *. subst l.
  assert (v = vals) as -> by (apply Hv; by apply has_label_true). done.
Qed.

Lemma select_columns_cells (keys : list string) (cols sel : list (label * list cell))
    (i : nat) :
  select_columns keys cols = Ok sel ->
  cells_at i sel
  = flat_map (fun k => cells_at i (filter (has_key cols k) cols)) keys.
Proof.
  revert sel. induction keys as [|k keys IH]; intros sel H;
    cbn [select_columns] in H.
  - by injection H as <-.
  - destruct (filter (has_key cols k) cols) as [|c cs] eqn:E; [done|].
    destruct (select_columns keys cols) as [rest|e]; [|done].
    cbn in H. injection H as <-. cbn [flat_map]. rewrite E.
    rewrite <- (IH rest eq_refl). unfold cells_at.
    by rewrite <- map_app.
Qed.

Lemma flat_map_ext_In {A B : Type} (f g : A -> list B) (l : list A) :
  (forall a, In a l -> f a = g a) -> flat_map f l = flat_map g l.
Proof.
  induction l as [|x l IH]; intros H; [done|]. cbn.
  rewrite (H x) by (by left). f_equal. apply IH. intros a Ha. apply H. by right.
Qed.

Lemma numbers_Str (cs : list cell) (s : string) :
  In (Str s) cs -> numbers cs = Raise TypeError.
Proof.
  induction cs as [|c cs IH]; [done|]. intros [->|H]; [done|].
  destruct c; cbn; [|by apply IH|done]. by rewrite IH.
Qed.

Lemma mapM_seq_lookup {B : Type} (f : nat -> result B) (n : nat) (ys : list B) :
  mapM f (seq 0 n) = Ok ys ->
  length ys = n /\ forall i, i < n -> exists y, ys !! i = Some y /\ f i = Ok y.
Proof.
  intros H%mapM_Ok_Forall2. split.
  - apply Forall2_length in H. by rewrite length_seq in H.
  - intros i Hi.
    assert (Hs : seq 0 n !! i = Some i) by (by apply lookup_seq).
    destruct (Forall2_lookup_l _ _ _ _ _ H Hs) as (y & Hy & Hf). by exists y.
Qed.

Lemma numbers_present (cs : list cell) (qs : list Q) :
  numbers cs = Ok qs -> qs = present cs.
Proof.
  revert qs. induction cs as [|[q| |s] cs IH]; intros qs; cbn [numbers].
  - by intros [= <-].
  - destruct (numbers cs) as [qs'|]; [|done]. intros [= <-].
    change (present (Num q :: cs)) with (q :: present cs).
    by rewrite <- (IH qs').
  - intros H. by apply IH.
  - done.
Qed.

Lemma numbers_numeric (cs : list cell) :
  Forall (fun c => numeric c = true) cs -> numbers cs = Ok (present cs).
Proof.
  induction 1 as [|[q| |s] cs Hc _ IH]; [done| | |done].
  - cbn [numbers]. rewrite IH. done.
  - done.
Qed.

(** The mean of a row, when it can be taken, is the arithmetic mean of
    the numbers in it; it can be taken when no cell is a string. *)
Lemma row_mean_Ok (cs : list cell) (m : cell) :
  row_mean cs = Ok m -> m = mean_of cs.
Proof.
  unfold row_mean, mean_of. destruct (numbers cs) as [qs|] eqn:E; [|done].
  apply numbers_present in E. subst qs.
  cbn [mbind result_bind]. intros [= <-]. by destruct (present cs).
Qed.

Lemma row_mean_numeric (cs : list cell) :
  Forall (fun c => numeric c = true) cs -> row_mean cs = Ok (mean_of cs).
Proof.
  intros H. unfold row_mean, mean_of. rewrite (numbers_numeric _ H).
  cbn [mbind result_bind]. by destruct (present cs).
Qed.

Lemma rename_levels_tuple (parts : list string) (new : string) (l : label) :
  rename_levels (Levels parts) new l = l.
Proof.
  destruct l as [s|ps]; [done|]. cbn [rename_levels]. f_equal.
  rewrite <- (map_id ps) at 2. apply map_ext. intros p.
  by rewrite bool_decide_false.
Qed.

(** On a header of several levels the renaming of the first column
    renames nothing. *)
Lemma rename_column_multi (first : label) (new : string) (T : DataFrame) :
  multi_level (columns T) = true -> head (labels T) = Some first ->
  rename_column first new T = T.
Proof.
  intros Hm Hfirst. unfold rename_column. rewrite Hm.
  assert (exists parts, first = Levels parts) as [parts ->].
  { unfold labels in Hfirst. destruct (columns T) as [|[l v] cs] eqn:E; [done|].
    injection Hfirst as <-.
    pose proof (multi_level_tuples _ (l, v) Hm (or_introl eq_refl)) as Ht.
    destruct l; [done|]. by eexists. }
  destruct T as [idx cols]. cbn [index columns]. f_equal.
  rewrite <- (map_id cols) at 2. apply map_ext. intros [l v].
  by rewrite rename_levels_tuple.
Qed.

Lemma rename_column_flat (first : label) (new : string) (T : DataFrame) :
  multi_level (columns T) = false ->
  columns (rename_column first new T)
  = map (fun c => if has_label first c then (Name new, c.2) else c) (columns T).
Proof. intros Hm. unfold rename_column. cbn [columns]. by rewrite Hm. Qed.

(** A renaming keeps the kind of the axis. *)
Lemma multi_level_rename (first : label) (new : string) (T : DataFrame) :
  head (labels T) = Some first ->
  multi_level (columns (rename_column first new T)) = multi_level (columns T).
Proof.
  intros Hfirst. destruct (multi_level (columns T)) eqn:Hm.
  - by rewrite rename_column_multi.
  - rewrite rename_column_flat by done.
    destruct (columns T) as [|c0 cs] eqn:E; [done|].
    unfold multi_level in Hm. apply not_true_iff_false in Hm.
    apply not_true_iff_false. intros Hall. apply Hm.
    unfold multi_level in Hall. cbn [map] in Hall.
    rewrite forallb_forall in Hall. apply forallb_forall. intros c Hc.
    specialize (Hall (if has_label first c then (Name new, c.2) else c)).
    destruct (has_label first c) eqn:Ec.
    + assert (is_tuple (Name new, c.2) = true); [|done].
      apply Hall. change (?a :: map ?f cs) with (map f (c0 :: cs)).
      apply in_map_iff. exists c. by rewrite Ec.
    + apply Hall. change (?a :: map ?f cs) with (map f (c0 :: cs)).
      apply in_map_iff. exists c. by rewrite Ec.
Qed.

Lemma setitem_series_own_index (key : string) (s : Series) (T : DataFrame) :
  s_index s = index T ->
  setitem_series key s T
  = Ok {| index := index T;
          columns := put_item key (s_values s) (columns T) |}.
Proof.
  intros H. unfold setitem_series, ensure_valid_index, nrows. rewrite H.
  destruct (length (index T)) eqn:E; cbn [Nat.eqb andb negb];
    by rewrite bool_decide_true.
Qed.

Lemma mean_without_last_spec (keypoint_names : list string) (T : DataFrame)
    (mean : Series) :
  mean_without_last keypoint_names T = Ok mean ->
  s_index mean = index T
  /\ length (s_values mean) = nrows T
  /\ (forall i, i < nrows T ->
        exists m,
          s_values mean !! i = Some m
          /\ row_mean (keypoint_cells (removelast keypoint_names) T i) = Ok m).
Proof.
  unfold mean_without_last, mean_axis1.
  destruct (select_columns _ _) as [sel|e] eqn:Hsel; [|done].
  cbn [mbind result_bind].
  destruct (mapM _ _) as [vals|e] eqn:Hvals; [|done].
  intros [= <-]. cbn [s_index s_values].
  destruct (mapM_seq_lookup _ _ _ Hvals) as [Hlen Hrow].
  split; [done|]. split; [done|]. intros i Hi.
  destruct (Hrow i Hi) as (m & Hm & Hmean). exists m. split; [done|].
  by rewrite (select_columns_cells _ _ _ i Hsel) in Hmean.
Qed.

(** The columns a key stands for after an assignment to another
    key. *)
Lemma columns_of_put_other (key k : string) (vals : list cell)
    (T T' : DataFrame) :
  k <> key ->
  columns T' = put_item key vals (columns T) ->
  columns_of k T' = columns_of k T.
Proof.
  intros Hk HT'. unfold columns_of.
  by rewrite HT', has_key_put_item, put_item_other.
Qed.

Lemma keypoint_cells_put_other (keys : list string) (key : string)
    (vals : list cell) (T T' : DataFrame) (i : nat) :
  ~ In key keys ->
  columns T' = put_item key vals (columns T) ->
  keypoint_cells keys T' i = keypoint_cells keys T i.
Proof.
  intros Hk HT'. unfold keypoint_cells. apply flat_map_ext_In. intros k Hin.
  rewrite (columns_of_put_other key k vals T T'); [done| |done].
  intros ->. done.
Qed.

(** What [get_precomputed_error] makes of a table, step by step. *)
Lemma precomputed_error_table_steps (keypoint_names : list string)
    (model_name : string) (T T' : DataFrame) :
  precomputed_error_table keypoint_names model_name T = Ok T' ->
  let T1 := setitem_scalar "model_name" (Str model_name) T in
  exists mean first,
    mean_without_last keypoint_names T1 = Ok mean
    /\ let T2 := {| index := index T;
                    columns := put_item "mean" (s_values mean) (columns T1) |} in
       head (labels T2) = Some first
       /\ T' = rename_column first "img_file" T2.
Proof.
  intros Hrun T1. unfold precomputed_error_table in Hrun. fold T1 in Hrun.
  destruct (mean_without_last keypoint_names T1) as [mean|e] eqn:Hmean; [|done].
  cbn [mbind result_bind] in Hrun.
  destruct (mean_without_last_spec _ _ _ Hmean) as (Hidx & _ & _).
  rewrite (setitem_series_own_index _ _ _ Hidx) in Hrun.
  cbn [mbind result_bind] in Hrun. unfold item in Hrun.
  rewrite <- head_lookup in Hrun.
  exists mean. change (index T1) with (index T) in Hrun.
  destruct (head _) as [first|] eqn:Hfirst; [|done].
  exists first. split; [done|]. cbn zeta. split; [done|].
  by injection Hrun as <-.
Qed.

(** The first label of a table, when it has one, is still the first
    after the two assignments. *)
Lemma precomputed_error_first (model_name : string) (vals : list cell)
    (T : DataFrame) (first : label) :
  head (map fst (put_item "mean" vals
                   (columns (setitem_scalar "model_name" (Str model_name) T))))
  = Some first ->
  head (labels T) = Some first
  \/ (columns T = [] /\ first = Name "model_name").
Proof.
  unfold labels. destruct (columns T) as [|c cs] eqn:E.
  - intros H. right. split; [done|].
    unfold setitem_scalar in H. cbn [columns] in H. rewrite E in H.
    cbn in H. by injection H as <-.
  - intros H. left. rewrite <- H. symmetry.
    apply put_item_head. unfold setitem_scalar. cbn [columns].
    apply put_item_head. by rewrite E.
Qed.

(** The mean column of the table [get_precomputed_error] makes. *)
Lemma precomputed_error_table_mean (keypoint_names : list string)
    (model_name : string) (T T' : DataFrame) :
  precomputed_error_table keypoint_names model_name T = Ok T' ->
  index T' = index T
  /\ multi_level (columns T') = multi_level (columns T)
  /\ (head (labels T) <> Some (Name "mean") -> columns_of "mean" T' <> [])
  /\ (forall c i,
        In c (columns_of "mean" T') -> i < nrows T ->
        exists m,
          c.2 !! i = Some m
          /\ row_mean (keypoint_cells (removelast keypoint_names) T i) = Ok m).
Proof.
  intros Hrun.
  destruct (precomputed_error_table_steps _ _ _ _ Hrun)
    as (mean & first & Hmean & Hfirst & ->).
  set (T1 := setitem_scalar "model_name" (Str model_name) T) in *.
  set (T2 := {| index := index T; columns := _ |}) in *.
  destruct (mean_without_last_spec _ _ _ Hmean) as (Hidx & Hlen & Hrows).
  assert (Hkind1 : multi_level (columns T1) = multi_level (columns T))
    by apply multi_level_put_item.
  assert (Hkind2 : multi_level (columns T2) = multi_level (columns T)).
  { unfold T2. cbn [columns]. by rewrite multi_level_put_item. }
  assert (Hkind : multi_level (columns (rename_column first "img_file" T2))
                  = multi_level (columns T)).
  { by rewrite multi_level_rename. }
  (* the columns of the mean are those of [T2], but for a first column
     of that name *)
  assert (Hsub : forall c, In c (columns_of "mean" (rename_column first "img_file" T2)) ->
            In c (columns T2) /\ has_key (columns T2) "mean" c = true).
  { intros c [Hkey Hc]%list_elem_of_In%list_elem_of_filter.
    apply Is_true_true in Hkey. apply list_elem_of_In in Hc.
    rewrite (has_key_kind _ (columns T2)) in Hkey by (by rewrite Hkind, Hkind2).
    destruct (multi_level (columns T2)) eqn:Hm.
    - by rewrite rename_column_multi in Hc.
    - rewrite rename_column_flat in Hc by done.
      apply in_map_iff in Hc as (c0 & Hc0 & Hin).
      destruct (has_label first c0); [|by subst c0].
      subst c. rewrite has_key_flat in Hkey by done.
      by apply bool_decide_eq_true in Hkey. }
  split; [done|]. split; [done|]. split.
  - intros Hhead.
    destruct (put_item_has_key "mean" (s_values mean) (columns T1))
      as (c & Hc & Hkey).
    rewrite (has_key_kind _ (columns T2)) in Hkey by (by rewrite Hkind1, Hkind2).
    assert (In c (columns_of "mean" (rename_column first "img_file" T2))) as Hin;
      [|intros E; by rewrite E in Hin].
    apply list_elem_of_In, list_elem_of_filter. split.
    + apply Is_true_true.
      by rewrite (has_key_kind _ (columns T2)) by (by rewrite Hkind, Hkind2).
    + apply list_elem_of_In.
      destruct (multi_level (columns T2)) eqn:Hm.
      * by rewrite rename_column_multi.
      * rewrite rename_column_flat by done. apply in_map_iff. exists c.
        split; [|done].
        rewrite has_key_flat in Hkey by done. apply has_label_true in Hkey.
        rewrite (proj2 (has_label_false first c)); [done|].
        rewrite Hkey. intros E.
        destruct (precomputed_error_first _ _ _ _ Hfirst) as [H|[_ H]];
          congruence.
  - intros c i Hc Hi. apply Hsub in Hc as [Hc Hkey].
    rewrite (has_key_kind _ (columns T1)) in Hkey by (by rewrite Hkind1, Hkind2).
    apply put_item_values in Hc; [|done]. rewrite Hc.
    destruct (Hrows i Hi) as (m & Hm & Hmeani). exists m. split; [done|].
    destruct (in_dec string_dec "model_name" (removelast keypoint_names))
      as [Hk|Hk].
    + exfalso. unfold row_mean in Hmeani.
      rewrite (numbers_Str _ model_name) in Hmeani; [done|].
      apply in_flat_map. exists "model_name". split; [done|].
      destruct (put_item_has_key "model_name" (repeat (Str model_name) (nrows T))
                  (columns T)) as (c0 & Hc0 & Hkey0).
      apply in_map_iff. exists c0. split.
      * rewrite (put_item_values _ _ _ _ Hc0 Hkey0). by apply nth_repeat_lt.
      * apply list_elem_of_In, list_elem_of_filter. split.
        -- apply Is_true_true. unfold T1, setitem_scalar. cbn [columns].
           by rewrite has_key_put_item.
        -- by apply list_elem_of_In.
    + rewrite <- Hmeani. f_equal. symmetry.
      by apply (keypoint_cells_put_other _ "model_name"
                  (repeat (Str model_name) (nrows T))).
Qed.

(** ** Confidence per keypoint *)

Lemma fill_keypoints_run (h : heap) (keypoints : nat)
    (results : list (list cell)) (todo : list (nat * string)) :
  forall (X : DataFrame) (h' : heap),
    for_each todo
      (fun '(c, col) (_ : unit) =>
         values ← lift (array_column keypoints c results);
         in_place (length h) (setitem_values col values))
      () (h ++ [X])
    = (Ok (), h') ->
    exists X',
      fill_keypoints keypoints results todo X = Ok X' /\ h' = h ++ [X'].
Proof.
  unfold fill_keypoints.
  induction todo as [|[c col] todo IH]; intros X h' Hrun.
  - cbn in Hrun. injection Hrun as <-. by exists X.
  - cbn [for_each] in Hrun |- *. rewrite bind_run, bind_run in Hrun.
    unfold lift in Hrun.
    destruct (array_column keypoints c results) as [values|e]; [|done].
    cbn [mbind result_bind]. rewrite in_place_last in Hrun.
    destruct (setitem_values col values X) as [X1|e]; [|done].
    by apply IH.
Qed.

Lemma compute_confidence_returns (h : heap) (df : ref)
    (keypoint_names : list string) (model_name : string) (T : DataFrame)
    (r : ref) (h' : heap) :
  h !! df = Some T ->
  compute_confidence df keypoint_names model_name h = (Ok r, h') ->
  exists T',
    confidence_table keypoint_names model_name T = Ok T'
    /\ r = length h /\ h' = h ++ [T'].
Proof.
  intros HT Hrun. unfold compute_confidence in Hrun.
  unfold confidence_table, third_slots_and_set.
  rewrite bind_run, (load_run _ _ T) in Hrun by done.
  rewrite bind_run in Hrun.
  destruct (Nat.eqb (ncols T mod 3) 1).
  - rewrite bind_run in Hrun. unfold lift at 1 in Hrun.
    destruct (reshape_3 _ _ _) as [tmp|e]; [|done].
    rewrite bind_run in Hrun. unfold lift at 1 in Hrun.
    destruct (last_column T) as [set_|e]; [|done].
    rewrite ret_run in Hrun. cbn [mbind result_bind mret result_ret].
    rewrite bind_run in Hrun. unfold alloc at 1 in Hrun.
    rewrite bind_run in Hrun.
    match type of Hrun with
    | context [for_each ?l ?body () ?hk] =>
        destruct (for_each l body () hk) as [[[]|e] h1] eqn:Hloop; [|done]
    end.
    apply fill_keypoints_run in Hloop as (T0 & -> & ->).
    cbn [mbind result_bind].
    rewrite bind_run, in_place_last in Hrun.
    rewrite bind_run, (load_run _ _ _ (lookup_last _ _)) in Hrun.
    rewrite bind_run in Hrun. unfold lift at 1 in Hrun.
    destruct (mean_without_last _ _) as [mean|e]; [|done].
    cbn [mbind result_bind].
    rewrite bind_run, in_place_last in Hrun.
    destruct (setitem_series "mean" mean _) as [T2|e]; [|done].
    cbn [mbind result_bind].
    rewrite bind_run, bind_run, in_place_last in Hrun.
    destruct (setitem_values "set" set_ T2) as [T3|e]; [|done].
    cbn [mbind result_bind].
    rewrite bind_run, (load_run _ _ T) in Hrun by (by apply lookup_app_l_Some).
    rewrite in_place_last in Hrun.
    destruct (setitem_values "img_file" _ T3) as [T4|e]; [|done].
    rewrite ret_run in Hrun. injection Hrun as <- <-. by exists T4.
  - rewrite bind_run in Hrun. unfold lift at 1 in Hrun.
    destruct (reshape_3 _ _ _) as [tmp|e]; [|done].
    rewrite ret_run in Hrun. cbn [mbind result_bind mret result_ret].
    rewrite bind_run in Hrun. unfold alloc at 1 in Hrun.
    rewrite bind_run in Hrun.
    match type of Hrun with
    | context [for_each ?l ?body () ?hk] =>
        destruct (for_each l body () hk) as [[[]|e] h1] eqn:Hloop; [|done]
    end.
    apply fill_keypoints_run in Hloop as (T0 & -> & ->).
    cbn [mbind result_bind].
    rewrite bind_run, in_place_last in Hrun.
    rewrite bind_run, (load_run _ _ _ (lookup_last _ _)) in Hrun.
    rewrite bind_run in Hrun. unfold lift at 1 in Hrun.
    destruct (mean_without_last _ _) as [mean|e]; [|done].
    cbn [mbind result_bind].
    rewrite bind_run, in_place_last in Hrun.
    destruct (setitem_series "mean" mean _) as [T2|e]; [|done].
    cbn [mbind result_bind].
    rewrite bind_run, ret_run, ret_run in Hrun.
    injection Hrun as <- <-. by exists T2.
Qed.

Lemma setitem_values_nonempty (key : string) (vals : list cell)
    (T T' : DataFrame) :
  nrows T <> 0 ->
  setitem_values key vals T = Ok T' ->
  length vals = nrows T
  /\ T' = {| index := index T;
             columns := put_item key vals (columns T) |}.
Proof.
  intros Hn. unfold setitem_values, ensure_valid_index.
  destruct (Nat.eqb_spec (nrows T) 0) as [|_]; [done|]. cbn [andb].
  destruct (Nat.eqb_spec (length vals) (nrows T)); [|done].
  by intros [= <-].
Qed.

Lemma lookup_repeat {A : Type} (x : A) (n i : nat) :
  i < n -> repeat x n !! i = Some x.
Proof.
  revert i. induction n as [|n IH]; intros i Hi; [lia|].
  destruct i as [|i]; [done|]. cbn. apply IH. lia.
Qed.

Lemma setitem_values_empty (key : string) (T : DataFrame) :
  nrows T = 0 ->
  setitem_values key [] T
  = Ok {| index := index T; columns := put_item key [] (columns T) |}.
Proof.
  intros Hn. unfold setitem_values, ensure_valid_index.
  cbn [length Nat.eqb negb]. rewrite andb_false_r. by rewrite Hn.
Qed.

Lemma setitem_values_first (key : string) (vals : list cell) (T : DataFrame) :
  nrows T = 0 -> vals <> [] ->
  setitem_values key vals T
  = Ok {| index := range_index (length vals);
          columns := put_item key vals
                       (map (fun c => (c.1, repeat NaN (length vals)))
                            (columns T)) |}.
Proof.
  intros Hn Hv. unfold setitem_values, ensure_valid_index. rewrite Hn.
  assert (length vals <> 0) by (by destruct vals).
  destruct (Nat.eqb_spec (length (range_index (length vals))) 0) as [E|_].
  { unfold range_index in E. rewrite length_map, length_seq in E. done. }
  cbn [Nat.eqb andb negb].
  replace (Nat.eqb (length (range_index (length vals))) 0) with false
    by (symmetry; apply Nat.eqb_neq; unfold range_index;
        by rewrite length_map, length_seq).
  cbn [negb]. unfold nrows. cbn [index].
  replace (length (range_index (length vals))) with (length vals)
    by (unfold range_index; by rewrite length_map, length_seq).
  by rewrite Nat.eqb_refl.
Qed.

Lemma setitem_values_nrows (key : string) (vals : list cell)
    (T T' : DataFrame) :
  setitem_values key vals T = Ok T' -> nrows T' = length vals.
Proof.
  unfold setitem_values.
  destruct (Nat.eqb_spec (length vals)
              (nrows (ensure_valid_index (range_index (length vals)) T)));
    [|done].
  intros [= <-]. unfold nrows at 1. cbn [index]. done.
Qed.

Lemma fill_keypoints_nrows (keypoints : nat) (results : list (list cell))
    (todo : list (nat * string)) :
  forall X X',
    fill_keypoints keypoints results todo X = Ok X' ->
    (todo = [] /\ X' = X) \/ (todo <> [] /\ nrows X' = length results).
Proof.
  unfold fill_keypoints.
  induction todo as [|[c col] todo IH]; intros X X' H.
  - left. by injection H as <-.
  - right. split; [done|]. cbn [for_each mbind result_bind] in H.
    destruct (array_column keypoints c results) as [values|e] eqn:Ea; [|done].
    cbn [mbind result_bind] in H.
    unfold array_column in Ea. destruct (Nat.ltb c keypoints); [|done].
    injection Ea as <-.
    destruct (setitem_values col _ X) as [X1|e] eqn:E; [|done].
    apply setitem_values_nrows in E. rewrite length_map in E.
    destruct (IH _ _ H) as [[-> ->]|[_ Hn]]; done.
Qed.

Lemma third_slots_and_set_rows (T : DataFrame) (results : list (list cell))
    (keypoints : nat) (set_ : option (list cell)) :
  third_slots_and_set T = Ok (results, keypoints, set_) ->
  nrows T <> 0 /\ length results = nrows T.
Proof.
  unfold third_slots_and_set, reshape_3.
  destruct (Nat.eqb (ncols T mod 3) 1).
  - destruct (Nat.eqb_spec (nrows T) 0) as [|Hn]; [done|]. cbn [orb].
    destruct (negb _); [done|]. cbn [mbind result_bind].
    destruct (last_column T); [|done]. intros [= <- _ _]. split; [done|].
    unfold third_slots, to_numpy. by rewrite !length_map, length_seq.
  - destruct (Nat.eqb_spec (nrows T) 0) as [|Hn]; [done|]. cbn [orb].
    destruct (negb _); [done|]. intros [= <- _ _]. split; [done|].
    unfold third_slots, to_numpy. by rewrite !length_map, length_seq.
Qed.

(** The tables [compute_confidence] builds have a flat axis. *)
Lemma empty_frame_flat (names : list string) :
  multi_level (columns (empty_frame names)) = false.
Proof. by destruct names. Qed.

Lemma ensure_valid_index_kind (idx : list ilabel) (T : DataFrame) :
  multi_level (columns (ensure_valid_index idx T)) = multi_level (columns T).
Proof.
  unfold ensure_valid_index. destruct (_ && _); [|done].
  apply multi_level_labels. cbn [columns]. by rewrite map_map.
Qed.

Lemma setitem_values_kind (key : string) (vals : list cell) (T T' : DataFrame) :
  setitem_values key vals T = Ok T' ->
  multi_level (columns T') = multi_level (columns T).
Proof.
  unfold setitem_values. destruct (Nat.eqb _ _); [|done]. intros [= <-].
  cbn [columns]. by rewrite multi_level_put_item, ensure_valid_index_kind.
Qed.

Lemma setitem_scalar_kind (key : string) (v : cell) (T : DataFrame) :
  multi_level (columns (setitem_scalar key v T)) = multi_level (columns T).
Proof. apply multi_level_put_item. Qed.

Lemma fill_keypoints_kind (keypoints : nat) (results : list (list cell))
    (todo : list (nat * string)) :
  forall X X',
    fill_keypoints keypoints results todo X = Ok X' ->
    multi_level (columns X') = multi_level (columns X).
Proof.
  unfold fill_keypoints.
  induction todo as [|[c col] todo IH]; intros X X' H.
  - by injection H as <-.
  - cbn [for_each mbind result_bind] in H.
    destruct (array_column keypoints c results) as [values|e]; [|done].
    cbn [mbind result_bind] in H.
    destruct (setitem_values col values X) as [X1|e] eqn:E; [|done].
    rewrite (IH _ _ H). by apply setitem_values_kind in E.
Qed.

Lemma fill_keypoints_flat (keypoints : nat) (results : list (list cell))
    (names : list string) (T0 : DataFrame) :
  fill_keypoints keypoints results (imap pair names) (empty_frame names) = Ok T0 ->
  multi_level (columns T0) = false.
Proof.
  intros H. rewrite (fill_keypoints_kind _ _ _ _ _ H). apply empty_frame_flat.
Qed.

(** The mean column of the table [compute_confidence] makes. *)
Lemma confidence_table_mean (keypoint_names : list string)
    (model_name : string) (T T' : DataFrame) :
  confidence_table keypoint_names model_name T = Ok T' ->
  Forall (fun k => ~ In k ["mean"; "set"; "img_file"])
         (removelast keypoint_names) ->
  In (Name "mean") (labels T')
  /\ (forall col i,
        In (Name "mean", col) (columns T') -> i < nrows T' ->
        exists m,
          col !! i = Some m
          /\ row_mean (keypoint_cells (removelast keypoint_names) T' i) = Ok m).
Proof.
  intros Hrun Hres. unfold confidence_table in Hrun.
  destruct (third_slots_and_set T) as [[[results keypoints] set_]|e] eqn:Hthird;
    [|done].
  cbn [mbind result_bind] in Hrun.
  destruct (fill_keypoints _ _ _ _) as [T0|e] eqn:Hfill; [|done].
  cbn [mbind result_bind] in Hrun.
  set (T1 := setitem_scalar "model_name" (Str model_name) T0) in *.
  destruct (mean_without_last keypoint_names T1) as [mean|e] eqn:Hmean; [|done].
  cbn [mbind result_bind] in Hrun.
  destruct (mean_without_last_spec _ _ _ Hmean) as (Hidx & Hlen & Hrows).
  rewrite (setitem_series_own_index _ _ _ Hidx) in Hrun.
  cbn [mbind result_bind] in Hrun.
  set (T2 := {| index := index T1; columns := _ |}) in *.
  assert (Hf1 : multi_level (columns T1) = false).
  { unfold T1. rewrite setitem_scalar_kind. by eapply fill_keypoints_flat. }
  assert (Hno : forall k, In k ["mean"; "set"; "img_file"] ->
                  ~ In k (removelast keypoint_names)).
  { intros k Hk Hin. rewrite Forall_forall in Hres.
    by apply (Hres k (proj2 (list_elem_of_In _ _) Hin)). }
  assert (H2 : forall col i,
            In (Name "mean", col) (columns T2) -> i < nrows T2 ->
            exists m, col !! i = Some m
              /\ row_mean (keypoint_cells (removelast keypoint_names) T2 i) = Ok m).
  { intros col i Hcol Hi. apply put_item_values_name in Hcol. subst col.
    destruct (Hrows i Hi) as (m & Hm & Hmeani). exists m. split; [done|].
    rewrite (keypoint_cells_put_other _ "mean" (s_values mean) T1); [done| |done].
    apply Hno. by left. }
  destruct set_ as [set_|]; [|injection Hrun as <-; split;
                               [by apply put_item_has_name | done]].
  destruct (third_slots_and_set_rows _ _ _ _ Hthird) as [HnT Hresults].
  destruct (Nat.eq_dec (nrows T2) 0) as [Hz|Hnz].
  - (* no keypoint at all: the rows come with the "set" column *)
    assert (keypoint_names = []) as ->.
    { destruct (fill_keypoints_nrows _ _ _ _ _ Hfill) as [[Hk _]|[_ Hn]].
      - by destruct keypoint_names.
      - unfold nrows in Hz, Hn, Hresults, HnT. unfold T2, T1 in Hz.
        cbn [index setitem_scalar] in Hz. lia. }
    cbn in Hfill. injection Hfill as <-.
    assert (s_values mean = []) as Hvals.
    { apply length_zero_iff_nil. rewrite Hlen. done. }
    unfold T2, T1 in Hrun. rewrite Hvals in Hrun.
    cbn [removelast keypoint_cells flat_map].
    assert (Hiv : length (map cell_of_ilabel (index T)) <> 0).
    { by rewrite length_map. }
    revert Hiv Hrun. generalize (map cell_of_ilabel (index T)).
    intros iv Hiv Hrun.
    assert (exists n, n <> 0 /\
              (T' = {| index := range_index n;
                       columns := [(Name "model_name", repeat NaN n);
                                   (Name "mean", repeat NaN n);
                                   (Name "set", set_);
                                   (Name "img_file", iv)] |}
               \/ T' = {| index := range_index n;
                          columns := [(Name "model_name", repeat NaN n);
                                      (Name "mean", repeat NaN n);
                                      (Name "set", repeat NaN n);
                                      (Name "img_file", iv)] |}))
      as (n & Hn & HT').
    { change (put_item "mean" []
                (columns (setitem_scalar "model_name" (Str model_name)
                            (empty_frame []))))
        with [(Name "model_name", @nil cell); (Name "mean", @nil cell)] in Hrun.
      cbn [index setitem_scalar empty_frame] in Hrun.
      destruct set_ as [|s set_].
      - rewrite setitem_values_empty in Hrun by done.
        cbn [mbind result_bind] in Hrun.
        rewrite setitem_values_first in Hrun by (done || by destruct iv).
        injection Hrun as <-. exists (length iv). split; [done|]. by right.
      - rewrite setitem_values_first in Hrun by done.
        cbn [mbind result_bind] in Hrun.
        apply setitem_values_nonempty in Hrun as [Hl ->].
        + exists (length (s :: set_)). split; [done|]. by left.
        + unfold nrows, range_index. cbn [index].
          by rewrite length_map, length_seq. }
    assert (Hnrows : nrows T' = n).
    { destruct HT' as [->| ->]; unfold nrows, range_index; cbn [index];
        by rewrite length_map, length_seq. }
    split.
    { destruct HT' as [->| ->]; cbn; tauto. }
    intros col i Hcol Hi. exists NaN. split; [|done].
    rewrite Hnrows in Hi.
    assert (col = repeat NaN n) as ->.
    { destruct HT' as [->| ->]; cbn in Hcol;
        destruct Hcol as [H|[H|[H|[H|[]]]]]; congruence. }
    by apply lookup_repeat.
  - destruct (setitem_values "set" set_ T2) as [T3|e] eqn:H3; [|done].
    cbn [mbind result_bind] in Hrun.
    destruct (setitem_values_nonempty _ _ _ _ Hnz H3) as [Hl3 ->].
    apply setitem_values_nonempty in Hrun as [Hl4 ->]; [|done].
    split.
    { unfold labels. cbn [columns].
      apply in_map_iff. exists (Name "mean", s_values mean). split; [done|].
      apply put_item_in_other_name; [done|]. apply put_item_in_other_name; [done|].
      assert (Hin : In (Name "mean") (map fst (columns T2)))
        by (by apply put_item_has_name).
      apply in_map_iff in Hin as ([l v] & Hl & Hin). cbn in Hl. subst l.
      by rewrite (put_item_values_name _ _ _ _ Hin) in Hin. }
    intros col i Hcol Hi. cbn [columns] in Hcol.
    apply put_item_in_other_name in Hcol; [|done].
    apply put_item_in_other_name in Hcol; [|done].
    destruct (H2 col i Hcol Hi) as (m & Hm & Hmeani). exists m. split; [done|].
    rewrite (keypoint_cells_put_other _ "img_file"
               (map cell_of_ilabel (index T))
               {| index := index T2;
                  columns := put_item "set" set_ (columns T2) |});
      [| apply Hno; cbn; tauto | done].
    rewrite (keypoint_cells_put_other _ "set" set_ T2);
      [done | apply Hno; cbn; tauto | done].
Qed.

Lemma triplets_third (row : list cell) (c : nat) :
  nth c (map snd (triplets row)) NaN = nth (3 * c + 2) row NaN.
Proof.
  revert row. induction c as [|c IH]; intros row.
  - by destruct row as [|x [|y [|z row]]].
  - replace (3 * S c + 2) with (S (S (S (3 * c + 2)))) by lia.
    destruct row as [|x [|y [|z row]]]; cbn [triplets map nth]; done.
Qed.

Lemma cells_at_removelast (i p : nat) (cols : list (label * list cell)) :
  p < length cols - 1 ->
  nth p (cells_at i (removelast cols)) NaN = nth p (cells_at i cols) NaN.
Proof.
  intros Hp. unfold cells_at.
  destruct (exists_last (l := cols)) as (front & c & ->).
  { intros ->. cbn in Hp. lia. }
  rewrite removelast_last, map_app.
  rewrite length_app in Hp. cbn in Hp.
  rewrite app_nth1; [done|]. rewrite length_map. lia.
Qed.

Lemma lookup_map {A B : Type} (f : A -> B) (l : list A) (i : nat) :
  map f l !! i = f <$> (l !! i).
Proof. apply (list_lookup_fmap f l i). Qed.

Lemma to_numpy_third_slot (T : DataFrame) (i c : nat) :
  i < nrows T ->
  exists row,
    third_slots (map triplets (to_numpy T)) !! i = Some row
    /\ nth c row NaN = nth (3 * c + 2) (cells_at i (columns T)) NaN.
Proof.
  intros Hi. unfold third_slots, to_numpy.
  rewrite !lookup_map, lookup_seq_lt by done. cbn.
  eexists. split; [reflexivity|]. apply triplets_third.
Qed.

(** The array [compute_confidence] reads the confidences from: one row
    for each row of the table, its entry [c] being the third slot of
    triplet [c], and the trailing column taken for "set" exactly when
    the number of columns is 1 modulo 3. *)
Lemma third_slots_and_set_spec (T : DataFrame) (results : list (list cell))
    (keypoints : nat) (set_ : option (list cell)) :
  third_slots_and_set T = Ok (results, keypoints, set_) ->
  ((ncols T mod 3 = 0 /\ set_ = None /\ ncols T = 3 * keypoints)
   \/ (ncols T mod 3 = 1 /\ ncols T = 3 * keypoints + 1
       /\ exists c, last (columns T) = Some c /\ set_ = Some c.2))
  /\ (forall i c, i < nrows T -> c < keypoints ->
        exists row,
          results !! i = Some row
          /\ nth c row NaN = nth (3 * c + 2) (cells_at i (columns T)) NaN).
Proof.
  unfold third_slots_and_set, reshape_3.
  destruct (Nat.eqb_spec (ncols T mod 3) 1) as [H1|H1].
  - destruct (Nat.eqb_spec (nrows T) 0) as [|Hn]; [done|]. cbn [orb].
    destruct (Nat.eqb_spec ((ncols T - 1) mod 3) 0) as [H0|]; [|done].
    cbn [negb mbind result_bind]. unfold last_column.
    destruct (last (columns T)) as [c|] eqn:Hlast; [|done].
    assert (Hk : ncols T = 3 * ((ncols T - 1) / 3) + 1).
    { pose proof (Nat.div_mod_eq (ncols T - 1) 3).
      assert (ncols T <> 0) by (intros E; by rewrite E in H1). lia. }
    revert Hk. generalize ((ncols T - 1) / 3). intros q Hk [= <- <- <-].
    split.
    + right. split; [done|]. split; [done|]. by exists c.
    + intros i k Hi Hc.
      destruct (to_numpy_third_slot (without_last_column T) i k Hi)
        as (row & Hrow & Hnth).
      exists row. split; [done|]. rewrite Hnth.
      unfold without_last_column. cbn [columns].
      apply cells_at_removelast. unfold ncols in *. lia.
  - destruct (Nat.eqb_spec (nrows T) 0) as [|Hn]; [done|]. cbn [orb].
    destruct (Nat.eqb_spec (ncols T mod 3) 0) as [H0|]; [|done].
    cbn [negb mbind result_bind].
    assert (Hk : ncols T = 3 * (ncols T / 3)).
    { pose proof (Nat.div_mod_eq (ncols T) 3). lia. }
    revert Hk. generalize (ncols T / 3). intros q Hk [= <- <- <-].
    split.
    + left. done.
    + intros i k Hi Hc. by apply to_numpy_third_slot.
Qed.

Lemma existsb_has_label (key : label) (cols : list (label * list cell)) :
  existsb (has_label key) cols = true <-> In key (map fst cols).
Proof.
  rewrite existsb_exists, in_map_iff. split.
  - intros (c & Hc & Hl). apply has_label_true in Hl. by exists c.
  - intros (c & Hc & Hin). exists c. split; [done|]. by apply has_label_true.
Qed.

Lemma ensure_valid_index_labels (idx : list ilabel) (T : DataFrame) :
  labels (ensure_valid_index idx T) = labels T.
Proof.
  unfold ensure_valid_index, labels. destruct (_ && _); [|done].
  cbn [columns]. by rewrite map_map.
Qed.

Lemma setitem_values_labels_present (key : string) (vals : list cell)
    (T T' : DataFrame) :
  setitem_values key vals T = Ok T' -> In (Name key) (labels T) ->
  labels T' = labels T.
Proof.
  unfold setitem_values. destruct (Nat.eqb _ _); [|done]. intros [= <-] Hin.
  rewrite <- (ensure_valid_index_labels (range_index (length vals)) T) in Hin |- *.
  by apply put_item_labels_present.
Qed.

Lemma setitem_values_labels_absent (key : string) (vals : list cell)
    (T T' : DataFrame) :
  multi_level (columns T) = false ->
  setitem_values key vals T = Ok T' -> ~ In (Name key) (labels T) ->
  labels T' = labels T ++ [Name key].
Proof.
  intros Hf. unfold setitem_values.
  destruct (Nat.eqb _ _); [|done]. intros [= <-] Hin.
  rewrite <- (ensure_valid_index_labels (range_index (length vals)) T) in Hin |- *.
  apply put_item_labels_absent; [|done]. by rewrite ensure_valid_index_kind.
Qed.

Lemma setitem_values_in (key : string) (vals : list cell) (T T' : DataFrame) :
  multi_level (columns T) = false ->
  setitem_values key vals T = Ok T' -> In (Name key, vals) (columns T').
Proof.
  intros Hf. unfold setitem_values. destruct (Nat.eqb _ _); [|done]. intros [= <-].
  apply put_item_in_key. by rewrite ensure_valid_index_kind.
Qed.

Lemma setitem_values_key_values (key : string) (vals col : list cell)
    (T T' : DataFrame) :
  setitem_values key vals T = Ok T' ->
  In (Name key, col) (columns T') -> col = vals.
Proof.
  unfold setitem_values. destruct (Nat.eqb _ _); [|done]. intros [= <-].
  apply put_item_values_name.
Qed.

Lemma fill_keypoints_step (keypoints : nat) (results : list (list cell))
    (c : nat) (col : string) (todo : list (nat * string)) (X X' : DataFrame) :
  fill_keypoints keypoints results ((c, col) :: todo) X = Ok X' ->
  c < keypoints
  /\ exists X1,
       setitem_values col (map (fun row => nth c row NaN) results) X = Ok X1
       /\ fill_keypoints keypoints results todo X1 = Ok X'.
Proof.
  unfold fill_keypoints. cbn [for_each mbind result_bind]. intros H.
  destruct (array_column keypoints c results) as [values|e] eqn:Ea; [|done].
  cbn [mbind result_bind] in H.
  unfold array_column in Ea. destruct (Nat.ltb_spec c keypoints); [|done].
  injection Ea as <-. split; [done|].
  destruct (setitem_values col _ X) as [X1|e] eqn:E; [|done].
  by exists X1.
Qed.

Lemma fill_keypoints_labels (keypoints : nat) (results : list (list cell))
    (todo : list (nat * string)) :
  forall X X',
    Forall (fun ck => In (Name ck.2) (labels X)) todo ->
    fill_keypoints keypoints results todo X = Ok X' ->
    labels X' = labels X.
Proof.
  induction todo as [|[c col] todo IH]; intros X X' Hin H.
  - by injection H as <-.
  - apply fill_keypoints_step in H as (_ & X1 & H1 & H).
    apply Forall_cons in Hin as [Hcol Hin]. cbn [snd] in Hcol.
    apply setitem_values_labels_present in H1; [|done].
    rewrite <- H1. apply IH; [|done]. by rewrite H1.
Qed.

Lemma fill_keypoints_other (keypoints : nat) (results : list (list cell))
    (key : string) (todo : list (nat * string)) :
  forall X X',
    nrows X <> 0 ->
    fill_keypoints keypoints results todo X = Ok X' ->
    ~ In key (map snd todo) ->
    nrows X' = nrows X
    /\ forall col, In (Name key, col) (columns X') <-> In (Name key, col) (columns X).
Proof.
  induction todo as [|[c col] todo IH]; intros X X' Hn H Hkey.
  - by injection H as <-.
  - apply fill_keypoints_step in H as (_ & X1 & H1 & H).
    cbn [map snd] in Hkey.
    apply setitem_values_nonempty in H1 as [Hlen ->]; [|done].
    eapply IH in H as [Hrows Hcols];
      [|exact Hn|intros Hin; apply Hkey; by right].
    split; [done|]. intros v. rewrite Hcols. cbn [columns].
    apply put_item_in_other_name. intros [= ->]. apply Hkey. by left.
Qed.

Lemma fill_keypoints_values (keypoints : nat) (results : list (list cell))
    (todo : list (nat * string)) :
  forall X X',
    results <> [] -> NoDup (map snd todo) ->
    fill_keypoints keypoints results todo X = Ok X' ->
    forall c key,
      In (c, key) todo ->
      c < keypoints
      /\ forall col, In (Name key, col) (columns X') ->
           col = map (fun row => nth c row NaN) results.
Proof.
  induction todo as [|[c0 k0] todo IH]; intros X X' Hres Hnd H c key Hin;
    [done|].
  apply fill_keypoints_step in H as (Hc0 & X1 & H1 & H).
  cbn [map snd] in Hnd. apply NoDup_cons in Hnd as [Hk0 Hnd].
  assert (Hn1 : nrows X1 <> 0).
  { rewrite (setitem_values_nrows _ _ _ _ H1), length_map. by destruct results. }
  destruct Hin as [[= <- <-]|Hin].
  - split; [done|]. intros col Hcol.
    destruct (fill_keypoints_other _ _ k0 _ _ _ Hn1 H) as [_ Hcols].
    { by rewrite <- list_elem_of_In. }
    apply Hcols in Hcol. by apply (setitem_values_key_values _ _ _ _ _ H1).
  - by apply (IH X1 X').
Qed.

Lemma imap_pair_In {A : Type} (l : list A) (c : nat) (x : A) :
  In (c, x) (imap pair l) <-> l !! c = Some x.
Proof.
  rewrite <- list_elem_of_In, list_elem_of_lookup. split.
  - intros [i Hi]. rewrite list_lookup_imap in Hi.
    destruct (l !! i) as [y|] eqn:E; [|done]. by injection Hi as <- <-.
  - intros H. exists c. by rewrite list_lookup_imap, H.
Qed.

Lemma imap_pair_snd {A : Type} (l : list A) : map snd (imap pair l) = l.
Proof.
  apply list_eq. intros i. rewrite lookup_map, list_lookup_imap.
  by destruct (l !! i).
Qed.

Lemma well_formed_last (T : DataFrame) (c : label * list cell) :
  well_formed T = true -> last (columns T) = Some c -> length c.2 = nrows T.
Proof.
  unfold well_formed. rewrite forallb_forall. intros Hwf Hlast.
  apply Nat.eqb_eq, Hwf. apply last_Some in Hlast as [l' ->].
  apply in_app_iff. right. by left.
Qed.

(** The layout of the table [compute_confidence] makes. *)
Lemma confidence_table_layout (keypoint_names : list string)
    (model_name : string) (T T' : DataFrame) :
  well_formed T = true ->
  NoDup keypoint_names ->
  Forall (fun k => ~ In k reserved_names) keypoint_names ->
  confidence_table keypoint_names model_name T = Ok T' ->
  (ncols T mod 3 = 0 \/ ncols T mod 3 = 1)
  /\ labels T'
     = map Name keypoint_names ++ [Name "model_name"; Name "mean"]
       ++ (if Nat.eqb (ncols T mod 3) 1
           then [Name "set"; Name "img_file"] else [])
  /\ (forall c k,
        keypoint_names !! c = Some k ->
        3 * c + 2 < ncols T - ncols T mod 3
        /\ exists col,
             In (Name k, col) (columns T')
             /\ forall i, i < nrows T ->
                  col !! i = Some (nth (3 * c + 2) (cells_at i (columns T)) NaN))
  /\ (ncols T mod 3 = 1 ->
        exists c,
          last (columns T) = Some c
          /\ In (Name "set", c.2) (columns T')
          /\ In (Name "img_file", map cell_of_ilabel (index T)) (columns T')).
Proof.
  intros Hwf Hnd Hres Hrun. unfold confidence_table in Hrun.
  destruct (third_slots_and_set T) as [[[results keypoints] set_]|e] eqn:Hthird;
    [|done].
  cbn [mbind result_bind] in Hrun.
  destruct (fill_keypoints _ _ _ _) as [T0|e] eqn:Hfill; [|done].
  cbn [mbind result_bind] in Hrun.
  set (T1 := setitem_scalar "model_name" (Str model_name) T0) in *.
  destruct (mean_without_last keypoint_names T1) as [mean|e] eqn:Hmean; [|done].
  cbn [mbind result_bind] in Hrun.
  destruct (mean_without_last_spec _ _ _ Hmean) as (Hidx & Hlen & _).
  rewrite (setitem_series_own_index _ _ _ Hidx) in Hrun.
  cbn [mbind result_bind] in Hrun.
  set (T2 := {| index := index T1; columns := _ |}) in *.
  destruct (third_slots_and_set_rows _ _ _ _ Hthird) as [HnT Hresults].
  destruct (third_slots_and_set_spec _ _ _ _ Hthird) as [Hshape Hslots].
  assert (Hres0 : results <> []).
  { intros ->. cbn in Hresults. lia. }
  (* the reserved names are no keypoint names *)
  assert (Hrk : forall name, In name reserved_names ->
                  ~ In (Name name) (map Name keypoint_names)).
  { intros name Hname (k & [= <-] & Hk)%in_map_iff.
    rewrite Forall_forall in Hres.
    by apply (Hres k (proj2 (list_elem_of_In _ _) Hk)). }
  (* the table after the loop *)
  assert (HL0 : labels T0 = map Name keypoint_names).
  { rewrite (fun H => fill_keypoints_labels _ _ _ _ _ H Hfill).
    - unfold labels, empty_frame. cbn [columns]. by rewrite map_map.
    - apply Forall_forall. intros [c k] Hck%list_elem_of_In.
      apply imap_pair_In in Hck. cbn [snd].
      unfold labels, empty_frame. cbn [columns]. rewrite map_map. cbn [fst].
      apply in_map. apply list_elem_of_In. by eapply list_elem_of_lookup_2. }
  assert (HV0 : forall c k, keypoint_names !! c = Some k ->
            c < keypoints
            /\ forall col, In (Name k, col) (columns T0) ->
                 col = map (fun row => nth c row NaN) results).
  { intros c k Hck.
    apply (fill_keypoints_values _ _ _ _ _ Hres0) with (c := c) (key := k) in Hfill;
      [done | by rewrite imap_pair_snd | by apply imap_pair_In]. }
  assert (HN0 : keypoint_names <> [] -> nrows T0 = nrows T).
  { intros Hk. destruct (fill_keypoints_nrows _ _ _ _ _ Hfill) as [[E _]|[_ Hn]].
    - by destruct keypoint_names.
    - by rewrite Hn. }
  assert (Hf0 : multi_level (columns T0) = false)
    by (by eapply fill_keypoints_flat).
  assert (Hf1 : multi_level (columns T1) = false)
    by (unfold T1; by rewrite setitem_scalar_kind).
  (* its columns of keypoints, as later assignments leave them *)
  assert (HL2 : labels T2
                = map Name keypoint_names ++ [Name "model_name"; Name "mean"]).
  { assert (HL1 : labels T1 = map Name keypoint_names ++ [Name "model_name"]).
    { unfold labels, T1, setitem_scalar. cbn [columns].
      rewrite put_item_labels_absent; [by fold (labels T0); rewrite HL0|done|].
      fold (labels T0). rewrite HL0. apply Hrk. cbn. tauto. }
    unfold labels, T2. cbn [columns].
    rewrite put_item_labels_absent; [|done|].
    - fold (labels T1). by rewrite HL1, <- app_assoc.
    - fold (labels T1). rewrite HL1, in_app_iff.
      intros [H|[H|[]]]; [|done]. revert H. apply Hrk. cbn. tauto. }
  assert (Hf2 : multi_level (columns T2) = false).
  { unfold T2. cbn [columns]. by rewrite multi_level_put_item. }
  assert (HK2 : forall c k, keypoint_names !! c = Some k ->
            forall col, In (Name k, col) (columns T2) <-> In (Name k, col) (columns T0)).
  { intros c k Hck col.
    assert (Hk : In k keypoint_names)
      by (apply list_elem_of_In; by eapply list_elem_of_lookup_2).
    assert (Hkr : forall name, In name reserved_names -> k <> name).
    { intros name Hname ->. rewrite Forall_forall in Hres.
      by apply (Hres name (proj2 (list_elem_of_In _ _) Hk)). }
    unfold T2, T1, setitem_scalar. cbn [columns].
    rewrite put_item_in_other_name by (apply Hkr; cbn; tauto).
    apply put_item_in_other_name. apply Hkr. cbn. tauto. }
  assert (Hcells : forall c k col, keypoint_names !! c = Some k ->
            In (Name k, col) (columns T0) ->
            forall i, i < nrows T ->
              col !! i = Some (nth (3 * c + 2) (cells_at i (columns T)) NaN)).
  { intros c k col Hck Hcol i Hi.
    destruct (HV0 c k Hck) as [Hc Hval]. rewrite (Hval col Hcol).
    destruct (Hslots i c Hi Hc) as (row & Hrow & Hnth).
    by rewrite lookup_map, Hrow, <- Hnth. }
  assert (Hpos : forall c k, keypoint_names !! c = Some k ->
            3 * c + 2 < ncols T - ncols T mod 3).
  { intros c k Hck. destruct (HV0 c k Hck) as [Hc _].
    destruct Hshape as [(H0 & _ & Hk)|(H1 & Hk & _)]; lia. }
  assert (Hex : forall c k, keypoint_names !! c = Some k ->
            exists col, In (Name k, col) (columns T0)).
  { intros c k Hck.
    assert (Hin : In (Name k) (labels T0)).
    { rewrite HL0. apply in_map. apply list_elem_of_In.
      by eapply list_elem_of_lookup_2. }
    apply in_map_iff in Hin as ([l col] & Hl & Hin). cbn in Hl. subst l.
    by exists col. }
  destruct Hshape as [(H0 & -> & Hk)|(H1 & Hk & clast & Hlast & ->)].
  - (* no "set" column *)
    injection Hrun as <-.
    replace (Nat.eqb (ncols T mod 3) 1) with false by (by rewrite H0).
    split; [by left|]. split; [by rewrite HL2|]. split; [|lia].
    intros c k Hck. split; [by eapply Hpos|].
    destruct (Hex c k Hck) as [col Hcol]. exists col. split.
    + by apply (HK2 c k Hck).
    + by apply (Hcells c k).
  - (* a "set" column *)
    replace (Nat.eqb (ncols T mod 3) 1) with true by (by rewrite H1).
    assert (Hsv : length clast.2 = nrows T) by (by apply well_formed_last).
    destruct (setitem_values "set" clast.2 T2) as [T3|e] eqn:H3; [|done].
    cbn [mbind result_bind] in Hrun.
    assert (Hn3 : nrows T3 <> 0).
    { rewrite (setitem_values_nrows _ _ _ _ H3). lia. }
    pose proof (setitem_values_in _ _ _ _ Hf2 H3) as Hset3.
    assert (HL3 : labels T3 = labels T2 ++ [Name "set"]).
    { apply (setitem_values_labels_absent _ _ _ _ Hf2 H3). rewrite HL2, in_app_iff.
      intros [H|[H|[H|[]]]]; [|done..]. revert H. apply Hrk. cbn. tauto. }
    assert (Hf3 : multi_level (columns T3) = false)
      by (by rewrite (setitem_values_kind _ _ _ _ H3)).
    destruct (setitem_values_nonempty _ _ _ _ Hn3 Hrun) as [Hl4 ->].
    split; [by right|]. split; [|split].
    + unfold labels at 1. cbn [columns]. rewrite put_item_labels_absent.
      * fold (labels T3). by rewrite HL3, HL2, <- !app_assoc.
      * done.
      * fold (labels T3). rewrite HL3, HL2, !in_app_iff.
        intros [[H|[H|[H|[]]]]|[H|[]]]; [|done..]. revert H. apply Hrk. cbn. tauto.
    + intros c k Hck. split; [by eapply Hpos|].
      destruct (Hex c k Hck) as [col Hcol]. exists col.
      split; [|by apply (Hcells c k)].
      assert (Hk0 : keypoint_names <> []) by (intros E; by rewrite E in Hck).
      assert (Hn2 : nrows T2 <> 0).
      { unfold nrows, T2, T1. cbn [index setitem_scalar]. fold (nrows T0).
        rewrite (HN0 Hk0). done. }
      destruct (setitem_values_nonempty _ _ _ _ Hn2 H3) as [_ ->].
      assert (Hkin : In k keypoint_names)
        by (apply list_elem_of_In; by eapply list_elem_of_lookup_2).
      assert (Hkr : forall name, In name reserved_names -> k <> name).
      { intros name Hname ->. rewrite Forall_forall in Hres.
        by apply (Hres name (proj2 (list_elem_of_In _ _) Hkin)). }
      cbn [columns].
      apply put_item_in_other_name; [apply Hkr; cbn; tauto|].
      apply put_item_in_other_name; [apply Hkr; cbn; tauto|].
      by apply (HK2 c k Hck).
    + intros _. exists clast. split; [done|]. cbn [columns]. split.
      * by apply put_item_in_other_name.
      * by apply put_item_in_key.
Qed.

(** [get_precomputed_error] returns exactly when the mean can be
    taken; either way the table it was given has changed by then. *)
Lemma get_precomputed_error_run (h : heap) (df : ref)
    (keypoint_names : list string) (model_name : string) (T : DataFrame) :
  h !! df = Some T ->
  get_precomputed_error df keypoint_names model_name h
  = match precomputed_error_table keypoint_names model_name T with
    | Ok T' => (Ok df, <[df:=T']> h)
    | Raise e =>
        (Raise e, <[df:=setitem_scalar "model_name" (Str model_name) T]> h)
    end.
Proof.
  intros HT. unfold get_precomputed_error, precomputed_error_table.
  assert (Hlt : df < length h) by (by eapply lookup_lt_Some).
  rewrite bind_run, (in_place_run _ _ T) by done.
  set (T1 := setitem_scalar "model_name" (Str model_name) T).
  rewrite bind_run, (load_run _ _ T1) by (by apply list_lookup_insert_eq).
  rewrite bind_run. unfold lift at 1.
  destruct (mean_without_last keypoint_names T1) as [mean|e] eqn:Hmean; [|done].
  cbn [mbind result_bind].
  destruct (mean_without_last_spec _ _ _ Hmean) as (Hidx & _ & _).
  rewrite (setitem_series_own_index _ _ _ Hidx).
  set (T2 := {| index := index T1; columns := _ |}).
  rewrite bind_run, (in_place_run _ _ T1) by (by apply list_lookup_insert_eq).
  rewrite (setitem_series_own_index _ _ _ Hidx). fold T2.
  cbn [mbind result_bind]. rewrite list_insert_insert_eq.
  rewrite bind_run, (load_run _ _ T2) by (by apply list_lookup_insert_eq).
  rewrite bind_run. unfold lift.
  assert (exists first, item (labels T2) 0 = Ok first) as [first Hfirst].
  { destruct (put_item_has_key "mean" (s_values mean) (columns T1))
      as (c & Hc & _).
    unfold item, labels, T2. cbn [columns].
    destruct (put_item _ _ _) as [|c0 cs]; [done|]. by exists c0.1. }
  rewrite Hfirst. cbn [mbind result_bind mret result_ret].
  rewrite bind_run, (in_place_run _ _ T2) by (by apply list_lookup_insert_eq).
  by rewrite list_insert_insert_eq, ret_run.
Qed.

Lemma fill_keypoints_total (h : heap) (keypoints : nat)
    (results : list (list cell)) (todo : list (nat * string)) :
  forall X X',
    fill_keypoints keypoints results todo X = Ok X' ->
    for_each todo
      (fun '(c, col) (_ : unit) =>
         values ← lift (array_column keypoints c results);
         in_place (length h) (setitem_values col values))
      () (h ++ [X])
    = (Ok (), h ++ [X']).
Proof.
  induction todo as [|[c col] todo IH]; intros X X' H.
  - by injection H as <-.
  - apply fill_keypoints_step in H as (Hc & X1 & H1 & H).
    cbn [for_each]. rewrite bind_run, bind_run. unfold lift, array_column.
    destruct (Nat.ltb_spec c keypoints); [|lia].
    rewrite in_place_last, H1. by apply IH.
Qed.

(** Conversely, [compute_confidence] returns whenever its table can be
    made. *)
Lemma compute_confidence_total (h : heap) (df : ref)
    (keypoint_names : list string) (model_name : string) (T T' : DataFrame) :
  h !! df = Some T ->
  confidence_table keypoint_names model_name T = Ok T' ->
  compute_confidence df keypoint_names model_name h = (Ok (length h), h ++ [T']).
Proof.
  intros HT Htable. unfold compute_confidence.
  unfold confidence_table, third_slots_and_set in Htable.
  rewrite bind_run, (load_run _ _ T) by done. rewrite bind_run.
  destruct (Nat.eqb (ncols T mod 3) 1).
  - rewrite bind_run. unfold lift at 1.
    destruct (reshape_3 _ _ _) as [tmp|e]; [|done].
    rewrite bind_run. unfold lift at 1.
    cbn [mbind result_bind] in Htable.
    destruct (last_column T) as [set_|e]; [|done].
    rewrite ret_run. cbn [mbind result_bind mret result_ret] in Htable.
    destruct (fill_keypoints _ _ _ _) as [T0|e] eqn:Hfill; [|done].
    cbn [mbind result_bind] in Htable.
    rewrite bind_run. unfold alloc at 1. rewrite bind_run.
    rewrite (fill_keypoints_total _ _ _ _ _ _ Hfill).
    rewrite bind_run, in_place_last.
    rewrite bind_run, (load_run _ _ _ (lookup_last _ _)).
    rewrite bind_run. unfold lift at 1.
    destruct (mean_without_last _ _) as [mean|e]; [|done].
    cbn [mbind result_bind] in Htable.
    rewrite bind_run, in_place_last.
    destruct (setitem_series "mean" mean _) as [T2|e]; [|done].
    cbn [mbind result_bind] in Htable.
    rewrite bind_run, bind_run, in_place_last.
    destruct (setitem_values "set" set_ T2) as [T3|e]; [|done].
    cbn [mbind result_bind] in Htable.
    rewrite bind_run, (load_run _ _ T) by (by apply lookup_app_l_Some).
    by rewrite in_place_last, Htable, ret_run.
  - rewrite bind_run. unfold lift at 1.
    destruct (reshape_3 _ _ _) as [tmp|e]; [|done].
    rewrite ret_run. cbn [mbind result_bind mret result_ret] in Htable.
    destruct (fill_keypoints _ _ _ _) as [T0|e] eqn:Hfill; [|done].
    cbn [mbind result_bind] in Htable.
    rewrite bind_run. unfold alloc at 1. rewrite bind_run.
    rewrite (fill_keypoints_total _ _ _ _ _ _ Hfill).
    rewrite bind_run, in_place_last.
    rewrite bind_run, (load_run _ _ _ (lookup_last _ _)).
    rewrite bind_run. unfold lift at 1.
    destruct (mean_without_last _ _) as [mean|e]; [|done].
    cbn [mbind result_bind] in Htable.
    rewrite bind_run, in_place_last.
    destruct (setitem_series "mean" mean _) as [T2|e]; [|done].
    cbn [mbind result_bind mret result_ret] in Htable. injection Htable as <-.
    by rewrite bind_run, ret_run, ret_run.
Qed.

Lemma setitem_values_fits (key : string) (vals : list cell) (T : DataFrame) :
  vals <> [] -> nrows T = 0 \/ nrows T = length vals ->
  exists T', setitem_values key vals T = Ok T' /\ nrows T' = length vals.
Proof.
  intros Hv [H0|Hn].
  - rewrite (setitem_values_first _ _ _ H0 Hv). eexists. split; [done|].
    unfold nrows, range_index. cbn [index]. by rewrite length_map, length_seq.
  - unfold setitem_values, ensure_valid_index.
    assert (nrows T <> 0) by (rewrite Hn; by destruct vals).
    destruct (Nat.eqb_spec (nrows T) 0) as [|_]; [done|]. cbn [andb].
    rewrite Hn, Nat.eqb_refl. eexists. split; [done|]. by unfold nrows.
Qed.

Lemma third_slots_and_set_Ok (T : DataFrame) :
  nrows T <> 0 -> ncols T mod 3 <> 2 ->
  exists results set_,
    third_slots_and_set T = Ok (results, ncols T / 3, set_)
    /\ length results = nrows T.
Proof.
  intros Hn Hm. unfold third_slots_and_set, reshape_3.
  assert (Hlen : forall X, nrows X = nrows T ->
            length (third_slots (map triplets (to_numpy X))) = nrows T).
  { intros X HX. unfold third_slots, to_numpy.
    by rewrite !length_map, length_seq. }
  destruct (Nat.eqb_spec (nrows T) 0) as [|_]; [done|]. cbn [orb].
  pose proof (Nat.div_mod_eq (ncols T) 3) as Hdiv.
  pose proof (Nat.mod_upper_bound (ncols T) 3) as Hlt.
  destruct (Nat.eqb_spec (ncols T mod 3) 1) as [H1|H1].
  - assert ((ncols T - 1) mod 3 = 0) as ->.
    { replace (ncols T - 1) with (ncols T / 3 * 3) by lia.
      apply Nat.Div0.mod_mul. }
    cbn [Nat.eqb negb mbind result_bind].
    unfold last_column. destruct (last (columns T)) as [c|] eqn:El.
    + cbn [mbind result_bind mret result_ret].
      assert ((ncols T - 1) / 3 = ncols T / 3) as ->.
      { replace (ncols T - 1) with (ncols T / 3 * 3) by lia.
        by rewrite Nat.div_mul. }
      eexists _, _. split; [reflexivity|]. by apply Hlen.
    + apply last_None in El. unfold ncols in H1. rewrite El in H1. done.
  - assert (ncols T mod 3 = 0) as -> by lia.
    cbn [Nat.eqb negb mbind result_bind mret result_ret].
    eexists _, _. split; [reflexivity|]. by apply Hlen.
Qed.

Lemma mapM_Ok_exists {A B : Type} (f : A -> result B) (l : list A) :
  Forall (fun x => exists y, f x = Ok y) l -> exists ys, mapM f l = Ok ys.
Proof.
  induction 1 as [|x l [y Hy] _ [ys IH]]; [by exists []|].
  exists (y :: ys). cbn [mapM]. by rewrite Hy, IH.
Qed.


Example confidence_mean_example :
  (compute_confidence 0 ["A"; "B"; "C"] "m" [preds_ABC]).2 !! 1
  = Some {| index := [IInt 0; IInt 1];
            columns := [(Name "A", [Num 1; Num (1 # 2)]);
                        (Name "B", [Num 2; Num (2 # 2)]);
                        (Name "C", [Num 3; Num (3 # 2)]);
                        (Name "model_name", [Str "m"; Str "m"]);
                        (Name "mean", [Num (3 # 2); Num (6 # 8)])] |}.
Proof. reflexivity. Qed.

(** C8.  Whenever [compute_confidence] returns, for a well-formed table
    and distinct keypoint names that are none of the names it gives to
    its own columns: the number of columns of the table is a multiple of
    3 or one more; the table returned has one column per keypoint name,
    then "model_name" and "mean", then "set" and "img_file" exactly when
    that number is 1 modulo 3; the column of keypoint number [c] holds,
    row by row, the third slot of triplet [c] of the row; and in the
    case of 1 modulo 3 the "set" column holds the trailing column of the
    table and the "img_file" column its row index. *)
Theorem compute_confidence_layout (h : heap) (df : ref)
    (keypoint_names : list string) (model_name : string) (T : DataFrame)
    (r : ref) (h' : heap) :
  h !! df = Some T ->
  well_formed T = true ->
  NoDup keypoint_names ->
  Forall (fun k => ~ In k reserved_names) keypoint_names ->
  compute_confidence df keypoint_names model_name h = (Ok r, h') ->
  exists T',
    h' !! r = Some T'
    /\ (ncols T mod 3 = 0 \/ ncols T mod 3 = 1)
    /\ labels T'
       = map Name keypoint_names ++ [Name "model_name"; Name "mean"]
         ++ (if Nat.eqb (ncols T mod 3) 1
             then [Name "set"; Name "img_file"] else [])
    /\ (forall c k,
          keypoint_names !! c = Some k ->
          3 * c + 2 < ncols T - ncols T mod 3
          /\ exists col,
               In (Name k, col) (columns T')
               /\ forall i, i < nrows T ->
                    col !! i
                    = Some (nth (3 * c + 2) (cells_at i (columns T)) NaN))
    /\ (ncols T mod 3 = 1 ->
          exists c,
            last (columns T) = Some c
            /\ In (Name "set", c.2) (columns T')
            /\ In (Name "img_file", map cell_of_ilabel (index T)) (columns T')).
Proof.
  intros HT Hwf Hnd Hres Hrun.
  destruct (compute_confidence_returns _ _ _ _ _ _ _ HT Hrun)
    as (T' & Htable & -> & ->).
  exists T'. split; [apply lookup_last|].
  by apply (confidence_table_layout keypoint_names model_name).
Qed.

Lemma compute_confidence_layout_example :
  exists T',
    (compute_confidence 0 ["A"; "B"; "C"] "m" [preds_ABC_set]).2 !! 1 = Some T'
    /\ (ncols preds_ABC_set mod 3 = 0 \/ ncols preds_ABC_set mod 3 = 1)
    /\ labels T'
       = [Name "A"; Name "B"; Name "C"; Name "model_name"; Name "mean";
          Name "set"; Name "img_file"]
    /\ (forall c k,
          ["A"; "B"; "C"] !! c = Some k ->
          3 * c + 2 < ncols preds_ABC_set - ncols preds_ABC_set mod 3
          /\ exists col,
               In (Name k, col) (columns T')
               /\ forall i, i < nrows preds_ABC_set ->
                    col !! i
                    = Some (nth (3 * c + 2)
                              (cells_at i (columns preds_ABC_set)) NaN))
    /\ (ncols preds_ABC_set mod 3 = 1 ->
          exists c,
            last (columns preds_ABC_set) = Some c
            /\ In (Name "set", c.2) (columns T')
            /\ In (Name "img_file",
                   map cell_of_ilabel (index preds_ABC_set)) (columns T')).
Proof.
  apply (compute_confidence_layout [preds_ABC_set] 0 ["A"; "B"; "C"] "m"
           preds_ABC_set 1).
  - reflexivity.
  - reflexivity.
  - repeat constructor; cbn; set_solver.
  - repeat constructor; cbn; intuition discriminate.
  - reflexivity.
Defined.

(** ** Scatter tables *)

Lemma preserves_mapM_load (h0 : heap) (refs : list ref) :
  preserves h0 (mapM load refs) (fun _ => True).
Proof.
  induction refs as [|r refs IH]; [by apply preserves_ret|].
  cbn [mapM]. preserve.
Qed.

Lemma preserves_subset_of (h0 : heap) (missing : exn) (df : ref)
    (name : string) (data_type : cell) :
  preserves h0 (subset_of missing df name data_type) (fun _ => True).
Proof. unfold subset_of. preserve. Qed.

#[local] Hint Resolve preserves_mapM_load preserves_subset_of : preserves.

Lemma preserves_get_df_scatter
    (DataFrame_of_dict : list (string * dict_value) -> result DataFrame)
    (concat_rows : list DataFrame -> result DataFrame)
    (h0 : heap) (df_0 df_1 : ref) (data_type : cell)
    (model_names keypoint_names : list string) :
  preserves h0
    (get_df_scatter DataFrame_of_dict concat_rows df_0 df_1 data_type
       model_names keypoint_names)
    (fun _ => True).
Proof.
  unfold get_df_scatter. eapply preserves_bind; [|intros df_scatters _; preserve].
  apply (preserves_for_each h0 _ _ (fun _ => True)); [|done].
  intros keypoint df_scatters _. preserve.
Qed.

Lemma preserves_get_df_box (h0 : heap) (df_orig : ref)
    (keypoint_names model_names : list string) :
  preserves h0 (get_df_box df_orig keypoint_names model_names) (fun _ => True).
Proof.
  unfold get_df_box. eapply preserves_bind; [|intros df_boxes _; preserve].
  apply (preserves_for_each h0 _ _ (fun _ => True)); [|done].
  intros keypoint df_boxes _.
  apply (preserves_for_each h0 _ _ (fun _ => True)); [|done].
  intros model_curr boxes _. preserve.
Qed.

Lemma preserves_compute_confidence (h0 : heap) (df : ref)
    (keypoint_names : list string) (model_name : string) :
  preserves h0 (compute_confidence df keypoint_names model_name)
    (fun _ => True).
Proof.
  unfold compute_confidence.
  eapply preserves_bind; [apply preserves_load|]. intros T _.
  eapply (preserves_bind _ _ _ (fun _ => True)).
  { destruct (Nat.eqb (ncols T mod 3) 1); preserve. }
  intros [tmp set_] _.
  eapply preserves_bind; [apply preserves_alloc|]. intros df_ Hfresh.
  eapply (preserves_bind _ _ _ (fun _ => True)).
  { apply (preserves_for_each h0 _ _ (fun _ => True)); [|done].
    intros [c col] [] _. preserve. }
  intros _ _.
  do 4 (eapply preserves_bind; [solve [eauto with preserves]|intros ? ?]).
  eapply (preserves_bind _ _ _ (fun _ => True)); [|intros _ _; preserve].
  destruct set_ as [set_|]; preserve.
Qed.

Lemma preserves_lookup {A : Type} (h : heap) (m : M A) (Q : A -> Prop)
    (r : ref) (T : DataFrame) :
  preserves h m Q -> h !! r = Some T -> (m h).2 !! r = Some T.
Proof.
  intros Hm HT. destruct (Hm h) as [Hpre _]; [done|].
  by eapply prefix_lookup_Some.
Qed.

(** The functions which leave the tables they are given alone.
    [concat_dfs], [compute_confidence], [get_df_scatter] and
    [get_df_box] leave every table of the store as it is, at its
    reference, whether they return or raise: they work on copies or on
    tables of their own.  [strip_cols_append_name] is a helper of
    another kind: it renames the columns of the very table it is given
    and returns that table; [concat_dfs], its one caller, hands it
    copies. *)
Theorem tables_left_unchanged (h : heap) (r : ref) (T : DataFrame) :
  h !! r = Some T ->
  (forall dframes, (concat_dfs dframes h).2 !! r = Some T)
  /\ (forall df keypoint_names model_name,
        (compute_confidence df keypoint_names model_name h).2 !! r = Some T)
  /\ (forall DataFrame_of_dict concat_rows df_0 df_1 data_type model_names
             keypoint_names,
        (get_df_scatter DataFrame_of_dict concat_rows df_0 df_1 data_type
           model_names keypoint_names h).2 !! r = Some T)
  /\ (forall df_orig keypoint_names model_names,
        (get_df_box df_orig keypoint_names model_names h).2 !! r = Some T)
  /\ (forall name,
        strip_cols_append_name r name h = (Ok r, <[r:=renamed name T]> h)).
Proof.
  intros HT. repeat split.
  - intros dframes. eapply preserves_lookup; [apply preserves_concat_dfs|done].
  - intros df keypoint_names model_name.
    eapply preserves_lookup; [apply preserves_compute_confidence|done].
  - intros. eapply preserves_lookup; [apply preserves_get_df_scatter|done].
  - intros. eapply preserves_lookup; [apply preserves_get_df_box|done].
  - intros name. by apply strip_cols_append_name_run.
Qed.

Lemma tables_left_unchanged_example :
  (concat_dfs [("m0", 0); ("m1", 0)] [raw_ABC]).2 !! 0 = Some raw_ABC
  /\ (compute_confidence 0 ["A"; "B"; "C"] "m" [raw_ABC]).2 !! 0 = Some raw_ABC
  /\ (get_df_box 0 ["A"] ["m"] [raw_ABC]).2 !! 0 = Some raw_ABC
  /\ strip_cols_append_name 0 "m0" [raw_ABC] = (Ok 0, [renamed "m0" raw_ABC]).
Proof.
  destruct (tables_left_unchanged [raw_ABC] 0 raw_ABC eq_refl)
    as (H1 & H2 & _ & H4 & H5).
  split; [apply H1|]. split; [apply H2|]. split; [apply H4|]. apply H5.
Defined.

(** C4, at a table of pixel errors.  [get_precomputed_error] makes no
    table of its own: [df_ = df] is a second name of the table it was
    given, and the two columns it adds and the renaming of the first
    column are done on that table.  After the call the caller's table,
    at the same reference, has six columns where it had four, and its
    first column has another name.  [compute_confidence], which sits
    beside it and is called in its place for the other metric, leaves
    the table it is given alone and returns a new one. *)
Theorem get_precomputed_error_changes_its_argument :
  [errors_ABC] !! 0
    = Some {| index := [IInt 0];
              columns := [(Name "Unnamed: 0", [Str "img0.png"]);
                          (Name "A", [Num 1]); (Name "B", [Num 2]);
                          (Name "C", [Num 3])] |}
  /\ get_precomputed_error 0 ["A"; "B"; "C"] "m" [errors_ABC]
     = (Ok 0,
        [{| index := [IInt 0];
            columns := [(Name "img_file", [Str "img0.png"]);
                        (Name "A", [Num 1]); (Name "B", [Num 2]);
                        (Name "C", [Num 3]);
                        (Name "model_name", [Str "m"]);
                        (Name "mean", [Num (3 # 2)])] |}])
  /\ (get_precomputed_error 0 ["A"; "B"; "C"] "m" [errors_ABC]).2 !! 0
     <> Some errors_ABC
  /\ (compute_confidence 0 ["A"; "B"; "C"] "m" [preds_ABC]).1 = Ok 1
  /\ (compute_confidence 0 ["A"; "B"; "C"] "m" [preds_ABC]).2 !! 0
     = Some preds_ABC.
Proof.
  split; [reflexivity|]. split; [reflexivity|]. split; [by vm_compute|].
  split; by vm_compute.
Qed.

(** Reading part of a column leaves the store as it is. *)
Lemma subset_of_run (missing : exn) (df : ref) (name : string)
    (data_type : cell) (h : heap) :
  (subset_of missing df name data_type h).2 = h.
Proof.
  unfold subset_of. rewrite bind_run. unfold load at 1.
  destruct (h !! df) as [T|]; [|done].
  rewrite bind_run. unfold lift at 1.
  destruct (select_column missing name T); [|done].
  rewrite bind_run. unfold load at 1.
  destruct (h !! df) as [T'|]; [|done].
  rewrite bind_run. unfold lift at 1.
  by destruct (select_column AttributeError "set" T').
Qed.




(* ================================================================= *)
(** * Further properties *)
(* ================================================================= *)

(** ** Loops that collect *)

Lemma fold_left_select {A B : Type} (p : A -> bool) (g : A -> B) (l : list A)
    (acc : list B) :
  fold_left (fun acc x => if p x then acc ++ [g x] else acc) l acc
  = acc ++ map g (filter p l).
Proof.
  revert acc; induction l as [|x l IH]; intros acc; cbn [fold_left].
  - by rewrite app_nil_r.
  - rewrite IH, filter_bool_cons.
    destruct (p x); cbn [map]; by rewrite <- ?app_assoc.
Qed.

Lemma fold_left_snoc_map {A B : Type} (g : A -> B) (l : list A) (acc : list B) :
  fold_left (fun acc x => acc ++ [g x]) l acc = acc ++ map g l.
Proof.
  revert acc; induction l as [|x l IH]; intros acc; cbn [fold_left map].
  - by rewrite app_nil_r.
  - by rewrite IH, <- app_assoc.
Qed.

Lemma for_each_collect {A B : Type} (f : A -> result B) (xs : list A)
    (acc : list B) :
  for_each xs (fun x acc => y ← f x; mret (acc ++ [y])) acc
  = ys ← mapM f xs; mret (acc ++ ys).
Proof.
  revert acc; induction xs as [|x xs IH]; intros acc; simpl.
  - by rewrite app_nil_r.
  - destruct (f x) as [y|e]; simpl; [|done].
    rewrite IH. destruct (mapM f xs); simpl; [|done]. by rewrite <- app_assoc.
Qed.

Lemma mapM_map {A B C : Type} (g : A -> B) (f : B -> result C) (l : list A) :
  mapM f (map g l) = mapM (fun x => f (g x)) l.
Proof. induction l as [|x l IH]; simpl; [done|]. by rewrite IH. Qed.

Lemma mapM_then {A B C : Type} (g : A -> result B) (k : B -> C) (l : list A) :
  mapM (fun x => y ← g x; mret (k y)) l = map k <$> mapM g l.
Proof.
  induction l as [|x l IH]; simpl; [done|]. rewrite IH.
  destruct (g x); simpl; [|done]. by destruct (mapM g l).
Qed.

Lemma Forall2_mapM_Ok {A B : Type} (f : A -> result B) (l : list A)
    (ys : list B) :
  Forall2 (fun x y => f x = Ok y) l ys -> mapM f l = Ok ys.
Proof.
  induction 1 as [|x y l ys Hx _ IH]; simpl; [done|]. by rewrite Hx, IH.
Qed.

Lemma mapM_Ok_iff {A B : Type} (f : A -> result B) (l : list A) (ys : list B) :
  mapM f l = Ok ys <-> Forall2 (fun x y => f x = Ok y) l ys.
Proof. split; [apply mapM_Ok_Forall2 | apply Forall2_mapM_Ok]. Qed.

(** ** The listings of [video_preds] *)

Lemma filter_bool_filter {A : Type} (p q : A -> bool) (l : list A) :
  filter q (filter p l) = filter (fun x => p x && q x) l.
Proof.
  induction l as [|x l IH]; [done|].
  rewrite !filter_bool_cons. destruct (p x); cbn [andb]; [|done].
  by rewrite filter_bool_cons, IH.
Qed.

Lemma update_labeled_file_list_run (fs : filesystem) (folders : list string)
    (use_ood : bool) :
  update_labeled_file_list fs folders use_ood
  = mapM (fun folder =>
            files ← listed_files fs folder;
            mret (map Path (filter (keeps use_ood) files)))
         folders.
Proof.
  unfold update_labeled_file_list.
  etransitivity;
    [apply for_each_ext
       with (g := fun folder acc =>
                    y ← (files ← listed_files fs folder;
                         mret (map Path (filter (keeps use_ood) files)));
                    mret (acc ++ [y]))|].
  - intros d acc. destruct (listed_files fs d); simpl; [|done].
    by rewrite fold_left_ret_files.
  - rewrite for_each_collect. by destruct (mapM _ folders).
Qed.

Lemma update_vid_metric_files_list_run (fs : filesystem) (video : string)
    (folders : list string) :
  update_vid_metric_files_list fs video folders
  = mapM (fun folder =>
            files ← listed_video_files fs folder;
            mret (map Path (filter (contains video) files)))
         folders.
Proof.
  unfold update_vid_metric_files_list.
  etransitivity;
    [apply for_each_ext
       with (g := fun folder acc =>
                    y ← (files ← listed_video_files fs folder;
                         mret (map Path (filter (contains video) files)));
                    mret (acc ++ [y]))|].
  - intros d acc. destruct (listed_video_files fs d); simpl; [|done].
    by rewrite (fold_left_select (contains video) Path).
  - rewrite for_each_collect. by destruct (mapM _ folders).
Qed.

Lemma get_all_videos_run (fs : filesystem) (folders : list string) :
  get_all_videos fs folders
  = (fun files => list_to_set (omap video_id (concat files)))
      <$> mapM (listed_video_files fs) folders.
Proof.
  unfold get_all_videos.
  enough (H : forall acc : gset string,
    for_each folders
      (fun model_preds_folder ret_videos =>
         model_preds ← listed_video_files fs model_preds_folder;
         mret (ret_videos ∪ list_to_set (omap video_id model_preds)))
      acc
    = (fun files => acc ∪ list_to_set (omap video_id (concat files)))
        <$> mapM (listed_video_files fs) folders).
  { etransitivity; [|etransitivity; [apply (H ∅)|]].
    - apply for_each_ext. intros d acc.
      destruct (listed_video_files fs d); simpl; [|done].
      apply for_each_videos.
    - destruct (mapM _ folders); simpl; [|done]. f_equal. set_solver. }
  induction folders as [|d folders IH]; intros acc; simpl.
  - f_equal. set_solver.
  - destruct (listed_video_files fs d) as [files|e]; simpl; [|done].
    rewrite IH. destruct (mapM _ folders); simpl; [|done].
    f_equal. rewrite omap_app, list_to_set_app_L. set_solver.
Qed.

(** [update_vid_metric_files_list] returns a list exactly when every
    folder's [video_preds] directory can be listed, and the list then
    has one entry per folder, in the order of the folders: the regular
    files of that directory whose name contains [video], in listing
    order, each wrapped in a path.  A folder whose [video_preds] cannot
    be listed leaves no such list, so the call raises. *)
Theorem update_vid_metric_files_list_per_folder (fs : filesystem)
    (video : string) (folders : list string)
    (per_vid_preds : list (list PurePath)) :
  update_vid_metric_files_list fs video folders = Ok per_vid_preds
  <-> Forall2
        (fun folder preds =>
           exists names,
             listdir fs (path_join folder "video_preds") = Ok names
             /\ preds
                = map Path
                    (filter (fun f =>
                               isfile fs (path_join3 folder "video_preds" f)
                               && contains video f)
                            names))
        folders per_vid_preds.
Proof.
  rewrite update_vid_metric_files_list_run, mapM_Ok_iff.
  assert (Hone : forall folder preds,
    (files ← listed_video_files fs folder;
     mret (map Path (filter (contains video) files))) = Ok preds
    <-> exists names,
          listdir fs (path_join folder "video_preds") = Ok names
          /\ preds
             = map Path
                 (filter (fun f =>
                            isfile fs (path_join3 folder "video_preds" f)
                            && contains video f)
                         names)).
  { intros folder preds. unfold listed_video_files.
    destruct (listdir fs (path_join folder "video_preds")) as [names|e]; simpl.
    - rewrite filter_bool_filter. split.
      + intros [= <-]. by exists names.
      + by intros (names' & [= <-] & ->).
    - split; [done|]. by intros (names' & ? & _). }
  split; intros H; (eapply Forall2_impl; [exact H|]);
    intros folder preds; apply Hone.
Qed.

Lemma prefix_contains (v s : string) :
  String.prefix v s = true -> contains v s = true.
Proof. intros H. destruct s; cbn [contains]; by rewrite H. Qed.

Lemma before_prefix (sep s : string) : String.prefix (before sep s) s = true.
Proof.
  induction s as [|a s IH]; cbn [before].
  - by destruct (String.prefix sep "").
  - destruct (String.prefix sep (String a s)); [done|].
    cbn [String.prefix]. by destruct (ascii_dec a a).
Qed.

Lemma video_id_prefix (file v : string) :
  video_id file = Some v -> String.prefix v file = true.
Proof.
  unfold video_id. destruct (contains "temporal" file).
  - intros [= <-]. apply before_prefix.
  - destruct (contains "pca" file); [done|]. intros [= <-]. apply before_prefix.
Qed.

(** Every identifier that [get_all_videos] returns is found again by
    [update_vid_metric_files_list]: asked for that identifier over the
    same folders, it returns, and among the files it returns is one
    whose name begins with the identifier. *)
Theorem get_all_videos_are_found (fs : filesystem) (folders : list string)
    (videos : gset string) (v : string) :
  get_all_videos fs folders = Ok videos -> v ∈ videos ->
  exists per_vid_preds file,
    update_vid_metric_files_list fs v folders = Ok per_vid_preds
    /\ In (Path file) (concat per_vid_preds)
    /\ String.prefix v file = true.
Proof.
  rewrite get_all_videos_run, update_vid_metric_files_list_run, mapM_then.
  destruct (mapM (listed_video_files fs) folders) as [files|e]; [|done].
  simpl. intros [= <-] Hv.
  apply elem_of_list_to_set, list_elem_of_omap in Hv as (file & Hfile & Hid).
  apply video_id_prefix in Hid.
  apply list_elem_of_In, in_concat in Hfile as (fl & Hfl & Hfile).
  eexists _, file. split; [reflexivity|]. split; [|done].
  apply in_concat. exists (map Path (filter (contains v) fl)). split.
  - apply in_map_iff. by exists fl.
  - apply in_map, list_elem_of_In, list_elem_of_filter. split.
    + by rewrite prefix_contains.
    + by apply list_elem_of_In.
Qed.

Lemma get_all_videos_are_found_example :
  exists per_vid_preds file,
    update_vid_metric_files_list fs_labeled "vid1" ["/m"] = Ok per_vid_preds
    /\ In (Path file) (concat per_vid_preds)
    /\ String.prefix "vid1" file = true.
Proof.
  apply (get_all_videos_are_found fs_labeled ["/m"] {["vid1"]} "vid1").
  - reflexivity.
  - by apply elem_of_singleton.
Defined.

Lemma mapM_length {A B : Type} (f : A -> result B) (l : list A) (ys : list B) :
  mapM f l = Ok ys -> length ys = length l.
Proof. intros H%mapM_Ok_Forall2. symmetry. by eapply Forall2_length. Qed.

(** Whether [use_ood] is set or not decides nothing about success, and
    it splits the prediction files in two: when
    [update_labeled_file_list] returns without it, it returns with it
    too, both results have one entry per folder, no file is in both,
    and every listed file with "predictions" in its name is in one of
    them. *)
Theorem update_labeled_file_list_splits_by_ood (fs : filesystem)
    (folders : list string) (in_dist : list (list PurePath)) :
  update_labeled_file_list fs folders false = Ok in_dist ->
  exists ood,
    update_labeled_file_list fs folders true = Ok ood
    /\ length in_dist = length folders
    /\ length ood = length folders
    /\ (forall p, In p (concat in_dist) -> ~ In p (concat ood))
    /\ (forall folder files f,
          In folder folders -> listed_files fs folder = Ok files ->
          In f files -> contains "predictions" f = true ->
          In (Path f) (concat in_dist) \/ In (Path f) (concat ood)).
Proof.
  rewrite !update_labeled_file_list_run, !mapM_then.
  destruct (mapM (listed_files fs) folders) as [listing|e] eqn:Hlisting; [|done].
  simpl. intros [= <-]. eexists. split; [reflexivity|].
  rewrite !length_map, (mapM_length _ _ _ Hlisting).
  split; [done|]. split; [done|]. split.
  - intros p (l1 & Hl1 & Hp1)%in_concat (l2 & Hl2 & Hp2)%in_concat.
    apply in_map_iff in Hl1 as (fl1 & <- & _).
    apply in_map_iff in Hl2 as (fl2 & <- & _).
    apply in_map_iff in Hp1 as (f1 & <- & Hf1).
    apply in_map_iff in Hp2 as (f2 & [= ->] & Hf2).
    apply list_elem_of_In, list_elem_of_filter in Hf1 as [Hf1 _].
    apply list_elem_of_In, list_elem_of_filter in Hf2 as [Hf2 _].
    unfold keeps in Hf1, Hf2.
    destruct (contains "predictions" f1), (contains "new" f1); done.
  - intros folder files f Hfolder Hfiles Hf Hpred.
    apply mapM_Ok_Forall2 in Hlisting.
    apply list_elem_of_In, list_elem_of_lookup_1 in Hfolder as [i Hi].
    destruct (Forall2_lookup_l _ _ _ _ _ Hlisting Hi) as (files' & Hi' & Hfiles').
    rewrite Hfiles in Hfiles'. injection Hfiles' as <-.
    apply list_elem_of_lookup_2, list_elem_of_In in Hi'.
    destruct (contains "new" f) eqn:Hnew; [right|left];
      apply in_concat;
      eexists; (split; [apply in_map_iff; exists files; split; [reflexivity|done]|]);
      apply in_map, list_elem_of_In, list_elem_of_filter;
      (split; [unfold keeps; by rewrite Hpred, Hnew | by apply list_elem_of_In]).
Qed.

Lemma update_labeled_file_list_splits_by_ood_example :
  exists ood,
    update_labeled_file_list fs_labeled ["/m"] true = Ok ood
    /\ length [[Path "m_predictions.csv"]] = length ["/m"]
    /\ length ood = length ["/m"]
    /\ (forall p, In p (concat [[Path "m_predictions.csv"]]) ->
                  ~ In p (concat ood))
    /\ (forall folder files f,
          In folder ["/m"] -> listed_files fs_labeled folder = Ok files ->
          In f files -> contains "predictions" f = true ->
          In (Path f) (concat [[Path "m_predictions.csv"]])
          \/ In (Path f) (concat ood)).
Proof.
  apply (update_labeled_file_list_splits_by_ood fs_labeled ["/m"]
           [[Path "m_predictions.csv"]]).
  reflexivity.
Defined.

Lemma mapM_app {A B : Type} (f : A -> result B) (l1 l2 : list A) :
  mapM f (l1 ++ l2) = xs ← mapM f l1; ys ← mapM f l2; mret (xs ++ ys).
Proof.
  induction l1 as [|x l1 IH]; simpl.
  - by destruct (mapM f l2).
  - destruct (f x); simpl; [|done]. rewrite IH.
    destruct (mapM f l1); simpl; [|done]. by destruct (mapM f l2).
Qed.

(** The identifiers of two lists of folders taken together are the
    identifiers of the one and of the other: [get_all_videos] on a
    concatenation is the union of its results (and raises as soon as
    one of the two calls does).  Naming the same folders twice changes
    nothing. *)
Theorem get_all_videos_app (fs : filesystem) (a b : list string) :
  get_all_videos fs (a ++ b)
  = (A ← get_all_videos fs a; B ← get_all_videos fs b; mret (A ∪ B))
  /\ get_all_videos fs (a ++ a) = get_all_videos fs a.
Proof.
  rewrite !get_all_videos_run, !mapM_app.
  destruct (mapM (listed_video_files fs) a) as [xs|e]; simpl; [|done].
  split.
  - destruct (mapM (listed_video_files fs) b) as [ys|e]; simpl; [|done].
    f_equal. by rewrite concat_app, omap_app, list_to_set_app_L.
  - f_equal. rewrite concat_app, omap_app, list_to_set_app_L. set_solver.
Qed.

(** ** Model folders, continued *)

Lemma last_char_Some (s : string) : s <> "" -> exists a, last_char s = Ok a.
Proof.
  induction s as [|x s IH]; [done|]. intros _.
  destruct s as [|y s]; [by exists x|]. destruct IH as [a Ha]; [done|].
  exists a. exact Ha.
Qed.

Lemma drop_last_app (d : string) (c : ascii) : drop_last (d +:+ String c "") = d.
Proof.
  induction d as [|x d IH]; [done|].
  change (String x d +:+ String c "") with (String x (d +:+ String c "")).
  cbn [drop_last]. rewrite IH. by destruct d.
Qed.

Lemma get_model_folders_walks (fs : filesystem) (model_dir : string) :
  model_dir <> "" ->
  get_model_folders fs model_dir
  = Ok (filter (fun p => (count sep p - count sep (walked_top model_dir) =? 2)%Z)
               (walked fs (walked_top model_dir))).
Proof.
  intros Hne. unfold get_model_folders, walked_top, endswith, walked.
  destruct (last_char_Some model_dir Hne) as [a ->].
  cbn [mbind result_bind mret result_ret].
  by rewrite fold_left_model_folders.
Qed.

(** The edges of [get_model_folders].  The empty string has no last
    character: [IndexError].  The root directory, given as "/", loses
    its only character, and a walk from the empty path meets nothing:
    the result is empty whatever the file system holds.  A path that
    names no directory gives the empty list as well, not an error. *)
Theorem get_model_folders_degenerate (fs : filesystem) :
  get_model_folders fs "" = Raise IndexError
  /\ get_model_folders fs "/" = Ok []
  /\ (forall model_dir,
        model_dir <> "" ->
        (forall es, resolve fs (walked_top model_dir) <> Some (Dir es)) ->
        get_model_folders fs model_dir = Ok []).
Proof.
  split; [done|]. split; [done|]. intros model_dir Hne Hnone.
  rewrite get_model_folders_walks by done. unfold walked, walk.
  destruct (resolve fs (walked_top model_dir)) as [[|es]|]; [done| |done].
  by destruct (Hnone es).
Qed.

(** One separator at the end of [model_dir] makes no difference. *)
Theorem get_model_folders_trailing_separator (fs : filesystem) (d : string) :
  d <> "" -> endswith sep d = false ->
  get_model_folders fs (d +:+ "/") = get_model_folders fs d.
Proof.
  intros Hne Hend.
  rewrite !get_model_folders_walks by (done || by destruct d).
  assert (walked_top (d +:+ "/") = d) as ->.
  { unfold walked_top, endswith. rewrite last_char_app. cbn [last_char].
    change (Ascii.eqb "/" sep) with true. cbv iota. apply drop_last_app. }
  assert (walked_top d = d) as ->; [|done].
  unfold walked_top. by rewrite Hend.
Qed.

Lemma get_model_folders_trailing_separator_example :
  get_model_folders fs_models ("/a" +:+ "/") = get_model_folders fs_models "/a".
Proof. by apply (get_model_folders_trailing_separator fs_models "/a"). Defined.

Lemma path_join_after_sep (top d : string) :
  endswith sep top = true -> name_ok d = true ->
  path_join top d = top +:+ d
  /\ plain_top (top +:+ d)
  /\ count sep (top +:+ d) = count sep top.
Proof.
  intros Hend [Hd Hc]%name_ok_spec. split; [|split].
  - unfold path_join. rewrite Hend, orb_true_r.
    destruct d as [|x d]; [done|]. cbn [startswith].
    cbn [count] in Hc. pose proof (count_nonneg sep d).
    destruct (Ascii.eqb x sep); [lia|]. done.
  - split.
    + destruct top; [done|]. done.
    + destruct d as [|x d]; [done|]. unfold endswith. rewrite last_char_app.
      by apply (last_char_no_sep (String x d)).
  - rewrite count_app. lia.
Qed.

(** A second separator at the end of [model_dir] is not taken off, and
    it shifts the count: [os.walk] then names the directories below
    without adding a separator of its own after the top, so the paths
    with two separators more than the top are those of the directories
    three levels below it.  (The root given as "//" is such a case.) *)
Theorem get_model_folders_after_two_separators (fs : filesystem)
    (model_dir : string) (es : list (string * node)) :
  endswith sep (walked_top model_dir) = true ->
  resolve fs (walked_top model_dir) = Some (Dir es) ->
  names_ok (Dir es) = true ->
  get_model_folders fs model_dir
  = Ok (flat_map
          (fun d1 => paths_at 2 (walked_top model_dir +:+ d1.1) d1.2) es).
Proof.
  intros Hend Hres Hok.
  rewrite get_model_folders_walks by (by intros ->).
  set (top := walked_top model_dir) in *. f_equal.
  unfold walked, walk. rewrite Hres. fold (walk_paths top (Dir es)).
  rewrite walk_paths_dir, filter_bool_cons.
  replace (count sep top - count sep top =? 2)%Z with false
    by (symmetry; apply Z.eqb_neq; lia).
  rewrite names_ok_dir, forallb_forall in Hok. clear Hres.
  induction es as [|e es IH]; [done|].
  cbn [flat_map]. rewrite filter_bool_app.
  destruct (andb_prop _ _ (Hok e (or_introl eq_refl))) as [Hd Hx].
  destruct (path_join_after_sep top e.1 Hend Hd) as (Hj & Hplain & Hcount).
  f_equal.
  - rewrite Hj, <- (walk_paths_at_depth e.2 2 _ Hx Hplain).
    apply filter_bool_ext. intros p _. by rewrite Hcount.
  - apply IH. intros x Hx'. apply Hok. by right.
Qed.

Lemma get_model_folders_after_two_separators_example :
  get_model_folders fs_models "//" = Ok ["/a/b/c"; "/a/x/y"].
Proof.
  exact (get_model_folders_after_two_separators fs_models "//"
           [("a", Dir [("b", Dir [("c", Dir [("d", Dir [])])]);
                       ("x", Dir [("y", Dir [])])])]
           eq_refl eq_refl eq_refl).
Defined.

(** ** The last two levels of a path *)

Lemma split_from_slash (s cur : string) :
  split_from "/" s 0 cur
  = match s with
    | EmptyString => [cur]
    | String a s' =>
        if Ascii.eqb a sep then cur :: split_from "/" s' 0 ""
        else split_from "/" s' 0 (cur +:+ String a "")
    end.
Proof.
  destruct s as [|a s']; [done|].
  cbn [split_from String.prefix String.length Nat.pred].
  destruct (Ascii.eqb_spec a sep) as [->|Hne].
  - destruct (ascii_dec "/" sep) as [_|Hn]; [by destruct s'|by destruct Hn].
  - destruct (ascii_dec "/" a) as [<-|_]; [by destruct Hne|done].
Qed.

Lemma count_sep_cons (x : ascii) (s : string) :
  count sep (String x s) = 0%Z -> Ascii.eqb x sep = false /\ count sep s = 0%Z.
Proof.
  cbn [count]. pose proof (count_nonneg sep s).
  destruct (Ascii.eqb x sep); [lia|]. split; [done|lia].
Qed.

Lemma split_from_no_sep (a rest cur : string) :
  count sep a = 0%Z ->
  split_from "/" (a +:+ rest) 0 cur = split_from "/" rest 0 (cur +:+ a).
Proof.
  revert cur. induction a as [|x a IH]; intros cur Hc.
  - by rewrite str_app_nil_r.
  - apply count_sep_cons in Hc as [Hx Hc].
    change (String x a +:+ rest) with (String x (a +:+ rest)).
    rewrite split_from_slash, Hx, IH, str_app_assoc by done. done.
Qed.

Lemma split_no_sep (a : string) :
  count sep a = 0%Z -> split "/" a = [a].
Proof.
  intros Hc. unfold split.
  rewrite <- (str_app_nil_r a) at 1. by rewrite split_from_no_sep.
Qed.

Lemma split_from_app_sep (pre rest cur : string) :
  split_from "/" (pre +:+ String sep rest) 0 cur
  = split_from "/" pre 0 cur ++ split_from "/" rest 0 "".
Proof.
  revert cur. induction pre as [|x pre IH]; intros cur.
  - by rewrite split_from_slash.
  - change (String x pre +:+ String sep rest)
      with (String x (pre +:+ String sep rest)).
    rewrite (split_from_slash (String x pre)), split_from_slash.
    destruct (Ascii.eqb x sep); by rewrite IH.
Qed.

Lemma split_from_parts (s cur : string) :
  count sep cur = 0%Z ->
  split_from "/" s 0 cur <> []
  /\ Forall (fun p => count sep p = 0%Z) (split_from "/" s 0 cur).
Proof.
  revert cur. induction s as [|x s IH]; intros cur Hc;
    rewrite split_from_slash.
  - split; [done|]. by constructor.
  - destruct (Ascii.eqb x sep) eqn:Hx.
    + split; [done|]. constructor; [done|]. by apply IH.
    + apply IH. rewrite count_app. cbn [count]. rewrite Hx. lia.
Qed.

Lemma last_two_snoc2 {A : Type} (l : list A) (a b : A) :
  last_two (l ++ [a; b]) = [a; b].
Proof.
  unfold last_two. rewrite length_app. cbn [length].
  replace (length l + 2 - 2) with (length l) by lia. apply drop_app_length.
Qed.

(** The last two of a non-empty list: its only item, or two of its
    items. *)
Lemma last_two_cases {A : Type} (l : list A) :
  l <> [] ->
  (exists p, l = [p] /\ last_two l = [p])
  \/ (exists a b, last_two l = [a; b] /\ In a l /\ In b l).
Proof.
  intros Hne. destruct (exists_last Hne) as (l1 & b & ->).
  destruct l1 as [|x l1] using rev_ind.
  - left. by exists b.
  - right. exists x, b. rewrite <- app_assoc. cbn [app].
    split; [apply last_two_snoc2|]. rewrite !in_app_iff. cbn. tauto.
Qed.

Lemma path_join_no_sep (a b : string) :
  a <> "" -> count sep a = 0%Z -> count sep b = 0%Z ->
  path_join a b = a +:+ String sep b.
Proof.
  intros Ha Hca Hcb. unfold path_join.
  rewrite (last_char_no_sep a Ha Hca).
  destruct a as [|x a]; [done|]. cbn [String.eqb orb].
  destruct b as [|y b]; [done|].
  apply count_sep_cons in Hcb as [Hy _]. cbn [startswith]. by rewrite Hy.
Qed.

Lemma get_model_folders_vis_run (model_folders : list string) :
  get_model_folders_vis model_folders
  = mapM (fun f => path_join_all (last_two (split "/" f))) model_folders.
Proof.
  unfold get_model_folders_vis.
  rewrite (fold_left_snoc_map (fun f => last_two (split "/" f))).
  apply mapM_map.
Qed.

Lemma last_two_levels (pre a b : string) :
  a <> "" -> count sep a = 0%Z -> count sep b = 0%Z ->
  path_join_all (last_two (split "/" (pre +:+ "/" +:+ a +:+ "/" +:+ b)))
  = Ok (a +:+ "/" +:+ b).
Proof.
  intros Ha Hca Hcb. unfold split.
  change (pre +:+ "/" +:+ a +:+ "/" +:+ b)
    with (pre +:+ String sep (a +:+ String sep b)).
  rewrite split_from_app_sep, split_from_app_sep.
  fold (split "/" a). fold (split "/" b).
  rewrite !split_no_sep by done. cbn [app].
  rewrite last_two_snoc2. cbn [path_join_all fold_left].
  by rewrite path_join_no_sep.
Qed.

(** For a path that ends in two names, [a] and then [b], after a
    separator, [get_model_folders_vis] gives these two names with a
    separator between them, whatever comes before.  It does so for each
    path of the list, in order. *)
Theorem get_model_folders_vis_last_two (model_folders vis : list string) :
  Forall2
    (fun f v =>
       exists pre a b,
         a <> "" /\ count sep a = 0%Z /\ count sep b = 0%Z
         /\ f = pre +:+ "/" +:+ a +:+ "/" +:+ b
         /\ v = a +:+ "/" +:+ b)
    model_folders vis ->
  get_model_folders_vis model_folders = Ok vis.
Proof.
  intros H. rewrite get_model_folders_vis_run. apply Forall2_mapM_Ok.
  eapply Forall2_impl; [exact H|]. clear.
  intros f v (pre & a & b & Ha & Hca & Hcb & -> & ->).
  by apply last_two_levels.
Qed.

Lemma get_model_folders_vis_last_two_example :
  get_model_folders_vis ["/a/b/c"; "models/x/y"] = Ok ["b/c"; "x/y"].
Proof.
  apply (get_model_folders_vis_last_two
           ["/a/b/c"; "models/x/y"] ["b/c"; "x/y"]).
  repeat constructor.
  - by exists "/a", "b", "c".
  - by exists "models", "x", "y".
Defined.

Lemma vis_of_vis (f : string) :
  exists v,
    path_join_all (last_two (split "/" f)) = Ok v
    /\ path_join_all (last_two (split "/" v)) = Ok v.
Proof.
  destruct (split_from_parts f "" eq_refl) as [Hne Hparts].
  fold (split "/" f) in Hne, Hparts. rewrite Forall_forall in Hparts.
  destruct (last_two_cases _ Hne) as [(p & Hp & ->)|(a & b & -> & Ha & Hb)].
  - exists p. split; [done|].
    rewrite split_no_sep; [done|]. apply Hparts. rewrite Hp. by left.
  - apply list_elem_of_In, Hparts in Ha. apply list_elem_of_In, Hparts in Hb.
    cbn [path_join_all fold_left].
    eexists. split; [reflexivity|].
    destruct (decide (a = "")) as [->|Hne'].
    + assert (path_join "" b = b) as ->.
      { unfold path_join. destruct b as [|y b]; [done|].
        apply count_sep_cons in Hb as [Hy _]. cbn [startswith]. by rewrite Hy. }
      by rewrite split_no_sep.
    + rewrite path_join_no_sep by done. unfold split.
      rewrite split_from_app_sep. fold (split "/" a). fold (split "/" b).
      rewrite !split_no_sep by done. cbn [app].
      change [a; b] with ([] ++ [a; b]). rewrite last_two_snoc2.
      cbn [path_join_all fold_left]. by rewrite path_join_no_sep.
Qed.

(** [get_model_folders_vis] raises nothing; it returns one name per
    path; and applied to its own result it changes nothing more. *)
Theorem get_model_folders_vis_idempotent (model_folders : list string) :
  exists vis,
    get_model_folders_vis model_folders = Ok vis
    /\ length vis = length model_folders
    /\ get_model_folders_vis vis = Ok vis.
Proof.
  rewrite get_model_folders_vis_run.
  assert (exists vis,
    Forall2 (fun f v =>
               path_join_all (last_two (split "/" f)) = Ok v
               /\ path_join_all (last_two (split "/" v)) = Ok v)
            model_folders vis) as [vis Hvis].
  { induction model_folders as [|f l [vis IH]]; [by exists []|].
    destruct (vis_of_vis f) as (v & Hv). exists (v :: vis). by constructor. }
  exists vis. split; [|split].
  - apply Forall2_mapM_Ok. eapply Forall2_impl; [exact Hvis|]. by intros f v [? _].
  - symmetry. by eapply Forall2_length.
  - rewrite get_model_folders_vis_run. apply Forall2_mapM_Ok.
    clear -Hvis. induction Hvis as [|f v l vis [_ Hv] _ IH]; by constructor.
Qed.

Lemma get_model_folders_two_below (fs : filesystem) (model_dir : string)
    (es : list (string * node)) :
  endswith sep (walked_top model_dir) = false ->
  resolve fs (walked_top model_dir) = Some (Dir es) ->
  names_ok (Dir es) = true ->
  get_model_folders fs model_dir = Ok (two_below (walked_top model_dir) es).
Proof.
  intros Hend Hres Hok.
  assert (walked_top model_dir <> "") as Htop.
  { intros E. unfold resolve in Hres. by rewrite E in Hres. }
  rewrite get_model_folders_walks.
  - unfold walked, walk. rewrite Hres. f_equal.
    rewrite two_below_paths_at.
    by rewrite <- (walk_paths_at_depth (Dir es) 2 _ Hok (conj Htop Hend)).
  - intros ->. by apply Htop.
Qed.

(** The two functions together: of the folders [get_model_folders]
    finds two levels below a directory, [get_model_folders_vis] keeps
    the names of the two levels, "d1/d2", in the same order. *)
Theorem get_model_folders_vis_of_model_folders (fs : filesystem)
    (model_dir : string) (es : list (string * node)) :
  endswith sep (walked_top model_dir) = false ->
  resolve fs (walked_top model_dir) = Some (Dir es) ->
  names_ok (Dir es) = true ->
  exists folders,
    get_model_folders fs model_dir = Ok folders
    /\ get_model_folders_vis folders
       = Ok (flat_map
               (fun d1 => map (fun d2 => d1.1 +:+ "/" +:+ d2.1)
                              (subdirs (entries_of (Some d1.2))))
               (subdirs es)).
Proof.
  intros Hend Hres Hok. eexists. split.
  { by apply get_model_folders_two_below. }
  rewrite get_model_folders_vis_run. apply Forall2_mapM_Ok. unfold two_below.
  set (top := walked_top model_dir). clearbody top. clear Hend Hres.
  rewrite names_ok_dir, forallb_forall in Hok.
  assert (Hsub : forall d1, In d1 (subdirs es) ->
            name_ok d1.1 = true /\ names_ok d1.2 = true).
  { intros d1 Hd1. apply andb_prop, Hok.
    by apply list_elem_of_In, list_elem_of_filter in Hd1 as [_ ?%list_elem_of_In]. }
  clear Hok. induction (subdirs es) as [|d1 ds IH]; [constructor|].
  cbn [flat_map]. apply Forall2_app.
  - destruct (Hsub d1 (or_introl eq_refl)) as [Hd1 Hx1].
    apply name_ok_spec in Hd1 as [Hne1 Hc1].
    destruct d1 as [n1 [|es1]]; [constructor|]. cbn [entries_of fst snd] in *.
    rewrite names_ok_dir, forallb_forall in Hx1.
    assert (Hsub1 : forall d2, In d2 (subdirs es1) -> name_ok d2.1 = true).
    { intros d2 Hd2. apply (andb_prop _ (names_ok d2.2)), Hx1.
      by apply list_elem_of_In, list_elem_of_filter in Hd2 as [_ ?%list_elem_of_In]. }
    clear Hx1. induction (subdirs es1) as [|d2 ds2 IH2]; [constructor|].
    cbn [map]. constructor.
    + destruct (name_ok_spec _ (Hsub1 d2 (or_introl eq_refl))) as [_ Hc2].
      by apply last_two_levels.
    + apply IH2. intros d Hd. apply Hsub1. by right.
  - apply IH. intros d Hd. apply Hsub. by right.
Qed.

Lemma get_model_folders_vis_of_model_folders_example :
  exists folders,
    get_model_folders fs_models "/a" = Ok folders
    /\ get_model_folders_vis folders = Ok ["b/c"; "x/y"].
Proof.
  exact (get_model_folders_vis_of_model_folders fs_models "/a"
           [("b", Dir [("c", Dir [("d", Dir [])])]); ("x", Dir [("y", Dir [])])]
           eq_refl eq_refl eq_refl).
Defined.

(** ** Column names across models *)

Lemma lstrip_length (s : string) : String.length (lstrip s) <= String.length s.
Proof.
  induction s as [|a s IH]; cbn [lstrip String.length]; [lia|].
  destruct (isspace a); cbn [String.length]; lia.
Qed.

Lemma lstrip_app (k rest : string) :
  lstrip k = k -> k <> "" -> lstrip (k +:+ rest) = k +:+ rest.
Proof.
  destruct k as [|a k]; [done|]. intros H _.
  cbn [lstrip] in H.
  change (String a k +:+ rest) with (String a (k +:+ rest)). cbn [lstrip].
  destruct (isspace a); [|done].
  pose proof (lstrip_length k) as Hlen. rewrite H in Hlen.
  cbn [String.length] in Hlen. lia.
Qed.

Lemma rstrip_app (x y : string) :
  rstrip y <> "" -> rstrip (x +:+ y) = x +:+ rstrip y.
Proof.
  intros Hy. induction x as [|a x IH]; [reflexivity|].
  change (String a x +:+ y) with (String a (x +:+ y)). cbn [rstrip].
  rewrite IH. change (String a x +:+ rstrip y) with (String a (x +:+ rstrip y)).
  destruct (x +:+ rstrip y) eqn:E; [|done].
  destruct x; [|done]. by destruct Hy.
Qed.

Lemma strip_joined (k c : string) :
  lstrip k = k -> rstrip c = c ->
  strip (k +:+ "_" +:+ c) = k +:+ "_" +:+ c.
Proof.
  intros Hk Hc. unfold strip.
  assert (rstrip (String "_" c) = String "_" c) as Hr.
  { cbn [rstrip]. rewrite Hc. by destruct c. }
  assert (lstrip (k +:+ "_" +:+ c) = k +:+ "_" +:+ c) as ->.
  { destruct (decide (k = "")) as [->|Hne]; [done|]. by apply lstrip_app. }
  change (k +:+ "_" +:+ c) with (k +:+ String "_" c).
  rewrite rstrip_app; by rewrite Hr.
Qed.

Lemma renamed_label_full_name (keypoint coordinate model : string) :
  lstrip keypoint = keypoint -> rstrip coordinate = coordinate ->
  renamed_label model (Levels [keypoint; coordinate])
  = Name (get_full_name keypoint coordinate model).
Proof.
  intros Hk Hc. unfold renamed_label, get_full_name, join_label, join.
  cbn [String.concat]. rewrite (strip_joined _ _ Hk Hc). f_equal.
  by rewrite !str_app_assoc.
Qed.

(** [get_col_names] and [get_full_name] give the names under which
    [concat_dfs] files a column: when every table has the column
    ([keypoint], [coordinate]), with no white space before the one or
    after the other, the merged table has, for every model, a column
    with the name that [get_col_names] lists for it. *)
Theorem get_col_names_are_merged_columns (h : heap)
    (dframes : list (string * ref)) (tables : list (string * DataFrame))
    (r : ref) (names : list string) (h' : heap)
    (keypoint coordinate : string) :
  Forall2 (fun d t => d.1 = t.1 /\ h !! d.2 = Some t.2) dframes tables ->
  concat_dfs dframes h = (Ok (r, names), h') ->
  lstrip keypoint = keypoint -> rstrip coordinate = coordinate ->
  Forall (fun t => In (Levels [keypoint; coordinate]) (labels t.2)) tables ->
  exists AB,
    h' !! r = Some AB
    /\ Forall (fun n => In (Name n) (labels AB))
              (get_col_names keypoint coordinate (map fst tables)).
Proof.
  intros Hrefs Hrun Hk Hc Hcol.
  destruct (concat_dfs_returns _ _ _ _ _ _ Hrefs Hrun)
    as (first & AB & _ & _ & Hmerged & HAB).
  exists AB. split; [done|]. rewrite (merged_labels _ _ Hmerged).
  unfold get_col_names. rewrite Forall_forall in Hcol. apply Forall_forall.
  intros n (m & <- & ((m' & T) & <- & Ht)%in_map_iff)%list_elem_of_In%in_map_iff.
  cbn [fst]. apply in_flat_map. exists (m', T). split; [done|].
  cbn [fst snd]. rewrite <- (renamed_label_full_name _ _ _ Hk Hc).
  apply in_map. by apply (Hcol (m', T)), list_elem_of_In.
Qed.

Lemma get_col_names_are_merged_columns_example :
  exists AB,
    (concat_dfs [("m0", 0); ("m1", 0)] [raw_ABC]).2 !! 3 = Some AB
    /\ Forall (fun n => In (Name n) (labels AB)) ["A_x_m0"; "A_x_m1"].
Proof.
  apply (get_col_names_are_merged_columns [raw_ABC] [("m0", 0); ("m1", 0)]
           [("m0", raw_ABC); ("m1", raw_ABC)] 3 ["A"; "B"; "C"]
           (concat_dfs [("m0", 0); ("m1", 0)] [raw_ABC]).2 "A" "x").
  - by repeat constructor.
  - reflexivity.
  - reflexivity.
  - reflexivity.
  - repeat constructor; cbn; tauto.
Defined.

Lemma underscore_free_suffix (a b n1 n2 : string) :
  count "_" n1 = 0%Z -> count "_" n2 = 0%Z ->
  a +:+ String "_" n1 = b +:+ String "_" n2 -> n1 = n2.
Proof.
  intros H1 H2. revert b. induction a as [|x a IH]; intros [|y b] E.
  - by injection E.
  - injection E as <- ->. rewrite count_app in H1. cbn [count] in H1.
    pose proof (count_nonneg "_" b). pose proof (count_nonneg "_" n2).
    change (Ascii.eqb "_" "_") with true in H1. lia.
  - injection E as -> <-. rewrite count_app in H2. cbn [count] in H2.
    pose proof (count_nonneg "_" a). pose proof (count_nonneg "_" n1).
    change (Ascii.eqb "_" "_") with true in H2. lia.
  - injection E as _ E. by apply (IH b).
Qed.

(** Columns of different models keep different names as long as the
    model names hold no underscore: after [strip_cols_append_name] has
    renamed two tables for two such models, no column of the one has
    the name of a column of the other. *)
Theorem strip_cols_append_name_tells_models_apart (h : heap) (df1 df2 : ref)
    (T1 T2 : DataFrame) (name1 name2 : string) :
  h !! df1 = Some T1 -> h !! df2 = Some T2 -> df1 <> df2 ->
  count "_" name1 = 0%Z -> count "_" name2 = 0%Z -> name1 <> name2 ->
  exists A B,
    (strip_cols_append_name df1 name1
     ≫= fun _ => strip_cols_append_name df2 name2) h
    = (Ok df2, <[df2:=B]> (<[df1:=A]> h))
    /\ forall l, In l (labels A) -> ~ In l (labels B).
Proof.
  intros H1 H2 Hne Hc1 Hc2 Hnames. exists (renamed name1 T1), (renamed name2 T2).
  split.
  - rewrite bind_run, (strip_cols_append_name_run _ _ _ _ H1).
    apply strip_cols_append_name_run. by rewrite list_lookup_insert_ne.
  - unfold labels, renamed. cbn [columns]. rewrite !map_map. cbn [fst].
    intros l (c1 & <- & _)%in_map_iff (c2 & [= E] & _)%in_map_iff.
    apply underscore_free_suffix in E; [|done..]. by apply Hnames.
Qed.

Lemma strip_cols_append_name_tells_models_apart_example :
  exists A B,
    (strip_cols_append_name 0 "m0"
     ≫= fun _ => strip_cols_append_name 1 "m1") [raw_ABC; raw_ABC]
    = (Ok 1, <[1:=B]> (<[0:=A]> [raw_ABC; raw_ABC]))
    /\ forall l, In l (labels A) -> ~ In l (labels B).
Proof.
  by apply (strip_cols_append_name_tells_models_apart [raw_ABC; raw_ABC] 0 1
              raw_ABC raw_ABC "m0" "m1").
Defined.

(** With an underscore in a model name two models can meet on one
    name. *)
Example renamed_labels_can_meet :
  renamed_label "x_m" (Levels ["A"]) = renamed_label "m" (Levels ["A"; "x"]).
Proof. reflexivity. Qed.

(** ** New tables and old ones *)

Lemma preserves_read_local_bound {A : Type} (h0 : heap) (v : option A) :
  preserves h0 (read_local v) (fun a => v = Some a).
Proof. destruct v; [by apply preserves_ret | apply preserves_lift]. Qed.

Lemma preserves_concat_dfs_fresh (h0 : heap) (dframes : list (string * ref)) :
  preserves h0 (concat_dfs dframes) (fun res => fresh_for h0 res.1).
Proof.
  unfold concat_dfs.
  set (ok := fun vars =>
               forall rc, df_concat vars = Some rc -> fresh_for h0 rc).
  eapply (preserves_bind _ _ _ ok).
  - apply preserves_for_each; [|done].
    intros [model_name dframe] vars Hvars.
    destruct (counter vars =? 0)%Z.
    + eapply preserves_bind; [apply preserves_copy|]. intros r0 Hr0.
      eapply preserves_bind; [apply preserves_load|]. intros T _.
      eapply preserves_bind; [apply preserves_lift|]. intros base _.
      eapply preserves_bind; [by apply preserves_strip_cols_append_name|].
      intros r1 Hr1. apply preserves_ret. by intros rc [= <-].
    + eapply preserves_bind; [apply preserves_copy|]. intros r0 Hr0.
      eapply preserves_bind; [by apply preserves_strip_cols_append_name|].
      intros r1 Hr1.
      eapply preserves_bind; [apply preserves_read_local|]. intros rc _.
      eapply preserves_bind; [apply preserves_load|]. intros A _.
      eapply preserves_bind; [apply preserves_load|]. intros B _.
      eapply preserves_bind; [apply preserves_lift|]. intros AB _.
      eapply preserves_bind; [apply preserves_alloc|]. intros r2 Hr2.
      apply preserves_ret. by intros rc' [= <-].
  - intros vars Hvars.
    eapply preserves_bind; [apply preserves_read_local_bound|]. intros rc Hrc.
    eapply preserves_bind; [apply preserves_read_local|]. intros base _.
    apply preserves_ret. by apply Hvars.
Qed.

(** What [concat_dfs] returns is a table of its own making: its
    reference is none of those in use when the call is made, so it is
    none of the tables of [dframes], not even when there is only
    one. *)
Theorem concat_dfs_returns_a_new_table (h : heap)
    (dframes : list (string * ref)) (r : ref) (names : list string)
    (h' : heap) :
  concat_dfs dframes h = (Ok (r, names), h') ->
  length h <= r /\ forall r0, is_Some (h !! r0) -> r0 <> r.
Proof.
  intros Hrun.
  destruct (preserves_concat_dfs_fresh h dframes h) as [_ Hfresh]; [done|].
  rewrite Hrun in Hfresh. cbn in Hfresh. unfold fresh_for in Hfresh.
  split; [done|]. intros r0 Hr0%lookup_lt_is_Some. lia.
Qed.

Lemma concat_dfs_returns_a_new_table_example :
  length [raw_ABC] <= 1 /\ forall r0, is_Some ([raw_ABC] !! r0) -> r0 <> 1.
Proof.
  apply (concat_dfs_returns_a_new_table [raw_ABC] [("m0", 0)] 1
           ["A"; "B"; "C"] (concat_dfs [("m0", 0)] [raw_ABC]).2).
  reflexivity.
Defined.

(** [get_precomputed_error], for its part, makes no table: whatever it
    does, it does to the table it is given.  The store keeps its size,
    every other table stays as it is, and what is returned is the
    reference it was called with, the table behind it having the rows
    it had. *)
Theorem get_precomputed_error_works_in_place (h : heap) (df : ref)
    (keypoint_names : list string) (model_name : string) (T : DataFrame) :
  h !! df = Some T ->
  let run := get_precomputed_error df keypoint_names model_name h in
  length run.2 = length h
  /\ (forall r, r <> df -> run.2 !! r = h !! r)
  /\ (forall r, run.1 = Ok r ->
        r = df /\ exists T', run.2 !! df = Some T' /\ index T' = index T).
Proof.
  intros HT run. unfold run.
  rewrite (get_precomputed_error_run _ _ _ _ _ HT).
  assert (Hlt : df < length h) by (by eapply lookup_lt_Some).
  destruct (precomputed_error_table keypoint_names model_name T)
    as [T'|e] eqn:Htable; cbn [fst snd].
  - split; [by rewrite length_insert|].
    split; [intros r Hr; by apply list_lookup_insert_ne|].
    intros r [= <-]. split; [done|]. exists T'.
    split; [by apply list_lookup_insert_eq|].
    by destruct (precomputed_error_table_mean _ _ _ _ Htable) as [? _].
  - split; [by rewrite length_insert|].
    split; [intros r Hr; by apply list_lookup_insert_ne|]. done.
Qed.

Lemma get_precomputed_error_works_in_place_example :
  let run := get_precomputed_error 0 ["A"; "B"; "C"] "m" [errors_ABC] in
  length run.2 = length [errors_ABC]
  /\ (forall r, r <> 0 -> run.2 !! r = [errors_ABC] !! r)
  /\ (forall r, run.1 = Ok r ->
        r = 0 /\ exists T', run.2 !! 0 = Some T' /\ index T' = index errors_ABC).
Proof.
  exact (get_precomputed_error_works_in_place [errors_ABC] 0 ["A"; "B"; "C"]
           "m" errors_ABC eq_refl).
Defined.

(** ** What [get_precomputed_error] can raise *)

Lemma filter_has_label_nil (l : label) (cols : list (label * list cell)) :
  filter (has_label l) cols = [] <-> ~ In l (map fst cols).
Proof.
  induction cols as [|c cols IH]; [split; [intros _ []|reflexivity]|].
  rewrite filter_bool_cons. cbn [map In].
  destruct (has_label l c) eqn:E.
  - apply has_label_true in E. split; [done|]. intros H. destruct H. by left.
  - apply has_label_false in E. rewrite IH. tauto.
Qed.

(** What it is for a key to stand for no column, on the one and on the
    other kind of axis. *)
Lemma columns_of_nil (k : string) (T : DataFrame) :
  columns_of k T = []
  <-> forall l, In l (labels T) -> key_of (multi_level (columns T)) l <> Some k.
Proof.
  unfold columns_of, labels. split.
  - intros E l ([l' v] & <- & Hin)%in_map_iff. cbn [fst].
    apply (has_key_false (columns T) k (l', v)).
    destruct (has_key (columns T) k (l', v)) eqn:Ek; [|done].
    assert (In (l', v) (filter (has_key (columns T) k) (columns T))) as H.
    { apply list_elem_of_In, list_elem_of_filter. split.
      - by apply Is_true_true.
      - by apply list_elem_of_In. }
    by rewrite E in H.
  - intros H. apply filter_bool_nil. intros c Hc. apply has_key_false, H.
    by apply in_map.
Qed.

Lemma columns_of_nil_flat (k : string) (T : DataFrame) :
  multi_level (columns T) = false ->
  columns_of k T = [] <-> ~ In (Name k) (labels T).
Proof.
  intros Hf. unfold columns_of. rewrite has_key_flat by done.
  apply filter_has_label_nil.
Qed.

Lemma select_columns_Raise (keys : list string) (cols : list (label * list cell))
    (e : exn) :
  select_columns keys cols = Raise e ->
  e = KeyError /\ exists k, In k keys /\ filter (has_key cols k) cols = [].
Proof.
  induction keys as [|k keys IH]; [done|]. cbn [select_columns].
  destruct (filter (has_key cols k) cols) as [|c cs] eqn:E.
  - intros [= <-]. split; [done|]. exists k. split; [by left|done].
  - destruct (select_columns keys cols) as [rest|e']; [done|].
    intros [= ->]. destruct IH as (-> & k' & Hk' & Hno); [done|].
    split; [done|]. exists k'. split; [by right|done].
Qed.

Lemma select_columns_Ok_inv (keys : list string)
    (cols sel : list (label * list cell)) :
  select_columns keys cols = Ok sel ->
  Forall (fun k => filter (has_key cols k) cols <> []) keys.
Proof.
  revert sel. induction keys as [|k keys IH]; intros sel Hsel; [constructor|].
  cbn [select_columns] in Hsel.
  destruct (filter (has_key cols k) cols) as [|c cs] eqn:E; [done|].
  destruct (select_columns keys cols) as [rest|]; [|done].
  constructor; [by rewrite E|by eapply IH].
Qed.

Lemma numbers_Raise (cs : list cell) (e : exn) :
  numbers cs = Raise e -> e = TypeError.
Proof.
  induction cs as [|[q| |s] cs IH]; cbn [numbers]; [done| |done|by intros [= <-]].
  destruct (numbers cs); [done|]. intros [= <-]. by apply IH.
Qed.

Lemma mean_axis1_Raise (idx : list ilabel) (cols : list (label * list cell))
    (e : exn) :
  mean_axis1 idx cols = Raise e -> e = TypeError.
Proof.
  unfold mean_axis1.
  destruct (mapM _ _) as [vals|e'] eqn:E; [done|]. intros [= ->].
  apply mapM_Raise in E as (i & _ & Hi). unfold row_mean in Hi.
  destruct (numbers (cells_at i cols)) as [qs|e'] eqn:En; [done|].
  injection Hi as <-. by apply numbers_Raise in En.
Qed.

(** The columns of a key once "model_name" is assigned. *)
Lemma columns_of_model_name (k : string) (v : cell) (T : DataFrame) :
  columns_of k (setitem_scalar "model_name" v T) <> []
  <-> k = "model_name" \/ columns_of k T <> [].
Proof.
  destruct (string_dec k "model_name") as [->|Hk].
  - split; [by left|]. intros _.
    destruct (put_item_has_key "model_name" (repeat v (nrows T)) (columns T))
      as (c & Hc & Hkey).
    assert (In c (columns_of "model_name" (setitem_scalar "model_name" v T)))
      as Hin; [|intros E; by rewrite E in Hin].
    apply list_elem_of_In, list_elem_of_filter. split.
    + apply Is_true_true. unfold setitem_scalar. cbn [columns].
      by rewrite has_key_put_item.
    + by apply list_elem_of_In.
  - rewrite (columns_of_put_other "model_name" k (repeat v (nrows T)) T); [|done..].
    tauto.
Qed.

Lemma precomputed_error_table_Raise (keypoint_names : list string)
    (model_name : string) (T : DataFrame) (e : exn) :
  precomputed_error_table keypoint_names model_name T = Raise e ->
  (e = KeyError
   /\ exists k, In k (removelast keypoint_names) /\ k <> "model_name"
                /\ columns_of k T = [])
  \/ (e = TypeError
      /\ Forall (fun k => k = "model_name" \/ columns_of k T <> [])
                (removelast keypoint_names)).
Proof.
  unfold precomputed_error_table.
  set (T1 := setitem_scalar "model_name" (Str model_name) T).
  destruct (mean_without_last keypoint_names T1) as [mean|e'] eqn:Hmean.
  - cbn [mbind result_bind].
    destruct (mean_without_last_spec _ _ _ Hmean) as (Hidx & _ & _).
    rewrite (setitem_series_own_index _ _ _ Hidx). cbn [mbind result_bind].
    destruct (put_item_has_key "mean" (s_values mean) (columns T1))
      as (c & Hc & _).
    unfold item, labels. cbn [columns].
    by destruct (put_item _ _ _).
  - cbn [mbind result_bind]. intros [= ->].
    unfold mean_without_last in Hmean.
    destruct (select_columns (removelast keypoint_names) (columns T1))
      as [sel|e'] eqn:Hsel; cbn [mbind result_bind] in Hmean.
    + right. split; [by apply mean_axis1_Raise in Hmean|].
      apply select_columns_Ok_inv in Hsel.
      eapply Forall_impl; [exact Hsel|]. intros k Hk.
      by apply (columns_of_model_name k (Str model_name) T).
    + injection Hmean as ->.
      apply select_columns_Raise in Hsel as (-> & k & Hk & Hno).
      left. split; [done|]. exists k. split; [done|].
      fold (columns_of k T1) in Hno.
      destruct (string_dec k "model_name") as [->|Hne].
      * exfalso. revert Hno.
        apply (columns_of_model_name "model_name" (Str model_name) T). by left.
      * split; [done|].
        destruct (columns_of k T) as [|c cs] eqn:E; [done|]. exfalso. revert Hno.
        apply (columns_of_model_name k (Str model_name) T). right.
        by rewrite E.
Qed.

(** The errors of [get_precomputed_error] on a table.  It raises
    [KeyError] exactly when one of the keypoint names but the last
    stands for no column: on a flat axis it labels none, on a header of
    several levels it is the first level of none (the name
    "model_name" always stands for one, the column being added first).
    The only other error is the [TypeError] of a mean over cells that
    are no numbers; there is never an [IndexError], the first column
    always being there to rename.  And a call that raises has changed
    the table all the same: the column "model_name" is in it. *)
Theorem get_precomputed_error_errors (h : heap) (df : ref)
    (keypoint_names : list string) (model_name : string) (T : DataFrame) :
  h !! df = Some T ->
  let run := get_precomputed_error df keypoint_names model_name h in
  (run.1 = Raise KeyError
   <-> exists k, In k (removelast keypoint_names) /\ k <> "model_name"
                 /\ forall l, In l (labels T) ->
                      key_of (multi_level (columns T)) l <> Some k)
  /\ (forall e, run.1 = Raise e ->
        (e = KeyError \/ e = TypeError)
        /\ run.2 = <[df:=setitem_scalar "model_name" (Str model_name) T]> h).
Proof.
  intros HT run. unfold run.
  rewrite (get_precomputed_error_run _ _ _ _ _ HT).
  assert (Hnil : forall k,
            (forall l, In l (labels T) ->
               key_of (multi_level (columns T)) l <> Some k)
            <-> columns_of k T = []).
  { intros k. symmetry. apply columns_of_nil. }
  destruct (precomputed_error_table keypoint_names model_name T)
    as [T'|e] eqn:Htable; cbn [fst snd].
  - split; [|done]. split; [done|]. intros (k & Hk & Hne & Hno).
    apply Hnil in Hno.
    unfold precomputed_error_table, mean_without_last in Htable.
    destruct (select_columns _ _) as [sel|e] eqn:Hsel; [|done].
    apply select_columns_Ok_inv in Hsel. rewrite Forall_forall in Hsel.
    apply list_elem_of_In, Hsel in Hk.
    apply (columns_of_model_name k (Str model_name) T) in Hk. tauto.
  - apply precomputed_error_table_Raise in Htable
      as [(-> & Hk)|(-> & Hall)].
    + split; [|intros e [= <-]; split; [by left|done]].
      split; [intros _|done]. destruct Hk as (k & Hk & Hne & Hno).
      exists k. split; [done|]. split; [done|]. by apply Hnil.
    + split.
      * split; [done|]. intros (k & Hk & Hne & Hno). apply Hnil in Hno.
        rewrite Forall_forall in Hall.
        apply list_elem_of_In, Hall in Hk. tauto.
      * intros e [= <-]. split; [by right|done].
Qed.

Lemma get_precomputed_error_errors_example :
  let run := get_precomputed_error 0 ["A"; "nose"; "C"] "m" [errors_ABC] in
  (run.1 = Raise KeyError
   <-> exists k, In k (removelast ["A"; "nose"; "C"]) /\ k <> "model_name"
                 /\ forall l, In l (labels errors_ABC) ->
                      key_of (multi_level (columns errors_ABC)) l <> Some k)
  /\ (forall e, run.1 = Raise e ->
        (e = KeyError \/ e = TypeError)
        /\ run.2 = <[0:=setitem_scalar "model_name" (Str "m") errors_ABC]>
                     [errors_ABC]).
Proof.
  exact (get_precomputed_error_errors [errors_ABC] 0 ["A"; "nose"; "C"] "m"
           errors_ABC eq_refl).
Defined.

(** On the table of predictions, with its header of two levels, the
    keypoints are first levels: the call returns for A, B and C, and
    raises [KeyError] for a keypoint the header does not have. *)
Example get_precomputed_error_two_levels :
  (get_precomputed_error 0 ["A"; "B"; "C"] "m" [preds_ABC]).1 = Ok 0
  /\ (get_precomputed_error 0 ["A"; "nose"; "C"] "m" [preds_ABC]).1
     = Raise KeyError.
Proof. split; reflexivity. Qed.

Lemma mapM_const {A B : Type} (f : A -> result B) (c : B) (l : list A) :
  (forall x, f x = Ok c) -> mapM f l = Ok (repeat c (length l)).
Proof.
  intros Hf. induction l as [|x l IH]; [done|].
  cbn [mapM length repeat]. rewrite Hf. cbn. by rewrite IH.
Qed.

(** With one keypoint name, or none, there is nothing left to average
    once the last name is put aside: [get_precomputed_error] then
    returns for every table, and its columns for "mean" hold the
    missing value in every row. *)
Theorem get_precomputed_error_one_keypoint (h : heap) (df : ref)
    (keypoint_names : list string) (model_name : string) (T : DataFrame) :
  h !! df = Some T -> length keypoint_names <= 1 ->
  exists T',
    get_precomputed_error df keypoint_names model_name h
    = (Ok df, <[df:=T']> h)
    /\ (head (labels T) <> Some (Name "mean") -> columns_of "mean" T' <> [])
    /\ (forall c, In c (columns_of "mean" T') -> c.2 = repeat NaN (nrows T))
    /\ (multi_level (columns T) = false ->
        head (labels T) <> Some (Name "mean") -> In (Name "mean") (labels T'))
    /\ (forall col, In (Name "mean", col) (columns T') ->
                    col = repeat NaN (nrows T)).
Proof.
  intros HT Hlen. rewrite (get_precomputed_error_run _ _ _ _ _ HT).
  assert (removelast keypoint_names = []) as Hnone.
  { destruct keypoint_names as [|k [|k' ks]]; [done|done|cbn in Hlen; lia]. }
  assert (exists T', precomputed_error_table keypoint_names model_name T = Ok T')
    as [T' Htable].
  { unfold precomputed_error_table, mean_without_last.
    rewrite Hnone. cbn [select_columns mbind result_bind].
    unfold mean_axis1. rewrite (mapM_const _ NaN) by done.
    cbn [mbind result_bind mret result_ret].
    rewrite setitem_series_own_index by done. cbn [mbind result_bind].
    set (T2 := {| index := _; columns := _ |}).
    destruct (put_item_has_key "mean" (repeat NaN (length (seq 0 (length (index T)))))
                (columns (setitem_scalar "model_name" (Str model_name) T)))
      as (c & Hc & _).
    unfold item, labels, T2. cbn [columns index setitem_scalar] in Hc |- *.
    destruct (put_item "mean" _ _) as [|c0 cs]; [done|]. by eexists. }
  rewrite Htable. exists T'. split; [done|].
  destruct (precomputed_error_table_mean _ _ _ _ Htable)
    as (_ & Hkind & Hmean & Hrows).
  assert (Hnan : forall c, In c (columns_of "mean" T') ->
                           c.2 = repeat NaN (nrows T)); [|split; [done|]; split; [done|]; split].
  2:{ intros Hf Hh.
      destruct (decide (Name "mean" ∈ labels T')) as [H|H];
        [by apply list_elem_of_In|].
      exfalso. apply (Hmean Hh). apply columns_of_nil_flat; [congruence|].
      by rewrite <- list_elem_of_In. }
  2:{ intros col Hin. apply (Hnan (Name "mean", col)).
      assert (multi_level (columns T') = false) as Hf.
      { apply (flat_of_name _ "mean"). apply in_map_iff.
        by exists (Name "mean", col). }
      unfold columns_of. apply list_elem_of_In, list_elem_of_filter.
      split; [|by apply list_elem_of_In].
      rewrite has_key_flat by done. apply Is_true_true. by apply has_label_true. }
  intros c Hc.
  assert (length c.2 = nrows T) as Hlenc.
  { destruct (precomputed_error_table_steps _ _ _ _ Htable)
      as (mean & first & Hm & Hfirst & ->).
    destruct (mean_without_last_spec _ _ _ Hm) as (_ & Hl & _).
    assert (In c (put_item "mean" (s_values mean)
                    (columns (setitem_scalar "model_name" (Str model_name) T)))
            /\ has_key (put_item "mean" (s_values mean)
                    (columns (setitem_scalar "model_name" (Str model_name) T)))
                 "mean" c = true) as [Hin Hkey].
    { apply list_elem_of_In, list_elem_of_filter in Hc as [Hkey Hc].
      apply Is_true_true in Hkey. apply list_elem_of_In in Hc.
      set (T2 := {| index := index T; columns := _ |}) in *.
      assert (multi_level (columns (rename_column first "img_file" T2))
              = multi_level (columns T2)) as Hk by (by apply multi_level_rename).
      rewrite (has_key_kind _ (columns T2) Hk) in Hkey.
      destruct (multi_level (columns T2)) eqn:Hm2.
      - by rewrite rename_column_multi in Hc.
      - rewrite rename_column_flat in Hc by done.
        apply in_map_iff in Hc as (c0 & Hc0 & Hin).
        destruct (has_label first c0); [|by subst c0].
        subst c. rewrite has_key_flat in Hkey by done.
        by apply bool_decide_eq_true in Hkey. }
    rewrite has_key_put_item in Hkey.
    rewrite (put_item_values _ _ _ _ Hin Hkey). exact Hl. }
  apply list_eq_same_length with (nrows T); [by rewrite repeat_length|done|].
  intros i x y Hi Hx Hy.
  destruct (Hrows c i Hc Hi) as (m & Hm & Hmean_i).
  rewrite Hnone in Hmean_i. cbn in Hmean_i. injection Hmean_i as <-.
  rewrite lookup_repeat in Hy by done. congruence.
Qed.

Lemma get_precomputed_error_one_keypoint_example :
  exists T',
    get_precomputed_error 0 ["A"] "m" [errors_ABC] = (Ok 0, <[0:=T']> [errors_ABC])
    /\ (head (labels errors_ABC) <> Some (Name "mean") ->
        columns_of "mean" T' <> [])
    /\ (forall c, In c (columns_of "mean" T') ->
                  c.2 = repeat NaN (nrows errors_ABC))
    /\ (multi_level (columns errors_ABC) = false ->
        head (labels errors_ABC) <> Some (Name "mean") ->
        In (Name "mean") (labels T'))
    /\ (forall col, In (Name "mean", col) (columns T') ->
                    col = repeat NaN (nrows errors_ABC)).
Proof.
  apply (get_precomputed_error_one_keypoint [errors_ABC] 0 ["A"] "m" errors_ABC).
  - reflexivity.
  - cbn. lia.
Defined.

(** ** What [compute_confidence] refuses *)

Lemma fill_keypoints_raise (h : heap) (keypoints : nat)
    (results : list (list cell)) (todo : list (nat * string)) :
  forall X e,
    fill_keypoints keypoints results todo X = Raise e ->
    (for_each todo
       (fun '(c, col) (_ : unit) =>
          values ← lift (array_column keypoints c results);
          in_place (length h) (setitem_values col values))
       () (h ++ [X])).1
    = Raise e.
Proof.
  unfold fill_keypoints.
  induction todo as [|[c col] todo IH]; intros X e H; [done|].
  cbn [for_each] in H |- *. rewrite bind_run, bind_run. unfold lift.
  destruct (array_column keypoints c results) as [values|e'];
    [|by injection H as <-].
  cbn [mbind result_bind] in H. rewrite in_place_last.
  destruct (setitem_values col values X) as [X1|e']; [|by injection H as <-].
  by apply IH.
Qed.

Lemma compute_confidence_result (h : heap) (df : ref)
    (keypoint_names : list string) (model_name : string) (T : DataFrame) :
  h !! df = Some T ->
  (compute_confidence df keypoint_names model_name h).1
  = (fun _ => length h) <$> confidence_table keypoint_names model_name T.
Proof.
  intros HT.
  destruct (confidence_table keypoint_names model_name T) as [T'|e] eqn:Htable.
  { by rewrite (compute_confidence_total _ _ _ _ _ _ HT Htable). }
  cbn [fmap result_fmap]. unfold compute_confidence.
  unfold confidence_table, third_slots_and_set in Htable.
  rewrite bind_run, (load_run _ _ T) by done. rewrite bind_run.
  destruct (Nat.eqb (ncols T mod 3) 1).
  - rewrite bind_run. unfold lift at 1.
    destruct (reshape_3 _ _ _) as [tmp|e0]; [|by injection Htable as <-].
    rewrite bind_run. unfold lift at 1.
    cbn [mbind result_bind] in Htable.
    destruct (last_column T) as [set_|e0]; [|by injection Htable as <-].
    rewrite ret_run. cbn [mbind result_bind mret result_ret] in Htable.
    rewrite bind_run. unfold alloc at 1. rewrite bind_run.
    destruct (fill_keypoints _ _ _ _) as [T0|e0] eqn:Hfill.
    2:{ injection Htable as <-.
        pose proof (fill_keypoints_raise h _ _ _ _ _ Hfill) as Hr.
        match type of Hr with
        | (?run).1 = _ => destruct run as [[u|e1] h1]
        end; cbn in Hr; [done|].
        by injection Hr as <-. }
    cbn [mbind result_bind] in Htable.
    rewrite (fill_keypoints_total _ _ _ _ _ _ Hfill).
    rewrite bind_run, in_place_last.
    rewrite bind_run, (load_run _ _ _ (lookup_last _ _)).
    rewrite bind_run. unfold lift at 1.
    destruct (mean_without_last _ _) as [mean|e0]; [|by injection Htable as <-].
    cbn [mbind result_bind] in Htable.
    rewrite bind_run, in_place_last.
    destruct (setitem_series "mean" mean _) as [T2|e0];
      [|by injection Htable as <-].
    cbn [mbind result_bind] in Htable.
    rewrite bind_run, bind_run, in_place_last.
    destruct (setitem_values "set" set_ T2) as [T3|e0];
      [|by injection Htable as <-].
    cbn [mbind result_bind] in Htable.
    rewrite bind_run, (load_run _ _ T) by (by apply lookup_app_l_Some).
    by rewrite in_place_last, Htable.
  - rewrite bind_run. unfold lift at 1.
    destruct (reshape_3 _ _ _) as [tmp|e0]; [|by injection Htable as <-].
    rewrite ret_run. cbn [mbind result_bind mret result_ret] in Htable.
    rewrite bind_run. unfold alloc at 1. rewrite bind_run.
    destruct (fill_keypoints _ _ _ _) as [T0|e0] eqn:Hfill.
    2:{ injection Htable as <-.
        pose proof (fill_keypoints_raise h _ _ _ _ _ Hfill) as Hr.
        match type of Hr with
        | (?run).1 = _ => destruct run as [[u|e1] h1]
        end; cbn in Hr; [done|].
        by injection Hr as <-. }
    cbn [mbind result_bind] in Htable.
    rewrite (fill_keypoints_total _ _ _ _ _ _ Hfill).
    rewrite bind_run, in_place_last.
    rewrite bind_run, (load_run _ _ _ (lookup_last _ _)).
    rewrite bind_run. unfold lift at 1.
    destruct (mean_without_last _ _) as [mean|e0]; [|by injection Htable as <-].
    cbn [mbind result_bind] in Htable.
    rewrite bind_run, in_place_last.
    destruct (setitem_series "mean" mean _) as [T2|e0];
      [|by injection Htable as <-].
    done.
Qed.
(** A table without rows, or one whose number of columns leaves the
    remainder 2 on division by 3, cannot be laid out in triples:
    [compute_confidence] raises [ValueError] before it makes any
    table. *)
Theorem compute_confidence_refuses (h : heap) (df : ref)
    (keypoint_names : list string) (model_name : string) (T : DataFrame) :
  h !! df = Some T ->
  nrows T = 0 \/ ncols T mod 3 = 2 ->
  compute_confidence df keypoint_names model_name h = (Raise ValueError, h).
Proof.
  intros HT Hbad. unfold compute_confidence.
  rewrite bind_run, (load_run _ _ T) by done. rewrite bind_run.
  destruct (Nat.eqb_spec (ncols T mod 3) 1) as [H1|H1].
  - destruct Hbad as [Hn|H2]; [|lia].
    rewrite bind_run. unfold lift at 1, reshape_3. by rewrite Hn.
  - rewrite bind_run. unfold lift at 1, reshape_3.
    destruct Hbad as [Hn|H2]; [by rewrite Hn|].
    rewrite H2. cbn [Nat.eqb negb]. by rewrite orb_true_r.
Qed.

Lemma compute_confidence_refuses_example :
  compute_confidence 0 ["nose"] "m" [scatter_A]
  = (Raise ValueError, [scatter_A])
  /\ compute_confidence 0 ["A"] "m" [empty_frame ["A"; "B"; "C"]]
     = (Raise ValueError, [empty_frame ["A"; "B"; "C"]]).
Proof.
  split.
  - apply (compute_confidence_refuses [scatter_A] 0 ["nose"] "m" scatter_A);
      [reflexivity|]. by right.
  - apply (compute_confidence_refuses [empty_frame ["A"; "B"; "C"]] 0 ["A"] "m"
             (empty_frame ["A"; "B"; "C"])); [reflexivity|]. by left.
Defined.

Lemma fill_keypoints_out_of_range (keypoints : nat)
    (results : list (list cell)) (todo : list (nat * string)) :
  results <> [] ->
  Exists (fun ck => keypoints <= ck.1) todo ->
  forall X, nrows X = 0 \/ nrows X = length results ->
    fill_keypoints keypoints results todo X = Raise IndexError.
Proof.
  intros Hres. unfold fill_keypoints.
  induction todo as [|[c col] todo IH]; intros Hex X HX.
  - by apply Exists_nil in Hex.
  - cbn [for_each]. unfold array_column.
    destruct (Nat.ltb_spec c keypoints) as [Hc|Hc]; [|done].
    cbn [mbind result_bind].
    set (vals := map (fun row => nth c row NaN) results).
    assert (length vals = length results) as Hlen by apply length_map.
    destruct (setitem_values_fits col vals X) as (X1 & -> & Hn1).
    { intros E. apply Hres. destruct results; [done|]. done. }
    { by rewrite Hlen. }
    apply IH.
    + apply Exists_cons in Hex as [Hhead|Htail]; [cbn in Hhead; lia|done].
    + right. by rewrite Hn1.
Qed.

(** More keypoint names than the table has triples of columns is an
    [IndexError]: the column of the first name too many is not in the
    array. *)
Theorem compute_confidence_too_many_names (h : heap) (df : ref)
    (keypoint_names : list string) (model_name : string) (T : DataFrame) :
  h !! df = Some T ->
  nrows T <> 0 -> ncols T mod 3 <> 2 ->
  ncols T / 3 < length keypoint_names ->
  (compute_confidence df keypoint_names model_name h).1 = Raise IndexError.
Proof.
  intros HT Hn Hm Hmany.
  rewrite (compute_confidence_result _ _ _ _ _ HT). unfold confidence_table.
  destruct (third_slots_and_set_Ok T Hn Hm) as (results & set_ & -> & Hlen).
  cbn [mbind result_bind].
  rewrite fill_keypoints_out_of_range; [done| | |by left].
  - intros ->. cbn in Hlen. lia.
  - destruct (lookup_lt_is_Some_2 keypoint_names (ncols T / 3) Hmany) as [k Hk].
    apply Exists_exists. exists (ncols T / 3, k). split; [|done].
    by apply list_elem_of_In, imap_pair_In.
Qed.

Lemma compute_confidence_too_many_names_example :
  (compute_confidence 0 ["A"; "B"; "C"; "D"] "m" [preds_ABC]).1
  = Raise IndexError.
Proof.
  apply (compute_confidence_too_many_names [preds_ABC] 0
           ["A"; "B"; "C"; "D"] "m" preds_ABC).
  - reflexivity.
  - done.
  - done.
  - cbn. lia.
Defined.

Lemma fill_keypoints_keeps_index (keypoints : nat) (results : list (list cell))
    (todo : list (nat * string)) :
  forall X X',
    nrows X <> 0 ->
    fill_keypoints keypoints results todo X = Ok X' -> index X' = index X.
Proof.
  unfold fill_keypoints.
  induction todo as [|[c col] todo IH]; intros X X' Hn H.
  - by injection H as <-.
  - cbn [for_each] in H.
    destruct (array_column keypoints c results) as [vals|]; [|done].
    cbn [mbind result_bind] in H.
    destruct (setitem_values col vals X) as [X1|] eqn:E; [|done].
    destruct (setitem_values_nonempty _ _ _ _ Hn E) as [Hlen ->].
    cbn [mbind result_bind] in H. by apply IH in H.
Qed.

Lemma confidence_table_index (keypoint_names : list string)
    (model_name : string) (T T' : DataFrame) :
  keypoint_names <> [] ->
  confidence_table keypoint_names model_name T = Ok T' ->
  index T' = range_index (nrows T).
Proof.
  intros Hk Hrun. unfold confidence_table in Hrun.
  destruct (third_slots_and_set T) as [[[results keypoints] set_]|e] eqn:Hthird;
    [|done].
  destruct (third_slots_and_set_rows _ _ _ _ Hthird) as [Hn Hlen].
  cbn [mbind result_bind] in Hrun.
  destruct (fill_keypoints _ _ _ _) as [T0|e] eqn:Hfill; [|done].
  cbn [mbind result_bind] in Hrun.
  assert (index T0 = range_index (nrows T)) as H0.
  { destruct keypoint_names as [|k ks]; [done|].
    unfold fill_keypoints in Hfill. cbn [imap for_each] in Hfill.
    destruct (array_column keypoints 0 results) as [vals|] eqn:Ea; [|done].
    cbn [mbind result_bind] in Hfill.
    assert (length vals = nrows T) as Hv.
    { unfold array_column in Ea. destruct (Nat.ltb 0 keypoints); [|done].
      injection Ea as <-. by rewrite length_map. }
    rewrite setitem_values_first in Hfill;
      [|done|intros ->; cbn in Hv; lia].
    cbn [mbind result_bind] in Hfill.
    apply fill_keypoints_keeps_index in Hfill.
    - rewrite Hfill. cbn [index]. by rewrite Hv.
    - unfold nrows, range_index. cbn [index].
      rewrite length_map, length_seq. lia. }
  set (T1 := setitem_scalar "model_name" (Str model_name) T0) in *.
  destruct (mean_without_last keypoint_names T1) as [mean|e] eqn:Hmean; [|done].
  cbn [mbind result_bind] in Hrun.
  destruct (mean_without_last_spec _ _ _ Hmean) as (Hidx & _ & _).
  rewrite (setitem_series_own_index _ _ _ Hidx) in Hrun.
  cbn [mbind result_bind] in Hrun.
  assert (nrows T1 <> 0) as Hn1.
  { unfold nrows, T1. cbn [setitem_scalar index]. rewrite H0.
    unfold range_index. by rewrite length_map, length_seq. }
  destruct set_ as [set_|].
  - destruct (setitem_values "set" set_ _) as [T3|] eqn:E3; [|done].
    cbn [mbind result_bind] in Hrun.
    apply setitem_values_nonempty in E3 as [_ ->]; [|done].
    apply setitem_values_nonempty in Hrun as [_ ->]; [|done].
    done.
  - by injection Hrun as <-.
Qed.

Lemma select_columns_Ok (keys : list string) (cols : list (label * list cell)) :
  Forall (fun k => filter (has_key cols k) cols <> []) keys ->
  exists sel, select_columns keys cols = Ok sel.
Proof.
  induction 1 as [|k keys Hk _ [rest IH]]; [by exists []|].
  cbn [select_columns].
  destruct (filter (has_key cols k) cols) as [|c cs]; [done|].
  rewrite IH. by eexists.
Qed.

(** The mean can be taken when every key stands for a column and the
    cells under the keys are numbers or missing. *)
Lemma mean_without_last_Ok (keypoint_names : list string) (T : DataFrame) :
  Forall (fun k => columns_of k T <> []) (removelast keypoint_names) ->
  (forall i, i < nrows T ->
     Forall (fun c => numeric c = true)
            (keypoint_cells (removelast keypoint_names) T i)) ->
  exists mean, mean_without_last keypoint_names T = Ok mean.
Proof.
  intros Hkeys Hnum. unfold mean_without_last.
  destruct (select_columns_Ok _ _ Hkeys) as [sel Hsel]. rewrite Hsel.
  cbn [mbind result_bind]. unfold mean_axis1.
  destruct (mapM_Ok_exists (fun i => row_mean (cells_at i sel))
              (seq 0 (length (index T)))) as [vals ->]; [|by eexists].
  apply Forall_forall. intros i Hi%elem_of_seq.
  rewrite (select_columns_cells _ _ _ i Hsel). eexists.
  apply row_mean_numeric, Hnum. unfold nrows. lia.
Qed.

(** [get_precomputed_error] returns on a table in which every keypoint
    name but the last stands for a column of numbers. *)
Lemma precomputed_error_table_Ok (keypoint_names : list string)
    (model_name : string) (T : DataFrame) :
  Forall (fun k => columns_of k T <> []) (removelast keypoint_names) ->
  ~ In "model_name" (removelast keypoint_names) ->
  (forall i, i < nrows T ->
     Forall (fun c => numeric c = true)
            (keypoint_cells (removelast keypoint_names) T i)) ->
  exists T', precomputed_error_table keypoint_names model_name T = Ok T'.
Proof.
  intros Hkeys Hmn Hnum. unfold precomputed_error_table.
  set (T1 := setitem_scalar "model_name" (Str model_name) T).
  destruct (mean_without_last_Ok keypoint_names T1) as [mean Hmean].
  { eapply Forall_impl; [exact Hkeys|]. intros k Hk.
    apply columns_of_model_name. by right. }
  { intros i Hi.
    rewrite (keypoint_cells_put_other _ "model_name"
               (repeat (Str model_name) (nrows T)) T); [|done..].
    by apply Hnum. }
  rewrite Hmean. cbn [mbind result_bind].
  destruct (mean_without_last_spec _ _ _ Hmean) as (Hidx & _ & _).
  rewrite (setitem_series_own_index _ _ _ Hidx). cbn [mbind result_bind].
  destruct (put_item_has_key "mean" (s_values mean) (columns T1))
    as (c & Hc & _).
  unfold item, labels. cbn [columns].
  destruct (put_item _ _ _) as [|c0 cs]; [done|]. by eexists.
Qed.

Lemma fill_keypoints_Ok (keypoints : nat) (results : list (list cell))
    (todo : list (nat * string)) :
  results <> [] ->
  Forall (fun ck => ck.1 < keypoints) todo ->
  forall X, nrows X = 0 \/ nrows X = length results ->
    exists X', fill_keypoints keypoints results todo X = Ok X'.
Proof.
  intros Hres. unfold fill_keypoints.
  induction todo as [|[c col] todo IH]; intros Hall X HX; [by eexists|].
  apply Forall_cons in Hall as [Hc Hall]. cbn [fst] in Hc.
  cbn [for_each]. unfold array_column.
  destruct (Nat.ltb_spec c keypoints) as [_|]; [|lia].
  cbn [mbind result_bind].
  set (vals := map (fun row => nth c row NaN) results).
  assert (length vals = length results) as Hlen by apply length_map.
  destruct (setitem_values_fits col vals X) as (X1 & -> & Hn1).
  { intros E. apply Hres. destruct results; [done|]. done. }
  { by rewrite Hlen. }
  apply IH; [done|]. right. by rewrite Hn1.
Qed.

Lemma removelast_lookup {A : Type} (l : list A) (x : A) :
  In x (removelast l) ->
  exists c, c < length (removelast l) /\ l !! c = Some x.
Proof.
  intros [c Hc]%list_elem_of_In%list_elem_of_lookup. exists c.
  split; [by eapply lookup_lt_Some|].
  rewrite removelast_firstn_len in Hc.
  by apply lookup_take_Some in Hc as [? _].
Qed.

(** [compute_confidence] can make its table of a well-formed table
    with rows, whose columns come in triples (with or without one
    more), for distinct keypoint names, none of them one of the names
    it gives to its own columns, no more of them than there are
    triples, provided the third slots of all keypoints but the last
    are numbers or missing. *)
Lemma confidence_table_Ok (keypoint_names : list string)
    (model_name : string) (T : DataFrame) :
  well_formed T = true -> nrows T <> 0 -> ncols T mod 3 <> 2 ->
  length keypoint_names <= ncols T / 3 ->
  NoDup keypoint_names ->
  Forall (fun k => ~ In k reserved_names) keypoint_names ->
  (forall i c, i < nrows T -> c < length (removelast keypoint_names) ->
     numeric (nth (3 * c + 2) (cells_at i (columns T)) NaN) = true) ->
  exists T', confidence_table keypoint_names model_name T = Ok T'.
Proof.
  intros Hwf Hn Hm Hlen Hnd Hres Hnum. unfold confidence_table.
  destruct (third_slots_and_set_Ok T Hn Hm) as (results & set_ & Hthird & Hlenr).
  rewrite Hthird. cbn [mbind result_bind].
  destruct (third_slots_and_set_spec _ _ _ _ Hthird) as [Hshape Hslots].
  assert (Hres0 : results <> []).
  { intros ->. cbn in Hlenr. lia. }
  destruct (fill_keypoints_Ok (ncols T / 3) results (imap pair keypoint_names)
              Hres0) with (X := empty_frame keypoint_names) as [T0 Hfill].
  { apply Forall_forall. intros [c k] Hck%list_elem_of_In%imap_pair_In.
    apply lookup_lt_Some in Hck. cbn [fst]. lia. }
  { left. by destruct keypoint_names. }
  rewrite Hfill. cbn [mbind result_bind].
  set (T1 := setitem_scalar "model_name" (Str model_name) T0).
  assert (Hf0 : multi_level (columns T0) = false)
    by (by eapply fill_keypoints_flat).
  assert (HL0 : labels T0 = map Name keypoint_names).
  { rewrite (fun H => fill_keypoints_labels _ _ _ _ _ H Hfill).
    - unfold labels, empty_frame. cbn [columns]. by rewrite map_map.
    - apply Forall_forall. intros [c k] Hck%list_elem_of_In.
      apply imap_pair_In in Hck. cbn [snd].
      unfold labels, empty_frame. cbn [columns]. rewrite map_map. cbn [fst].
      apply in_map. apply list_elem_of_In. by eapply list_elem_of_lookup_2. }
  assert (Hmn : ~ In "model_name" (removelast keypoint_names)).
  { intros [c [_ Hc]]%removelast_lookup. rewrite Forall_forall in Hres.
    apply (Hres "model_name"); [by eapply list_elem_of_lookup_2|].
    cbn. tauto. }
  assert (HN0 : removelast keypoint_names <> [] -> nrows T0 = nrows T).
  { intros Hk. destruct (fill_keypoints_nrows _ _ _ _ _ Hfill) as [[E _]|[_ H0]].
    - destruct keypoint_names; [done|]. done.
    - by rewrite H0. }
  destruct (mean_without_last_Ok keypoint_names T1) as [mean Hmean].
  { apply Forall_forall. intros k [c [_ Hc]]%list_elem_of_In%removelast_lookup.
    apply columns_of_model_name. right.
    rewrite (columns_of_nil_flat k T0 Hf0). intros Hno. apply Hno.
    rewrite HL0. apply in_map, list_elem_of_In.
    by eapply list_elem_of_lookup_2. }
  { intros i Hi.
    rewrite (keypoint_cells_put_other _ "model_name"
               (repeat (Str model_name) (nrows T0)) T0); [|done..].
    apply Forall_forall. intros x Hx%list_elem_of_In.
    unfold keypoint_cells in Hx. apply in_flat_map in Hx as (k & Hk & Hx).
    assert (removelast keypoint_names <> []) as Hne by (by intros E; rewrite E in Hk).
    replace (nrows T1) with (nrows T0) in Hi by done. rewrite (HN0 Hne) in Hi.
    apply removelast_lookup in Hk as (c & Hc & Hck).
    unfold cells_at in Hx. apply in_map_iff in Hx as ([l col] & <- & Hin).
    apply list_elem_of_In, list_elem_of_filter in Hin as [Hkey Hin].
    apply Is_true_true in Hkey. rewrite has_key_flat in Hkey by done.
    apply has_label_true in Hkey. cbn [fst snd] in *. subst l.
    apply list_elem_of_In in Hin.
    apply (fill_keypoints_values _ _ _ _ _ Hres0) with (c := c) (key := k)
      in Hfill as [Hc' Hval];
      [| by rewrite imap_pair_snd | by apply imap_pair_In].
    rewrite (Hval col Hin).
    destruct (Hslots i c Hi Hc') as (row & Hrow & Hnth).
    rewrite (nth_lookup_Some _ _ _ (nth c row NaN)).
    - rewrite Hnth. by apply Hnum.
    - by rewrite list_lookup_fmap, Hrow. }
  rewrite Hmean. cbn [mbind result_bind].
  destruct (mean_without_last_spec _ _ _ Hmean) as (Hidx & _ & _).
  rewrite (setitem_series_own_index _ _ _ Hidx). cbn [mbind result_bind].
  set (T2 := {| index := index T1; columns := _ |}).
  destruct Hshape as [(_ & -> & _)|(H1 & _ & clast & Hlast & ->)];
    [by eexists|].
  assert (Hsv : length clast.2 = nrows T) by (by apply well_formed_last).
  assert (nrows T2 = 0 \/ nrows T2 = length clast.2) as Hrows2.
  { replace (nrows T2) with (nrows T0) by done.
    destruct (fill_keypoints_nrows _ _ _ _ _ Hfill) as [[E ->]|[_ H0]].
    - left. by destruct keypoint_names.
    - right. by rewrite H0, Hsv. }
  destruct (setitem_values_fits "set" clast.2 T2) as (T3 & -> & Hn3);
    [by intros E; rewrite E in Hsv|done|].
  cbn [mbind result_bind].
  destruct (setitem_values_fits "img_file" (map cell_of_ilabel (index T)) T3)
    as (T4 & -> & _); [| |by eexists].
  - intros E. apply (f_equal (@length _)) in E. rewrite length_map in E.
    cbn in E. done.
  - right. by rewrite length_map, Hn3, Hsv.
Qed.

(** C1.  The "mean" column of the two functions, with the conditions
    under which they return.

    [get_precomputed_error] returns, on the table it was given, when
    every keypoint name but the last stands for a column of that table
    ("model_name" not being one of these names) and the cells of these
    columns are numbers or missing.  Every row of the columns for
    "mean" then holds the arithmetic mean of the numbers which that row
    has in the columns of the keypoint names but the last, missing
    cells being skipped (and the missing value when no number is
    left).  There is such a column unless the first column of a flat
    table was itself labelled "mean", which the final renaming to
    "img_file" then takes along.  On a flat axis the columns of a name
    are those it labels; on a header of two levels they are those under
    it, so that the mean is over x, y and likelihood.

    [compute_confidence] returns a new table for a well-formed table
    with rows, whose columns come in triples (with or without one
    more), and distinct keypoint names, none of them a name of its own
    columns and no more of them than triples, when the third slots of
    the keypoints but the last are numbers or missing.  Every row of
    its "mean" column holds the arithmetic mean of the numbers which
    that row of the new table has in the columns of the keypoint names
    but the last. *)
Theorem mean_column_skips_last_keypoint (h : heap) (df : ref)
    (keypoint_names : list string) (model_name : string) (T : DataFrame) :
  h !! df = Some T ->
  let keys := removelast keypoint_names in
  (Forall (fun k => columns_of k T <> []) keys ->
   ~ In "model_name" keys ->
   (forall i, i < nrows T ->
      Forall (fun c => numeric c = true) (keypoint_cells keys T i)) ->
   exists T',
     get_precomputed_error df keypoint_names model_name h
     = (Ok df, <[df:=T']> h)
     /\ nrows T' = nrows T
     /\ (head (labels T) <> Some (Name "mean") -> columns_of "mean" T' <> [])
     /\ forall c i,
          In c (columns_of "mean" T') -> i < nrows T ->
          c.2 !! i = Some (mean_of (keypoint_cells keys T i)))
  /\ (well_formed T = true -> nrows T <> 0 -> ncols T mod 3 <> 2 ->
      length keypoint_names <= ncols T / 3 ->
      NoDup keypoint_names ->
      Forall (fun k => ~ In k reserved_names) keypoint_names ->
      (forall i c, i < nrows T -> c < length keys ->
         numeric (nth (3 * c + 2) (cells_at i (columns T)) NaN) = true) ->
      exists T',
        compute_confidence df keypoint_names model_name h
        = (Ok (length h), h ++ [T'])
        /\ (keypoint_names <> [] -> nrows T' = nrows T)
        /\ columns_of "mean" T' <> []
        /\ forall c i,
             In c (columns_of "mean" T') -> i < nrows T' ->
             c.2 !! i = Some (mean_of (keypoint_cells keys T' i)))
  /\ (forall q qs cs,
        mean_of (map Num (q :: qs)) = Num (arithmetic_mean (q :: qs))
        /\ mean_of (NaN :: cs) = mean_of cs).
Proof.
  intros HT keys. split; [|split].
  - intros Hkeys Hmn Hnum.
    destruct (precomputed_error_table_Ok keypoint_names model_name T Hkeys Hmn Hnum)
      as [T' Htable].
    exists T'. rewrite (get_precomputed_error_run _ _ _ _ _ HT), Htable.
    split; [done|].
    destruct (precomputed_error_table_mean _ _ _ _ Htable)
      as (Hidx & _ & Hhas & Hmean).
    split; [unfold nrows; by rewrite Hidx|]. split; [done|].
    intros c i Hc Hi. destruct (Hmean c i Hc Hi) as (m & Hm & Hrow).
    by rewrite Hm, (row_mean_Ok _ _ Hrow).
  - intros Hwf Hn Hm Hlen Hnd Hres Hnum.
    destruct (confidence_table_Ok keypoint_names model_name T
                Hwf Hn Hm Hlen Hnd Hres Hnum) as [T' Htable].
    exists T'. split; [by apply (compute_confidence_total _ _ _ _ T)|].
    assert (Forall (fun k => ~ In k ["mean"; "set"; "img_file"]) keys) as Hres'.
    { apply Forall_forall. intros k [c [_ Hc]]%list_elem_of_In%removelast_lookup.
      rewrite Forall_forall in Hres. intros Hk.
      apply (Hres k); [by eapply list_elem_of_lookup_2|]. cbn in *. tauto. }
    destruct (confidence_table_mean _ _ _ _ Htable Hres') as (Hhas & Hmean).
    assert (Hflat : multi_level (columns T') = false)
      by (by apply (flat_of_name _ "mean")).
    split.
    { intros Hk. unfold nrows.
      rewrite (confidence_table_index _ _ _ _ Hk Htable).
      unfold range_index. by rewrite length_map, length_seq. }
    split; [by rewrite columns_of_nil_flat; [tauto|]|].
    intros [l col] i [Hkey Hc]%list_elem_of_In%list_elem_of_filter Hi.
    apply Is_true_true in Hkey. rewrite has_key_flat in Hkey by done.
    apply has_label_true in Hkey. cbn [fst snd] in *. subst l.
    apply list_elem_of_In in Hc.
    destruct (Hmean col i Hc Hi) as (m & Hm' & Hrow).
    by rewrite Hm', (row_mean_Ok _ _ Hrow).
  - intros q qs cs. split; [|done]. unfold mean_of.
    assert (forall l, present (map Num l) = l) as ->; [|done].
    induction l as [|x l IH]; [done|].
    change (present (map Num (x :: l))) with (x :: present (map Num l)).
    by rewrite IH.
Qed.

(** The example of the description: keypoints A, B, C and the row
    1, 2, 3 give the mean 1.5, both for the errors and for the
    confidences (the likelihoods of the first row of the predictions). *)
Lemma mean_column_example :
  (exists T',
     get_precomputed_error 0 ["A"; "B"; "C"] "m" [errors_ABC; preds_ABC]
     = (Ok 0, [T'; preds_ABC])
     /\ forall c i,
          In c (columns_of "mean" T') -> i < 1 -> c.2 !! i = Some (Num (3 # 2)))
  /\ (exists T',
        compute_confidence 1 ["A"; "B"; "C"] "m" [errors_ABC; preds_ABC]
        = (Ok 2, [errors_ABC; preds_ABC; T'])
        /\ columns_of "mean" T' <> []
        /\ (forall c i,
              In c (columns_of "mean" T') -> i < nrows T' ->
              c.2 !! i = Some (mean_of (keypoint_cells ["A"; "B"] T' i)))
        /\ keypoint_cells ["A"; "B"] T' 0 = [Num 1; Num 2]
        /\ mean_of [Num 1; Num 2] = Num (3 # 2)).
Proof.
  split.
  - destruct (mean_column_skips_last_keypoint [errors_ABC; preds_ABC] 0
                ["A"; "B"; "C"] "m" errors_ABC eq_refl) as (Herr & _ & _).
    destruct Herr as (T' & Hrun & _ & _ & Hmean).
    + apply Forall_forall. intros k Hk%list_elem_of_In.
      vm_compute in Hk. destruct Hk as [<-|[<-|[]]]; by vm_compute.
    + vm_compute. intros [H|[H|[]]]; discriminate.
    + intros i Hi. assert (i = 0) as -> by (vm_compute in Hi; lia).
      vm_compute. by repeat constructor.
    + exists T'. split; [exact Hrun|]. intros c i Hc Hi.
      assert (i = 0) as -> by lia. exact (Hmean c 0 Hc Hi).
  - destruct (mean_column_skips_last_keypoint [errors_ABC; preds_ABC] 1
                ["A"; "B"; "C"] "m" preds_ABC eq_refl) as (_ & Hconf & _).
    destruct Hconf as (T' & Hrun & _ & Hhas & Hmean).
    + reflexivity.
    + by vm_compute.
    + by vm_compute.
    + vm_compute. lia.
    + by apply (bool_decide_unpack _).
    + apply Forall_forall. intros k Hk%list_elem_of_In.
      vm_compute in Hk. destruct Hk as [<-|[<-|[<-|[]]]];
        vm_compute; intros H; repeat (destruct H as [H|H]; [discriminate|]);
        done.
    + intros i c Hi Hc.
      assert (i = 0 \/ i = 1) as [-> | ->] by (vm_compute in Hi; lia);
        (assert (c = 0 \/ c = 1) as [-> | ->] by (vm_compute in Hc; lia));
        by vm_compute.
    + exists T'. split; [exact Hrun|]. split; [done|]. split; [done|].
      assert (E := Hrun). vm_compute in E. injection E as <-.
      split; reflexivity.
Defined.

(** The table [compute_confidence] returns is new, the one object the
    call adds to the store.  With at least one keypoint name its rows
    are numbered from 0, as many as the table given has: the row
    labels of that table are not kept as row labels. *)
Theorem compute_confidence_makes_a_new_table (h : heap) (df : ref)
    (keypoint_names : list string) (model_name : string) (T : DataFrame)
    (r : ref) (h' : heap) :
  h !! df = Some T ->
  keypoint_names <> [] ->
  compute_confidence df keypoint_names model_name h = (Ok r, h') ->
  r = length h
  /\ exists T', h' = h ++ [T'] /\ index T' = range_index (nrows T).
Proof.
  intros HT Hk Hrun.
  destruct (compute_confidence_returns _ _ _ _ _ _ _ HT Hrun)
    as (T' & Htable & -> & ->).
  split; [done|]. exists T'. split; [done|].
  by apply (confidence_table_index keypoint_names model_name).
Qed.

Lemma compute_confidence_makes_a_new_table_example :
  1 = length [preds_ABC_set]
  /\ exists T',
       (compute_confidence 0 ["A"; "B"; "C"] "m" [preds_ABC_set]).2
       = [preds_ABC_set] ++ [T']
       /\ index T' = range_index (nrows preds_ABC_set).
Proof.
  apply (compute_confidence_makes_a_new_table [preds_ABC_set] 0
           ["A"; "B"; "C"] "m" preds_ABC_set 1
           (compute_confidence 0 ["A"; "B"; "C"] "m" [preds_ABC_set]).2).
  - reflexivity.
  - done.
  - reflexivity.
Defined.

(** ** The long form of a table: [get_df_box] *)

Lemma lift_bind_run {A B : Type} (r : result A) (f : A -> M B) (h : heap) :
  (lift r ≫= f) h = match r with Ok a => f a h | Raise e => (Raise e, h) end.
Proof. rewrite bind_run. unfold lift. by destruct r. Qed.

Lemma alloc_bind_run {B : Type} (T : DataFrame) (f : ref -> M B) (h : heap) :
  (alloc T ≫= f) h = f (length h) (h ++ [T]).
Proof. by rewrite bind_run. Qed.

Lemma get_df_box_models (df_orig : ref) (T : DataFrame) (keypoint : string)
    (models : list string) :
  forall (acc : list ref) (h : heap),
    h !! df_orig = Some T ->
    let run :=
      for_each models
        (fun model_curr df_boxes =>
           T ← load df_orig;
           model_name ← lift (select_column AttributeError "model_name" T);
           let rows := mask_rows T (eq_scalar model_name (Str model_curr)) in
           value ← lift (select_column KeyError keypoint rows);
           df_box ← alloc (frame_of_box keypoint value model_curr);
           mret (df_boxes ++ [df_box]))
        acc h in
    match mapM (box_of T keypoint) models with
    | Ok tabs => run = (Ok (acc ++ seq (length h) (length tabs)), h ++ tabs)
    | Raise e => run.1 = Raise e
    end.
Proof.
  induction models as [|m models IH]; intros acc h HT; cbn zeta.
  - cbn. by rewrite !app_nil_r.
  - cbn [for_each mapM]. rewrite bind_run, bind_run, (load_run _ _ T) by done.
    rewrite lift_bind_run.
    change (box_of T keypoint m)
      with (model_name ← select_column AttributeError "model_name" T;
            value ← select_column KeyError keypoint
                       (mask_rows T (eq_scalar model_name (Str m)));
            mret (frame_of_box keypoint value m)).
    destruct (select_column AttributeError "model_name" T) as [s|e]; [|done].
    cbn [mbind result_bind]. rewrite lift_bind_run.
    destruct (select_column KeyError keypoint _) as [value|e]; [|done].
    cbn [mbind result_bind mret result_ret].
    rewrite alloc_bind_run, ret_run.
    specialize (IH (acc ++ [length h])
                  (h ++ [frame_of_box keypoint value m])).
    cbn zeta in IH.
    destruct (mapM (box_of T keypoint) models) as [tabs|e].
    + rewrite IH by (by apply lookup_app_l_Some).
      cbn [length seq]. rewrite length_app. cbn [length].
      rewrite Nat.add_1_r, <- !app_assoc. done.
    + apply IH. by apply lookup_app_l_Some.
Qed.

Lemma get_df_box_keypoints (df_orig : ref) (T : DataFrame)
    (keypoints models : list string) :
  forall (acc : list ref) (h : heap),
    h !! df_orig = Some T ->
    let run :=
      for_each keypoints
        (fun keypoint df_boxes =>
           for_each models
             (fun model_curr df_boxes =>
                T ← load df_orig;
                model_name ← lift (select_column AttributeError "model_name" T);
                let rows := mask_rows T (eq_scalar model_name (Str model_curr)) in
                value ← lift (select_column KeyError keypoint rows);
                df_box ← alloc (frame_of_box keypoint value model_curr);
                mret (df_boxes ++ [df_box]))
             df_boxes)
        acc h in
    match mapM (fun km => box_of T km.1 km.2) (list_prod keypoints models) with
    | Ok tabs => run = (Ok (acc ++ seq (length h) (length tabs)), h ++ tabs)
    | Raise e => run.1 = Raise e
    end.
Proof.
  induction keypoints as [|k keypoints IH]; intros acc h HT; cbn zeta.
  - cbn. by rewrite !app_nil_r.
  - cbn [for_each list_prod]. rewrite mapM_app, mapM_map. cbn [fst snd].
    rewrite bind_run.
    pose proof (get_df_box_models df_orig T k models acc h HT) as Hin.
    cbn zeta in Hin.
    destruct (mapM (box_of T k) models) as [tabs1|e]; cbn [mbind result_bind].
    + rewrite Hin.
      specialize (IH (acc ++ seq (length h) (length tabs1)) (h ++ tabs1)).
      cbn zeta in IH.
      destruct (mapM _ (list_prod keypoints models)) as [tabs2|e];
        cbn [mbind result_bind mret result_ret].
      * rewrite IH by (by apply lookup_app_l_Some).
        rewrite !length_app, seq_app, <- !app_assoc. done.
      * apply IH. by apply lookup_app_l_Some.
    + match type of Hin with
      | (?run).1 = _ => destruct run as [[refs|e'] h1]
      end; cbn in Hin; [done|].
      by injection Hin as ->.
Qed.

Lemma mapM_load_seq (tabs : list DataFrame) :
  forall h rest,
    mapM load (seq (length h) (length tabs)) (h ++ tabs ++ rest)
    = (Ok tabs, h ++ tabs ++ rest).
Proof.
  induction tabs as [|t tabs IH]; intros h rest; [done|].
  cbn [length seq mapM]. rewrite bind_run.
  rewrite (load_run _ _ t) by (by rewrite lookup_app_r, Nat.sub_diag).
  rewrite bind_run.
  specialize (IH (h ++ [t]) rest). rewrite length_app in IH. cbn [length] in IH.
  rewrite Nat.add_1_r, <- app_assoc in IH. cbn [app] in IH |- *.
  by rewrite IH.
Qed.

Lemma get_df_box_run (h : heap) (df_orig : ref) (T : DataFrame)
    (keypoints models : list string) :
  h !! df_orig = Some T ->
  match mapM (fun km => box_of T km.1 km.2) (list_prod keypoints models) with
  | Ok tabs =>
      match concat_axis0 tabs with
      | Ok R =>
          get_df_box df_orig keypoints models h
          = (Ok (length h + length tabs), h ++ tabs ++ [R])
      | Raise e =>
          get_df_box df_orig keypoints models h = (Raise e, h ++ tabs)
      end
  | Raise e => (get_df_box df_orig keypoints models h).1 = Raise e
  end.
Proof.
  intros HT. unfold get_df_box. rewrite bind_run.
  pose proof (get_df_box_keypoints df_orig T keypoints models [] h HT) as Hloop.
  cbn zeta in Hloop.
  destruct (mapM _ (list_prod keypoints models)) as [tabs|e].
  - rewrite Hloop. cbn [app]. rewrite bind_run.
    pose proof (mapM_load_seq tabs h []) as Hload.
    rewrite !app_nil_r in Hload. rewrite Hload, bind_run. unfold lift.
    destruct (concat_axis0 tabs) as [R|e]; [|done].
    unfold alloc. by rewrite length_app, <- app_assoc.
  - match type of Hloop with
    | (?run).1 = _ => destruct run as [[refs|e'] h1]
    end; cbn in Hloop; [done|].
    by injection Hloop as ->.
Qed.

Lemma select_column_mask_rows (missing : exn) (key : string) (T : DataFrame)
    (mask : list bool) :
  select_column missing key (mask_rows T mask)
  = (fun s => mask_select s mask) <$> select_column missing key T.
Proof.
  unfold select_column, mask_rows. cbn [columns index].
  assert (filter (has_label (Name key))
            (map (fun c => (c.1, keep_where mask c.2)) (columns T))
          = map (fun c => (c.1, keep_where mask c.2))
                (filter (has_label (Name key)) (columns T))) as ->.
  { induction (columns T) as [|c cs IH]; [done|]. cbn [map].
    rewrite !filter_bool_cons.
    change (has_label (Name key) (c.1, keep_where mask c.2))
      with (has_label (Name key) c).
    destruct (has_label (Name key) c); cbn [map]; by rewrite IH. }
  by destruct (filter (has_label (Name key)) (columns T)) as [|c [|c' cs]].
Qed.

Lemma select_column_Ok (missing : exn) (key : string) (T : DataFrame)
    (s : Series) :
  select_column missing key T = Ok s ->
  s = {| s_index := index T; s_values := column_or_missing (Name key) T |}
  /\ In (Name key, s_values s) (columns T).
Proof.
  unfold select_column, column_or_missing.
  destruct (filter (has_label (Name key)) (columns T)) as [|c [|c' cs]] eqn:E;
    [done| |done].
  intros [= <-]. split; [done|]. cbn [s_values].
  assert (c ∈ filter (has_label (Name key)) (columns T)) as Hc
    by (rewrite E; by left).
  apply list_elem_of_filter in Hc as [Hl Hc%list_elem_of_In].
  apply Is_true_true, has_label_true in Hl. destruct c as [l vals].
  cbn [fst snd] in *. by subst l.
Qed.

Lemma flat_map_map {A B C : Type} (g : A -> B) (f : B -> list C) (l : list A) :
  flat_map f (map g l) = flat_map (fun x => f (g x)) l.
Proof. induction l as [|x l IH]; [done|]. cbn. by rewrite IH. Qed.

Lemma boxes_Ok (T : DataFrame) (pairs : list (string * string))
    (tabs : list DataFrame) :
  pairs <> [] ->
  mapM (fun km => box_of T km.1 km.2) pairs = Ok tabs ->
  exists model_name,
    In (Name "model_name", model_name) (columns T)
    /\ tabs
       = map (fun km =>
                frame_of_box km.1
                  (mask_select
                     {| s_index := index T;
                        s_values := column_or_missing (Name km.1) T |}
                     (map (fun c => cell_eqb c (Str km.2)) model_name))
                  km.2)
             pairs.
Proof.
  intros Hne Htabs. apply mapM_Ok_Forall2 in Htabs.
  destruct (select_column AttributeError "model_name" T) as [s|e] eqn:Hs.
  2:{ destruct Htabs as [|km tab ? ? Hkm _]; [done|].
      unfold box_of in Hkm. by rewrite Hs in Hkm. }
  destruct (select_column_Ok _ _ _ _ Hs) as [_ Hin].
  exists (s_values s). split; [done|]. clear Hne.
  induction Htabs as [|[k m] tab pairs tabs Hkm _ IH]; [done|].
  cbn [map fst snd]. f_equal; [|exact IH].
  unfold box_of in Hkm. rewrite Hs in Hkm. cbn [mbind result_bind fst snd] in Hkm.
  rewrite select_column_mask_rows in Hkm.
  destruct (select_column KeyError k T) as [v|] eqn:Hv; [|done].
  apply select_column_Ok in Hv as [-> _].
  cbn [fmap result_fmap mbind result_bind mret result_ret] in Hkm.
  by injection Hkm as <-.
Qed.

Lemma concat_axis0_boxes (pairs : list (string * string))
    (value : string * string -> Series) :
  pairs <> [] ->
  concat_axis0 (map (fun km => frame_of_box km.1 (value km) km.2) pairs)
  = Ok {| index := flat_map (fun km => s_index (value km)) pairs;
          columns :=
            [(Name "keypoint",
              flat_map (fun km => repeat (Str km.1)
                                    (length (s_index (value km)))) pairs);
             (Name "metric",
              flat_map (fun km => repeat (Str "Pixel error")
                                    (length (s_index (value km)))) pairs);
             (Name "value", flat_map (fun km => s_values (value km)) pairs);
             (Name "model_name",
              flat_map (fun km => repeat (Str km.2)
                                    (length (s_index (value km)))) pairs)] |}.
Proof.
  destruct pairs as [|km pairs]; [done|]. intros _.
  set (all := km :: pairs).
  set (F := fun km : string * string => frame_of_box km.1 (value km) km.2).
  change (map F all) with (F km :: map F pairs). unfold concat_axis0.
  rewrite (proj2 (forallb_forall _ _)).
  2:{ intros T' (km' & <- & _)%in_map_iff. by apply bool_decide_eq_true. }
  change (F km :: map F pairs) with (map F all).
  f_equal. f_equal.
  - by rewrite flat_map_map.
  - cbn [labels F frame_of_box columns map fst imap]. unfold compose.
    by rewrite !flat_map_map.
Qed.

Lemma get_df_box_returns (h : heap) (df_orig : ref) (T : DataFrame)
    (keypoint_names model_names : list string) (r : ref) (h' : heap) :
  h !! df_orig = Some T ->
  get_df_box df_orig keypoint_names model_names h = (Ok r, h') ->
  exists model_name tabs,
    In (Name "model_name", model_name) (columns T)
    /\ r = length (h ++ tabs)
    /\ h' = (h ++ tabs)
            ++ [long_form T model_name keypoint_names model_names].
Proof.
  intros HT Hrun.
  pose proof (get_df_box_run h df_orig T keypoint_names model_names HT) as H.
  destruct (mapM _ (list_prod keypoint_names model_names)) as [tabs|e] eqn:Htabs.
  2:{ by rewrite Hrun in H. }
  destruct (concat_axis0 tabs) as [R|e] eqn:HR; rewrite Hrun in H; [|done].
  injection H as -> ->.
  assert (list_prod keypoint_names model_names <> []) as Hne.
  { intros E. rewrite E in Htabs. injection Htabs as <-. done. }
  destruct (boxes_Ok _ _ _ Hne Htabs) as (model_name & Hin & E).
  exists model_name, tabs. split; [done|].
  rewrite E, concat_axis0_boxes in HR by done. injection HR as <-.
  split; [by rewrite length_app|]. by rewrite <- app_assoc, E.
Qed.

(** [get_df_box] turns a table of errors into its long form, in a new
    table: on success the table given has a column "model_name", and
    the table returned holds, for each keypoint in turn and within it
    each model in turn, the rows of that model, under the four columns
    "keypoint", "metric", "value" and "model_name". *)
Theorem get_df_box_long_form (h : heap) (df_orig : ref) (T : DataFrame)
    (keypoint_names model_names : list string) (r : ref) (h' : heap) :
  h !! df_orig = Some T ->
  get_df_box df_orig keypoint_names model_names h = (Ok r, h') ->
  length h <= r
  /\ exists model_name,
       In (Name "model_name", model_name) (columns T)
       /\ h' !! r
          = Some (long_form T model_name keypoint_names model_names).
Proof.
  intros HT Hrun.
  destruct (get_df_box_returns _ _ _ _ _ _ _ HT Hrun)
    as (model_name & tabs & Hin & -> & ->).
  split; [rewrite length_app; lia|].
  exists model_name. split; [done|]. apply lookup_last.
Qed.

Lemma get_df_box_long_form_example :
  length [scatter_A] <= 2
  /\ exists model_name,
       In (Name "model_name", model_name) (columns scatter_A)
       /\ (get_df_box 0 ["nose"] ["a"] [scatter_A]).2 !! 2
          = Some (long_form scatter_A model_name ["nose"] ["a"]).
Proof.
  apply (get_df_box_long_form [scatter_A] 0 scatter_A ["nose"] ["a"] 2
           (get_df_box 0 ["nose"] ["a"] [scatter_A]).2).
  - reflexivity.
  - reflexivity.
Defined.

(** Without a keypoint or without a model [get_df_box] has nothing to
    put together: [pd.concat] raises [ValueError].  The table is not
    looked at, and nothing is made. *)
Theorem get_df_box_nothing_to_concatenate (h : heap) (df_orig : ref) :
  (forall model_names,
     get_df_box df_orig [] model_names h = (Raise ValueError, h))
  /\ (forall keypoint_names,
        get_df_box df_orig keypoint_names [] h = (Raise ValueError, h)).
Proof.
  split; [done|]. intros keypoint_names. unfold get_df_box. rewrite bind_run.
  assert (forall acc,
    for_each keypoint_names
      (fun keypoint df_boxes =>
         for_each []
           (fun model_curr df_boxes =>
              T ← load df_orig;
              model_name ← lift (select_column AttributeError "model_name" T);
              let rows := mask_rows T (eq_scalar model_name (Str model_curr)) in
              value ← lift (select_column KeyError keypoint rows);
              df_box ← alloc (frame_of_box keypoint value model_curr);
              mret (df_boxes ++ [df_box]))
           df_boxes)
      acc h = (Ok acc, h)) as ->; [|done].
  induction keypoint_names as [|k ks IH]; intros acc; [done|].
  cbn [for_each]. rewrite bind_run, ret_run. apply IH.
Qed.

Lemma filter_has_label_NoDup (l : label) (cols : list (label * list cell)) :
  NoDup (map fst cols) ->
  filter (has_label l) cols = [] \/ exists c, filter (has_label l) cols = [c].
Proof.
  induction cols as [|c cols IH]; [by left|]. cbn [map].
  intros [Hc Hnd]%NoDup_cons. rewrite filter_bool_cons.
  destruct (has_label l c) eqn:E; [|by apply IH].
  right. exists c. f_equal. apply has_label_true in E.
  apply filter_has_label_nil. rewrite <- E. by intros ?%list_elem_of_In.
Qed.

Lemma select_column_NoDup (missing : exn) (key : string) (T : DataFrame) :
  NoDup (labels T) ->
  (In (Name key) (labels T) -> exists s, select_column missing key T = Ok s)
  /\ (~ In (Name key) (labels T) -> select_column missing key T = Raise missing).
Proof.
  intros Hnd. unfold select_column.
  destruct (filter_has_label_NoDup (Name key) (columns T) Hnd) as [E|[c E]];
    rewrite E.
  - split; [|done]. intros Hin. by apply filter_has_label_nil in E.
  - split; [by eexists|]. intros Hno.
    apply filter_has_label_nil in Hno. by rewrite Hno in E.
Qed.

Lemma mapM_Raise_only {A B : Type} (f : A -> result B) (l : list A) (e : exn) :
  Forall (fun x => forall e', f x = Raise e' -> e' = e) l ->
  Exists (fun x => exists e', f x = Raise e') l ->
  mapM f l = Raise e.
Proof.
  intros Hall Hex. destruct (mapM f l) as [ys|e'] eqn:E.
  - apply mapM_Ok_Forall2 in E. apply Exists_exists in Hex as (x & Hx & e' & He').
    apply list_elem_of_lookup_1 in Hx as [i Hi].
    destruct (Forall2_lookup_l _ _ _ _ _ E Hi) as (y & _ & Hy).
    by rewrite Hy in He'.
  - apply mapM_Raise in E as (x & Hx & He').
    rewrite Forall_forall in Hall. f_equal.
    by apply (Hall x); [apply list_elem_of_In|].
Qed.


Lemma length_flat_map_sum {A B : Type} (f : A -> list B) (l : list A) :
  length (flat_map f l) = sum_list (map (fun x => length (f x)) l).
Proof.
  induction l as [|x l IH]; [done|]. cbn [flat_map map sum_list_with id].
  by rewrite length_app, IH.
Qed.

Lemma sum_list_one (x : string) (l : list string) :
  NoDup l -> In x l ->
  sum_list (map (fun m => if String.eqb x m then 1 else 0) l) = 1.
Proof.
  induction l as [|m l IH]; [done|]. intros [Hm Hnd]%NoDup_cons Hx.
  cbn [map sum_list_with id]. destruct (String.eqb_spec x m) as [->|Hne].
  - assert (sum_list (map (fun m' => if String.eqb m m' then 1 else 0) l) = 0)
      as ->; [|done].
    clear -Hm. induction l as [|m' l IH]; [done|]. cbn [map sum_list_with id].
    apply not_elem_of_cons in Hm as [Hne Hm].
    destruct (String.eqb_spec m m'); [done|]. by apply IH.
  - destruct Hx as [->|Hx]; [done|]. by rewrite IH.
Qed.

Lemma sum_list_plus {A : Type} (f g : A -> nat) (l : list A) :
  sum_list (map (fun x => f x + g x) l)
  = sum_list (map f l) + sum_list (map g l).
Proof. induction l as [|x l IH]; [done|]. cbn [map sum_list_with id]. lia. Qed.

(** The masks of the models share out the rows: every row goes to one
    model. *)
Lemma keep_where_shares_out {A : Type} (models : list string) (col : list cell) :
  NoDup models ->
  Forall (fun c => exists m, c = Str m /\ In m models) col ->
  forall idx : list A,
    length idx = length col ->
    sum_list
      (map (fun m =>
              length (keep_where (map (fun c => cell_eqb c (Str m)) col) idx))
           models)
    = length idx.
Proof.
  intros Hnd. induction 1 as [|c col (m0 & -> & Hm0) _ IH]; intros [|i idx] Hlen;
    try done.
  - clear. induction models as [|m ms IH]; [done|]. done.
  - cbn [map length] in *.
    transitivity
      (sum_list
         (map (fun m =>
                 (if String.eqb m0 m then 1 else 0)
                 + length (keep_where (map (fun c => cell_eqb c (Str m)) col) idx))
              models)).
    + f_equal. apply map_ext. intros m. cbn [keep_where cell_eqb].
      by destruct (String.eqb m0 m).
    + rewrite sum_list_plus, sum_list_one, IH by (done || lia). done.
Qed.

(** No row is lost and none is counted twice: when the models are
    distinct and every row of the table belongs to one of them, the
    table [get_df_box] returns has as many rows as the table given,
    once for every keypoint. *)
Theorem get_df_box_keeps_every_row (h : heap) (df_orig : ref) (T : DataFrame)
    (keypoint_names model_names : list string) (r : ref) (h' : heap) :
  h !! df_orig = Some T ->
  well_formed T = true ->
  NoDup model_names ->
  (forall col, In (Name "model_name", col) (columns T) ->
               Forall (fun c => exists m, c = Str m /\ In m model_names) col) ->
  get_df_box df_orig keypoint_names model_names h = (Ok r, h') ->
  exists R,
    h' !! r = Some R /\ nrows R = length keypoint_names * nrows T.
Proof.
  intros HT Hwf Hnd Hmodels Hrun.
  destruct (get_df_box_returns _ _ _ _ _ _ _ HT Hrun)
    as (model_name & tabs & Hin & -> & ->).
  eexists. split; [apply lookup_last|].
  unfold nrows at 1, long_form. cbn [index].
  specialize (Hmodels _ Hin).
  assert (length (index T) = length model_name) as Hlen.
  { unfold well_formed in Hwf. rewrite forallb_forall in Hwf.
    apply Hwf in Hin. cbn [snd] in Hin. symmetry. by apply Nat.eqb_eq. }
  clear Hrun. induction keypoint_names as [|k ks IH]; [done|].
  cbn [list_prod length]. rewrite flat_map_app, length_app, flat_map_map.
  rewrite IH. cbn [snd]. rewrite length_flat_map_sum.
  rewrite (keep_where_shares_out model_names model_name Hnd Hmodels) by done.
  unfold nrows. lia.
Qed.

Lemma get_df_box_keeps_every_row_example :
  exists R,
    (get_df_box 0 ["nose"; "mean"] ["a"; "b"] [scatter_A]).2 !! 5 = Some R
    /\ nrows R = length ["nose"; "mean"] * nrows scatter_A.
Proof.
  apply (get_df_box_keeps_every_row [scatter_A] 0 scatter_A
           ["nose"; "mean"] ["a"; "b"] 5
           (get_df_box 0 ["nose"; "mean"] ["a"; "b"] [scatter_A]).2).
  - reflexivity.
  - reflexivity.
  - repeat constructor; set_solver.
  - intros col [[= <-]|[[= <-]|[[= <-]|[[= <-]|[[= <-]|[]]]]]].
    repeat constructor; exists "a"; (split; [done|by left]).
  - reflexivity.
Defined.
(** ** The tables of all metrics: [build_precomputed_metrics_df] *)

Lemma raises_only_any {A : Type} (m : M A) :
  raises_only (fun _ => True) m (fun _ => True).
Proof. intros h. by destruct (m h).1. Qed.

Lemma raises_only_weaken {A : Type} (E : exn -> Prop) (m : M A)
    (Q R : A -> Prop) :
  raises_only E m Q -> (forall a, Q a -> R a) -> raises_only E m R.
Proof.
  intros Hm HQR h. specialize (Hm h). destruct (m h).1; [by apply HQR|done].
Qed.

(** A loop whose body moves an abstraction of the state by [step]
    moves it by the fold of [step]. *)
Lemma raises_only_for_each_fold {A S K : Type} (E : exn -> Prop)
    (xs : list A) (body : A -> S -> M S) (key : S -> K) (step : K -> A -> K) :
  (forall x acc,
     raises_only E (body x acc) (fun acc' => key acc' = step (key acc) x)) ->
  forall acc,
    raises_only E (for_each xs body acc)
      (fun acc' => key acc' = fold_left step xs (key acc)).
Proof.
  intros Hbody. induction xs as [|x xs IH]; intros acc.
  - by apply raises_only_ret.
  - cbn [for_each fold_left]. eapply raises_only_bind; [apply Hbody|].
    intros acc' <-. apply IH.
Qed.

Lemma raises_only_mapM {A B : Type} (E : exn -> Prop) (f : A -> M B)
    (R : A -> B -> Prop) (l : list A) :
  (forall x, raises_only E (f x) (R x)) ->
  raises_only E (mapM f l) (Forall2 R l).
Proof.
  intros Hf. induction l as [|x l IH]; cbn [mapM].
  - apply raises_only_ret. constructor.
  - eapply raises_only_bind; [apply Hf|]. intros y Hy.
    eapply raises_only_bind; [apply IH|]. intros ys Hys.
    apply raises_only_ret. by constructor.
Qed.

Lemma dict_append_keys {V : Type} (k : string) (v : V)
    (d : list (string * list V)) :
  map fst (dict_append k v d) = add_key (map fst d) k.
Proof.
  unfold add_key. induction d as [|[k' l] d IH]; [done|].
  cbn [dict_append map fst]. destruct (String.eqb_spec k' k) as [->|Hne].
  - cbn [map fst]. rewrite bool_decide_true; [done|]. by left.
  - cbn [map fst]. rewrite IH.
    destruct (decide (k ∈ map fst d)) as [Hin|Hno].
    + rewrite !bool_decide_true; [done| by right | done].
    + rewrite !bool_decide_false; [done| |done].
      intros [?|?]%elem_of_cons; done.
Qed.

Lemma fold_left_add_key_flat_map {A : Type} (g : A -> list string)
    (xs : list A) (keys : list string) :
  fold_left (fun ks x => fold_left add_key (g x) ks) xs keys
  = fold_left add_key (flat_map g xs) keys.
Proof.
  revert keys. induction xs as [|x xs IH]; intros keys; [done|].
  cbn [fold_left flat_map]. by rewrite fold_left_app, IH.
Qed.

Lemma fold_left_add_key (l keys : list string) :
  (NoDup keys -> NoDup (fold_left add_key l keys))
  /\ forall k, In k (fold_left add_key l keys) <-> In k keys \/ In k l.
Proof.
  revert keys. induction l as [|x l IH]; intros keys; cbn [fold_left].
  - split; [done|]. intros k. cbn. tauto.
  - destruct (IH (add_key keys x)) as [IHnd IHin]. unfold add_key in *.
    destruct (decide (x ∈ keys)) as [Hin|Hno].
    + rewrite bool_decide_true in * by done. split; [done|].
      intros k. rewrite IHin. cbn [In]. apply list_elem_of_In in Hin.
      split; [tauto|]. intros [?|[<-|?]]; tauto.
    + rewrite bool_decide_false in * by done. split.
      * intros Hnd. apply IHnd. apply NoDup_app. split; [done|].
        split; [|apply NoDup_singleton]. by intros y Hy ->%list_elem_of_singleton.
      * intros k. rewrite IHin, in_app_iff. cbn [In]. tauto.
Qed.

Lemma metric_keys_step (metric_name : string) (keys : list string) :
  fold_left add_key (metric_keys metric_name) keys
  = (let keys1 := if contains "confidence" metric_name
                  then add_key keys conf_error_key else keys in
     if contains "single" metric_name then add_key keys1 pcasv_error_key
     else if contains "multi" metric_name then add_key keys1 pcamv_error_key
     else if contains "temporal" metric_name
     then add_key keys1 temp_norm_error_key
     else if contains "pixel" metric_name then add_key keys1 pix_error_key
     else keys1).
Proof.
  unfold metric_keys. rewrite fold_left_app.
  destruct (contains "confidence" metric_name), (contains "single" metric_name),
    (contains "multi" metric_name), (contains "temporal" metric_name),
    (contains "pixel" metric_name); reflexivity.
Qed.

Lemma build_precomputed_metrics_df_keys
    (dframes : list (string * list (string * ref)))
    (keypoint_names kwargs : list string) :
  raises_only (fun _ => True)
    (build_precomputed_metrics_df dframes keypoint_names kwargs)
    (fun result =>
       map fst result
       = fold_left add_key
           (flat_map (fun md => flat_map metric_keys (map fst md.2)) dframes)
           []).
Proof.
  unfold build_precomputed_metrics_df.
  eapply raises_only_bind.
  - apply (raises_only_for_each_fold _ _ _ (map fst)
             (fun ks md => fold_left add_key
                             (flat_map metric_keys (map fst md.2)) ks)).
    intros [model_name df_dict] d. cbn [snd].
    rewrite <- fold_left_add_key_flat_map.
    eapply raises_only_weaken.
    + apply (raises_only_for_each_fold _ _ _ (map fst)
               (fun ks nd => fold_left add_key (metric_keys nd.1) ks)).
      intros [metric_name df] d1. cbn [fst]. rewrite metric_keys_step.
      eapply (raises_only_bind _ _ _
                (fun d2 => map fst d2
                           = if contains "confidence" metric_name
                             then add_key (map fst d1) conf_error_key
                             else map fst d1)).
      * destruct (contains "confidence" metric_name);
          [|by apply raises_only_ret].
        eapply raises_only_bind; [apply raises_only_any|]. intros df_ _.
        apply raises_only_ret. apply dict_append_keys.
      * intros d2 Hd2. cbn zeta. rewrite <- Hd2.
        eapply raises_only_bind; [apply raises_only_any|]. intros df_ _.
        destruct (contains "single" metric_name);
          [apply raises_only_ret, dict_append_keys|].
        destruct (contains "multi" metric_name);
          [apply raises_only_ret, dict_append_keys|].
        destruct (contains "temporal" metric_name);
          [apply raises_only_ret, dict_append_keys|].
        destruct (contains "pixel" metric_name);
          [apply raises_only_ret, dict_append_keys|].
        by apply raises_only_ret.
    + intros d' ->. clear. generalize (map fst d) as ks.
      induction df_dict as [|[n r] l IH]; intros ks; [done|]. apply IH.
  - intros d Hd. cbn [map] in Hd.
    eapply raises_only_weaken.
    + apply (raises_only_mapM _ _ (fun x y => y.1 = x.1)).
      intros [key refs].
      eapply raises_only_bind; [apply raises_only_any|]. intros tables _.
      eapply raises_only_bind; [apply raises_only_any|]. intros T _.
      eapply raises_only_bind; [apply raises_only_any|]. intros r _.
      by apply raises_only_ret.
    + intros result Hres.
      rewrite <- (fold_left_add_key_flat_map
                    (fun md : string * list (string * ref) =>
                       flat_map metric_keys (map fst md.2))), <- Hd.
      clear -Hres.
      induction Hres as [|x y l k Hxy _ IH]; [done|]. cbn [map].
      by rewrite Hxy, IH.
Qed.

(** The keys of the dictionary that [build_precomputed_metrics_df]
    returns depend on the names of the metrics only.  No key comes
    twice; and a name is a key exactly when the name of some metric of
    some model calls for it: "confidence" for a name that contains
    "confidence", and, besides, the one of "pca singleview", "pca
    multiview", "temporal norm" and "pixel error" that goes with the
    first of "single", "multi", "temporal" and "pixel" the name
    contains.  A name that contains none of the five words adds no
    key. *)
Theorem build_precomputed_metrics_df_files_by_name (h : heap)
    (dframes : list (string * list (string * ref)))
    (keypoint_names kwargs : list string)
    (result : list (string * ref)) (h' : heap) :
  build_precomputed_metrics_df dframes keypoint_names kwargs h
  = (Ok result, h') ->
  NoDup (map fst result)
  /\ forall k,
       In k (map fst result)
       <-> exists model metrics metric_name df,
             In (model, metrics) dframes /\ In (metric_name, df) metrics
             /\ In k (metric_keys metric_name).
Proof.
  intros Hrun.
  pose proof (build_precomputed_metrics_df_keys dframes keypoint_names kwargs h)
    as Hkeys.
  rewrite Hrun in Hkeys. cbn [fst] in Hkeys. rewrite Hkeys.
  destruct (fold_left_add_key
              (flat_map (fun md => flat_map metric_keys (map fst md.2)) dframes)
              []) as [Hnd Hin].
  split; [apply Hnd; constructor|]. intros k. rewrite Hin. cbn [In]. split.
  - intros [[]|Hk]. apply in_flat_map in Hk as ([model metrics] & Hmd & Hk).
    apply in_flat_map in Hk as (metric_name & Hname & Hk). cbn [snd] in Hname.
    apply in_map_iff in Hname as ([name df] & <- & Hnd').
    by exists model, metrics, name, df.
  - intros (model & metrics & metric_name & df & Hmd & Hnd' & Hk). right.
    apply in_flat_map. exists (model, metrics). split; [done|].
    apply in_flat_map. exists metric_name. split; [|done].
    apply in_map_iff. by exists (metric_name, df).
Qed.
(** ** A second call of [get_precomputed_error] *)

Lemma put_item_same_values (key : string) (vals : list cell)
    (cols : list (label * list cell)) :
  filter (has_key cols key) cols <> [] ->
  (forall c, In c cols -> has_key cols key c = true -> c.2 = vals) ->
  put_item key vals cols = cols.
Proof.
  intros Hne Hvals. unfold put_item.
  assert (existsb (has_key cols key) cols = true) as ->.
  { destruct (filter (has_key cols key) cols) as [|c cs] eqn:E; [done|].
    assert (In c (filter (has_key cols key) cols)) as Hc by (rewrite E; by left).
    apply list_elem_of_In, list_elem_of_filter in Hc as [Hkey Hc].
    apply existsb_exists. exists c. split; [by apply list_elem_of_In|].
    by apply Is_true_true. }
  transitivity (map id cols); [|apply map_id].
  apply map_ext_in. intros c Hc.
  destruct (has_key cols key c) eqn:E; [|done].
  rewrite <- (Hvals c Hc E). by destruct c.
Qed.

Lemma filter_has_label_rename (l old new : label)
    (cols : list (label * list cell)) :
  l <> old -> l <> new ->
  filter (has_label l)
    (map (fun c => if has_label old c then (new, c.2) else c) cols)
  = filter (has_label l) cols.
Proof.
  intros Hold Hnew. induction cols as [|c cols IH]; [done|].
  cbn [map]. rewrite !filter_bool_cons, IH.
  destruct (has_label old c) eqn:E.
  - apply has_label_true in E.
    assert (has_label l (new, c.2) = false) as ->
      by (apply has_label_false; cbn; congruence).
    assert (has_label l c = false) as -> by (apply has_label_false; congruence).
    done.
  - done.
Qed.

Lemma select_columns_ext (keys : list string)
    (cols cols' : list (label * list cell)) :
  (forall k, In k keys ->
     filter (has_key cols k) cols = filter (has_key cols' k) cols') ->
  select_columns keys cols = select_columns keys cols'.
Proof.
  induction keys as [|k keys IH]; intros H; [done|].
  cbn [select_columns]. rewrite (H k) by (by left).
  rewrite IH; [done|]. intros k' Hk'. apply H. by right.
Qed.

Lemma rename_to_itself (l : label) (cols : list (label * list cell)) :
  map (fun c => if has_label l c then (l, c.2) else c) cols = cols.
Proof.
  rewrite <- (map_id cols) at 2. apply map_ext. intros c.
  destruct (has_label l c) eqn:E; [|done].
  apply has_label_true in E. rewrite <- E. by destruct c.
Qed.

(** The columns of a key that the renaming does not concern. *)
Lemma columns_of_rename (first : label) (new key : string) (T : DataFrame) :
  head (labels T) = Some first -> Name key <> first -> key <> new ->
  columns_of key (rename_column first new T) = columns_of key T.
Proof.
  intros Hfirst Hkey Hnew. unfold columns_of.
  rewrite (has_key_kind _ (columns T)) by (by apply multi_level_rename).
  destruct (multi_level (columns T)) eqn:Hm.
  - by rewrite rename_column_multi.
  - rewrite rename_column_flat, has_key_flat by done.
    apply filter_has_label_rename; congruence.
Qed.

Lemma rename_column_head (first : label) (new : string) (T : DataFrame) :
  head (labels T) = Some first ->
  head (labels (rename_column first new T))
  = Some (if multi_level (columns T) then first else Name new).
Proof.
  intros Hfirst. destruct (multi_level (columns T)) eqn:Hm.
  - by rewrite rename_column_multi.
  - unfold labels in *. rewrite rename_column_flat by done.
    destruct (columns T) as [|c cs]; [done|]. cbn [map head] in Hfirst |- *.
    injection Hfirst as Hc. by rewrite (proj2 (has_label_true first c)).
Qed.

(** A table whose first column is called [new] on a flat axis, or
    whose header has several levels, is as the renaming leaves it. *)
Lemma rename_column_again (first : label) (new : string) (T : DataFrame) :
  head (labels T) = Some first ->
  rename_column (if multi_level (columns T) then first else Name new) new
    (rename_column first new T)
  = rename_column first new T.
Proof.
  intros Hfirst. destruct (multi_level (columns T)) eqn:Hm.
  - rewrite (rename_column_multi first new T) by done.
    by rewrite (rename_column_multi first new T).
  - unfold rename_column at 1. cbn [index].
    rewrite (multi_level_rename _ _ _ Hfirst), Hm.
    rewrite rename_to_itself. unfold rename_column. cbn [index columns].
    by rewrite Hm.
Qed.

Lemma precomputed_error_table_again (keypoint_names : list string)
    (model_name : string) (T T' : DataFrame) (first : label) :
  head (labels T) = Some first ->
  first <> Name "mean" -> first <> Name "model_name" ->
  Forall (fun k => Name k <> first
                   /\ ~ In k ["img_file"; "mean"; "model_name"])
         (removelast keypoint_names) ->
  precomputed_error_table keypoint_names model_name T = Ok T' ->
  precomputed_error_table keypoint_names model_name T' = Ok T'.
Proof.
  intros Hfirst Hmean Hmodel Hkeys Hrun.
  destruct (precomputed_error_table_steps _ _ _ _ Hrun)
    as (mean & first' & Emean & Hfirst' & ->).
  set (rep := repeat (Str model_name) (nrows T)).
  set (T1 := setitem_scalar "model_name" (Str model_name) T) in *.
  set (T2 := {| index := index T; columns := _ |}) in *.
  set (T' := rename_column first' "img_file" T2).
  destruct (mean_without_last_spec _ _ _ Emean) as (Hidx & _ & _).
  assert (first' = first) as ->.
  { destruct (precomputed_error_first _ _ _ _ Hfirst') as [H|[H _]].
    - congruence.
    - unfold labels in Hfirst. by rewrite H in Hfirst. }
  assert (Hk1 : has_key (columns T1) = has_key (columns T))
    by apply has_key_put_item.
  assert (Hk2 : has_key (columns T2) = has_key (columns T1))
    by apply has_key_put_item.
  assert (Hk' : has_key (columns T') = has_key (columns T2))
    by (by apply has_key_kind, multi_level_rename).
  (* the columns of a key in the result *)
  assert (Hof : forall key, Name key <> first -> key <> "img_file" ->
            columns_of key T' = columns_of key T2).
  { intros key H1 H2. by apply columns_of_rename. }
  assert (Hval : forall key vals c,
            Name key <> first -> key <> "img_file" ->
            (forall c, In c (columns T2) -> has_key (columns T2) key c = true ->
                       c.2 = vals) ->
            In c (columns T') -> has_key (columns T') key c = true ->
            c.2 = vals).
  { intros key vals c H1 H2 Hall Hc Hkey.
    assert (In c (columns_of key T')) as Hin.
    { apply list_elem_of_In, list_elem_of_filter. split.
      - by apply Is_true_true.
      - by apply list_elem_of_In. }
    rewrite (Hof key H1 H2) in Hin.
    apply list_elem_of_In, list_elem_of_filter in Hin as [Hk Hin].
    apply Hall; [by apply list_elem_of_In | by apply Is_true_true]. }
  assert (Hhas : forall key, Name key <> first -> key <> "img_file" ->
            columns_of key T2 <> [] ->
            filter (has_key (columns T') key) (columns T') <> []).
  { intros key H1 H2 Hne. fold (columns_of key T'). by rewrite Hof. }
  unfold precomputed_error_table.
  (* the column of the model *)
  assert (setitem_scalar "model_name" (Str model_name) T' = T') as ->.
  { unfold setitem_scalar.
    replace (nrows T') with (nrows T) by done. fold rep.
    rewrite put_item_same_values; [by destruct T'| |].
    - apply Hhas; [congruence|done|].
      destruct (put_item_has_key "model_name" rep (columns T)) as (c & Hc & Hkey).
      assert (In c (columns_of "model_name" T2)) as Hin;
        [|intros E; by rewrite E in Hin].
      apply list_elem_of_In, list_elem_of_filter. split.
      + apply Is_true_true. by rewrite Hk2, Hk1.
      + apply list_elem_of_In. unfold T2. cbn [columns].
        apply put_item_in_other; [|done].
        rewrite Hk1. rewrite has_key_spec in Hkey |- *.
        apply bool_decide_eq_true in Hkey. apply bool_decide_eq_false.
        congruence.
    - intros c. apply Hval; [congruence|done|]. intros c0 Hc0 Hkey0.
      unfold T2 in Hc0. cbn [columns] in Hc0.
      apply put_item_in_other in Hc0.
      + apply (put_item_values _ _ _ _ Hc0). by rewrite <- Hk1, <- Hk2.
      + rewrite Hk2 in Hkey0. rewrite has_key_spec in Hkey0 |- *.
        apply bool_decide_eq_true in Hkey0. apply bool_decide_eq_false.
        congruence. }
  (* the mean *)
  assert (mean_without_last keypoint_names T' = Ok mean) as ->.
  { rewrite <- Emean. unfold mean_without_last.
    replace (index T') with (index T1) by done.
    f_equal. apply select_columns_ext. intros k Hk.
    rewrite Forall_forall in Hkeys.
    destruct (Hkeys k (proj2 (list_elem_of_In _ _) Hk)) as [Hk1' Hk2'].
    fold (columns_of k T') (columns_of k T1).
    rewrite Hof; [|done|intros ->; apply Hk2'; cbn; tauto].
    apply (columns_of_put_other "mean" k (s_values mean)); [|done].
    intros ->. apply Hk2'. cbn. tauto. }
  cbn [mbind result_bind].
  rewrite setitem_series_own_index by exact Hidx.
  cbn [mbind result_bind].
  assert (put_item "mean" (s_values mean) (columns T') = columns T') as ->.
  { apply put_item_same_values.
    - apply Hhas; [congruence|done|].
      destruct (put_item_has_key "mean" (s_values mean) (columns T1))
        as (c & Hc & Hkey).
      assert (In c (columns_of "mean" T2)) as Hin;
        [|intros E; by rewrite E in Hin].
      apply list_elem_of_In, list_elem_of_filter. split.
      + apply Is_true_true. by rewrite Hk2.
      + by apply list_elem_of_In.
    - intros c. apply Hval; [congruence|done|]. intros c0 Hc0 Hkey0.
      apply (put_item_values _ _ _ _ Hc0). by rewrite <- Hk2. }
  (* the first column *)
  change {| index := index T'; columns := columns T' |} with T'.
  unfold item. rewrite <- head_lookup.
  unfold T'. rewrite (rename_column_head _ _ _ Hfirst').
  cbn [mbind result_bind mret result_ret].
  by rewrite (rename_column_again _ _ _ Hfirst').
Qed.

(** Once is enough: on a table whose first column is neither "mean"
    nor "model_name", and for keypoint names (the last aside) that are
    none of "img_file", "mean" and "model_name" nor the label of the
    first column, a second call of [get_precomputed_error] with the
    same arguments returns the table as the first call left it. *)
Theorem get_precomputed_error_twice (h h1 : heap) (df r : ref)
    (keypoint_names : list string) (model_name : string) (T : DataFrame)
    (first : label) :
  h !! df = Some T ->
  head (labels T) = Some first ->
  first <> Name "mean" -> first <> Name "model_name" ->
  Forall (fun k => Name k <> first
                   /\ ~ In k ["img_file"; "mean"; "model_name"])
         (removelast keypoint_names) ->
  get_precomputed_error df keypoint_names model_name h = (Ok r, h1) ->
  get_precomputed_error r keypoint_names model_name h1 = (Ok r, h1).
Proof.
  intros HT Hfirst Hmean Hmodel Hkeys Hrun.
  destruct (get_precomputed_error_returns _ _ _ _ _ _ _ HT Hrun)
    as (T' & Htable & -> & ->).
  assert (Hlt : df < length h) by (by eapply lookup_lt_Some).
  rewrite (get_precomputed_error_run _ _ _ _ T')
    by (by apply list_lookup_insert_eq).
  rewrite (precomputed_error_table_again _ _ _ _ _ Hfirst Hmean Hmodel Hkeys Htable).
  by rewrite list_insert_insert_eq.
Qed.

Lemma get_precomputed_error_twice_example :
  get_precomputed_error 0 ["A"; "B"; "C"] "m"
    (get_precomputed_error 0 ["A"; "B"; "C"] "m" [errors_ABC]).2
  = (Ok 0, (get_precomputed_error 0 ["A"; "B"; "C"] "m" [errors_ABC]).2).
Proof.
  apply (get_precomputed_error_twice [errors_ABC] _ 0 0 ["A"; "B"; "C"] "m"
           errors_ABC (Name "Unnamed: 0")).
  - reflexivity.
  - reflexivity.
  - done.
  - done.
  - repeat constructor; cbn; try done; intuition discriminate.
  - reflexivity.
Defined.
Lemma build_precomputed_metrics_df_files_by_name_example :
  NoDup (map fst [("pixel error", 1)])
  /\ forall k,
       In k (map fst [("pixel error", 1)])
       <-> exists model metrics metric_name df,
             In (model, metrics) [("m", [("pixel_error", 0)])]
             /\ In (metric_name, df) metrics
             /\ In k (metric_keys metric_name).
Proof.
  apply (build_precomputed_metrics_df_files_by_name [errors_ABC]
           [("m", [("pixel_error", 0)])] ["A"; "B"; "C"] []
           [("pixel error", 1)]
           (build_precomputed_metrics_df [("m", [("pixel_error", 0)])]
              ["A"; "B"; "C"] [] [errors_ABC]).2).
  reflexivity.
Defined.

Lemma raises_only_raise {A : Type} (E : exn -> Prop) (e : exn)
    (Q : A -> Prop) :
  E e -> raises_only E (lift (Raise e)) Q.
Proof. by intros He h. Qed.

Lemma build_precomputed_metrics_df_loop_raises
    (dframes : list (string * list (string * ref)))
    (keypoint_names kwargs : list string) :
  kwargs <> [] ->
  Exists (fun md => md.2 <> []) dframes ->
  forall acc : list (string * list ref),
    raises_only (fun _ => True)
      (for_each dframes
         (fun '(model_name, df_dict) concat_dfs =>
            for_each df_dict
              (fun '(metric_name, df) concat_dfs =>
                 concat_dfs ←
                   (if contains "confidence" metric_name then
                      df_ ← (if existsb
                                  (fun k => bool_decide
                                              (k ∈ ["df"; "keypoint_names";
                                                    "model_name"]))
                                  kwargs
                             then lift (Raise TypeError)
                             else compute_confidence df keypoint_names
                                    model_name);
                      mret (dict_append conf_error_key df_ concat_dfs)
                    else mret concat_dfs);
                 df_ ← (match kwargs with
                        | [] => get_precomputed_error df keypoint_names
                                  model_name
                        | _ :: _ => lift (Raise TypeError)
                        end);
                 if contains "single" metric_name
                 then mret (dict_append pcasv_error_key df_ concat_dfs)
                 else if contains "multi" metric_name
                 then mret (dict_append pcamv_error_key df_ concat_dfs)
                 else if contains "temporal" metric_name
                 then mret (dict_append temp_norm_error_key df_ concat_dfs)
                 else if contains "pixel" metric_name
                 then mret (dict_append pix_error_key df_ concat_dfs)
                 else mret concat_dfs)
              concat_dfs)
         acc)
      (fun _ => False).
Proof.
  intros Hkw. induction 1 as [[model_name df_dict] dframes Hmd|
                              [model_name df_dict] dframes _ IH]; intros acc.
  - cbn [snd] in Hmd. destruct df_dict as [|[metric_name df] df_dict]; [done|].
    cbn [for_each].
    eapply (raises_only_bind _ _ _ (fun _ => False)); [|done].
    eapply (raises_only_bind _ _ _ (fun _ => False)); [|done].
    eapply raises_only_bind; [apply raises_only_any|]. intros d _.
    eapply (raises_only_bind _ _ _ (fun _ => False)); [|done].
    destruct kwargs; [done|]. by apply raises_only_raise.
  - cbn [for_each].
    eapply raises_only_bind; [apply raises_only_any|]. intros d _. apply IH.
Qed.

(** [build_precomputed_metrics_df] accepts further keyword arguments
    and hands them on, but [get_precomputed_error], which it calls for
    every table, takes none: with any such argument and at least one
    table the call returns nothing, it raises. *)
Theorem build_precomputed_metrics_df_takes_no_keyword (h : heap)
    (dframes : list (string * list (string * ref)))
    (keypoint_names kwargs : list string) :
  kwargs <> [] ->
  Exists (fun md => md.2 <> []) dframes ->
  exists e h',
    build_precomputed_metrics_df dframes keypoint_names kwargs h
    = (Raise e, h').
Proof.
  intros Hkw Hex.
  assert (raises_only (fun _ => True)
            (build_precomputed_metrics_df dframes keypoint_names kwargs)
            (fun _ => False)) as Hraises.
  { unfold build_precomputed_metrics_df.
    eapply (raises_only_bind _ _ _ (fun _ => False)); [|done].
    by apply build_precomputed_metrics_df_loop_raises. }
  specialize (Hraises h).
  destruct (build_precomputed_metrics_df dframes keypoint_names kwargs h)
    as [[result|e] h']; [done|]. by exists e, h'.
Qed.

Lemma build_precomputed_metrics_df_takes_no_keyword_example :
  exists e h',
    build_precomputed_metrics_df [("m", [("pixel_error", 0)])]
      ["A"; "B"; "C"] ["verbose"] [errors_ABC]
    = (Raise e, h').
Proof.
  apply (build_precomputed_metrics_df_takes_no_keyword [errors_ABC]
           [("m", [("pixel_error", 0)])] ["A"; "B"; "C"] ["verbose"]).
  - done.
  - left. done.
Defined.

(** Where [concat_dfs] needs at least one table,
    [build_precomputed_metrics_df] does not: for models without any
    metric (and so for no model at all) it returns the empty
    dictionary, [pd.concat] is not called, and the store stays as it
    is. *)
Theorem build_precomputed_metrics_df_no_metric (h : heap)
    (models keypoint_names kwargs : list string) :
  build_precomputed_metrics_df (map (fun model => (model, [])) models)
    keypoint_names kwargs h
  = (Ok [], h).
Proof.
  unfold build_precomputed_metrics_df. rewrite bind_run.
  induction models as [|model models IH]; [done|].
  cbn [map for_each]. rewrite bind_run, ret_run. apply IH.
Qed.
(** ** What [build_precomputed_metrics_df] does to the tables it is given *)

Lemma hoare_ret {A : Type} (P : heap -> Prop) (a : A) (Q : A -> heap -> Prop) :
  (forall h, P h -> Q a h) -> hoare P (mret a) Q.
Proof. intros H h HP. by apply H. Qed.

Lemma hoare_bind {A B : Type} (P : heap -> Prop) (m : M A) (f : A -> M B)
    (Q : A -> heap -> Prop) (R : B -> heap -> Prop) :
  hoare P m Q -> (forall a, hoare (Q a) (f a) R) -> hoare P (m ≫= f) R.
Proof.
  intros Hm Hf h HP. rewrite bind_run. specialize (Hm h HP).
  destruct (m h) as [[a|e] h1]; [|done]. by apply Hf.
Qed.

Lemma hoare_raise {A : Type} (P : heap -> Prop) (e : exn)
    (Q : A -> heap -> Prop) :
  hoare P (lift (Raise e)) Q.
Proof. by intros h _. Qed.

Lemma hoare_of_preserves {A : Type} (P : heap -> Prop) (m : M A) :
  (forall h0 h, h0 `prefix_of` h -> P h0 -> P h) ->
  (forall h0, preserves h0 m (fun _ => True)) ->
  hoare P m (fun _ => P).
Proof.
  intros Hmono Hm h HP. destruct (Hm h h) as [Hpre _]; [done|].
  destruct (m h) as [[a|e] h1]; [|done]. by apply (Hmono h).
Qed.

(** A loop with an invariant that speaks of the items gone through. *)
Lemma hoare_for_each {A S : Type} (I : list A -> heap -> Prop)
    (body : A -> S -> M S) (xs : list A) :
  (forall pre x acc,
     hoare (I pre) (body x acc) (fun _ => I (pre ++ [x]))) ->
  forall pre acc, hoare (I pre) (for_each xs body acc) (fun _ => I (pre ++ xs)).
Proof.
  intros Hbody. induction xs as [|x xs IH]; intros pre acc.
  - apply hoare_ret. intros h. by rewrite app_nil_r.
  - cbn [for_each]. eapply hoare_bind; [apply Hbody|]. intros acc'.
    replace (pre ++ x :: xs) with ((pre ++ [x]) ++ xs) by (by rewrite <- app_assoc).
    apply IH.
Qed.

Lemma img_file_first_mono (h0 h : heap) (dfs : list ref) :
  h0 `prefix_of` h ->
  Forall (img_file_first h0) dfs -> Forall (img_file_first h) dfs.
Proof.
  intros Hpre H. eapply Forall_impl; [exact H|]. intros df (T & HT & Hhead).
  exists T. split; [|done]. by eapply prefix_lookup_Some.
Qed.

Lemma same_frames_mono (h0 h1 h2 : heap) :
  h1 `prefix_of` h2 -> same_frames h0 h1 -> same_frames h0 h2.
Proof.
  intros Hpre H df T0 HT0. destruct (H df T0 HT0) as (T & HT & Hsame).
  exists T. split; [|done]. by eapply prefix_lookup_Some.
Qed.

Lemma same_frame_refl (T : DataFrame) : same_frame T T.
Proof. by repeat split. Qed.

Lemma same_frame_trans (T0 T1 T2 : DataFrame) :
  same_frame T0 T1 -> same_frame T1 T2 -> same_frame T0 T2.
Proof.
  intros (Hi1 & Hk1 & Hh1) (Hi2 & Hk2 & Hh2). split; [congruence|].
  split; [congruence|]. intros Hm. rewrite Hh2, Hh1; [done..|congruence].
Qed.

(** What [get_precomputed_error] does to the first column, and what it
    keeps of the table. *)
Lemma precomputed_error_table_head (keypoint_names : list string)
    (model_name : string) (T T' : DataFrame) :
  precomputed_error_table keypoint_names model_name T = Ok T' ->
  same_frame T T'
  /\ (multi_level (columns T') = false ->
      head (labels T') = Some (Name "img_file")).
Proof.
  intros Hrun.
  destruct (precomputed_error_table_mean _ _ _ _ Hrun) as (Hidx & Hkind & _).
  destruct (precomputed_error_table_steps _ _ _ _ Hrun)
    as (mean & first & _ & Hfirst & ->).
  set (T2 := {| index := index T; columns := _ |}) in *.
  assert (multi_level (columns T2) = multi_level (columns T)) as Hkind2.
  { rewrite <- Hkind. symmetry. by apply multi_level_rename. }
  split; [split; [done|split; [done|]]|].
  - intros Hm. rewrite rename_column_multi by congruence.
    destruct (precomputed_error_first _ _ _ _ Hfirst) as [H|[H _]].
    + congruence.
    + by rewrite H in Hm.
  - intros Hf. rewrite (rename_column_head _ _ _ Hfirst).
    rewrite Hkind in Hf. by rewrite Hkind2, Hf.
Qed.

Lemma hoare_get_precomputed_error (h0 : heap) (dfs : list ref) (df : ref)
    (keypoint_names : list string) (model_name : string) :
  hoare (fun h => same_frames h0 h /\ Forall (img_file_first h) dfs)
    (get_precomputed_error df keypoint_names model_name)
    (fun _ h' => same_frames h0 h' /\ Forall (img_file_first h') (dfs ++ [df])).
Proof.
  intros h [Hsame Hinv]. destruct (h !! df) as [T|] eqn:HT.
  - rewrite (get_precomputed_error_run _ _ _ _ _ HT).
    assert (Hlt : df < length h) by (by eapply lookup_lt_Some).
    destruct (precomputed_error_table keypoint_names model_name T)
      as [T'|e] eqn:Htable; [|done].
    destruct (precomputed_error_table_head _ _ _ _ Htable) as [HTT' Hhead'].
    split.
    + intros df' T0 HT0. destruct (Hsame df' T0 HT0) as (T1 & HT1 & H01).
      destruct (decide (df' = df)) as [->|Hne].
      * exists T'. split; [by apply list_lookup_insert_eq|].
        apply (same_frame_trans _ T); [|done]. congruence.
      * exists T1. split; [|done]. by rewrite list_lookup_insert_ne.
    + assert (img_file_first (<[df:=T']> h) df) as Hdf.
      { exists T'. split; [by apply list_lookup_insert_eq|done]. }
      apply Forall_app. split; [|by constructor].
      eapply Forall_impl; [exact Hinv|]. intros df' (T0 & HT0 & Hhead).
      destruct (decide (df' = df)) as [->|Hne]; [done|].
      exists T0. split; [|done]. by rewrite list_lookup_insert_ne.
  - unfold get_precomputed_error, in_place. rewrite !bind_run.
    unfold load. by rewrite HT.
Qed.

Lemma preserves_mapM {A B : Type} (h0 : heap) (f : A -> M B) (l : list A) :
  (forall x, preserves h0 (f x) (fun _ => True)) ->
  preserves h0 (mapM f l) (fun _ => True).
Proof.
  intros Hf. induction l as [|x l IH]; [by apply preserves_ret|].
  cbn [mapM]. eapply preserves_bind; [apply Hf|]. intros y _.
  eapply preserves_bind; [apply IH|]. intros ys _. by apply preserves_ret.
Qed.

(** [build_precomputed_metrics_df] does not leave the tables of
    [dframes] as they are.  It runs [get_precomputed_error] on every
    one of them, those of the confidence metrics too, and that function
    works in place.  When the call returns, every table it was given
    that has a flat column axis has "img_file" for its first column;
    a table with a header of several levels (the predictions behind a
    confidence metric) still has its first label, the renaming being
    without effect there; and every table has the rows and the kind of
    axis it had. *)
Theorem build_precomputed_metrics_df_renames_first_columns (h : heap)
    (dframes : list (string * list (string * ref)))
    (keypoint_names kwargs : list string)
    (result : list (string * ref)) (h' : heap) :
  build_precomputed_metrics_df dframes keypoint_names kwargs h
  = (Ok result, h') ->
  forall model metrics metric_name df,
    In (model, metrics) dframes -> In (metric_name, df) metrics ->
    exists T,
      h' !! df = Some T
      /\ (multi_level (columns T) = false ->
          head (labels T) = Some (Name "img_file"))
      /\ forall T0,
           h !! df = Some T0 ->
           index T = index T0
           /\ multi_level (columns T) = multi_level (columns T0)
           /\ (multi_level (columns T0) = true ->
               head (labels T) = head (labels T0)).
Proof.
  intros Hrun.
  set (inv := fun dfs (h1 : heap) =>
                same_frames h h1 /\ Forall (img_file_first h1) dfs).
  assert (Hmono : forall dfs h0 h1,
            h0 `prefix_of` h1 -> inv dfs h0 -> inv dfs h1).
  { intros dfs h0 h1 Hpre [H1 H2]. split.
    - by eapply same_frames_mono.
    - by eapply img_file_first_mono. }
  assert (hoare (inv [])
            (build_precomputed_metrics_df dframes keypoint_names kwargs)
            (fun _ => inv (flat_map (fun md => map snd md.2) dframes)))
    as Hhoare.
  { unfold build_precomputed_metrics_df.
    eapply (hoare_bind _ _ _
              (fun _ => inv (flat_map (fun md => map snd md.2) dframes))).
    - apply (fun H => hoare_for_each
               (fun pre => inv (flat_map (fun md => map snd md.2) pre))
               _ dframes H [] []).
      intros pre [model_name df_dict] acc.
      rewrite flat_map_app. cbn [flat_map snd]. rewrite app_nil_r.
      generalize (flat_map (fun md : string * list (string * ref) =>
                              map snd md.2) pre) as base.
      intros base.
      rewrite <- (app_nil_r base) at 1.
      apply (fun H => hoare_for_each
               (fun pre' => inv (base ++ map snd pre')) _ df_dict H [] acc).
      intros pre' [metric_name df] d. rewrite map_app, app_assoc. cbn [map snd].
      generalize (base ++ map snd pre') as dfs. intros dfs.
      eapply (hoare_bind _ _ _ (fun _ => inv dfs)).
      + destruct (contains "confidence" metric_name); [|by apply hoare_ret].
        eapply (hoare_bind _ _ _ (fun _ => inv dfs));
          [|intros df_; by apply hoare_ret].
        destruct (existsb _ kwargs); [apply hoare_raise|].
        apply hoare_of_preserves; [apply Hmono|].
        intros h0. apply preserves_compute_confidence.
      + intros d1.
        eapply (hoare_bind _ _ _ (fun _ => inv (dfs ++ [df]))).
        * destruct kwargs; [|apply hoare_raise].
          apply hoare_get_precomputed_error.
        * intros df_.
          repeat (match goal with
                  | |- hoare _ (if ?b then _ else _) _ => destruct b
                  end);
            by apply hoare_ret.
    - intros d. apply hoare_of_preserves; [apply Hmono|].
      intros h0. apply preserves_mapM. intros [key refs].
      eapply preserves_bind; [apply preserves_mapM_load|]. intros tables _.
      eapply preserves_bind; [apply preserves_lift|]. intros T _.
      eapply preserves_bind; [apply preserves_alloc|]. intros r _.
      by apply preserves_ret. }
  specialize (Hhoare h). rewrite Hrun in Hhoare.
  intros model metrics metric_name df Hmd Hdf.
  assert (inv (flat_map (fun md => map snd md.2) dframes) h') as [Hsame Hinv].
  { apply Hhoare. split; [|constructor].
    intros df' T0 HT0. exists T0. split; [done|]. apply same_frame_refl. }
  rewrite Forall_forall in Hinv.
  destruct (Hinv df) as (T & HT & Hhead).
  { apply list_elem_of_In, in_flat_map. exists (model, metrics). split; [done|].
    cbn [snd]. apply in_map_iff. by exists (metric_name, df). }
  exists T. split; [done|]. split; [done|]. intros T0 HT0.
  destruct (Hsame df T0 HT0) as (T1 & HT1 & H01).
  assert (T1 = T) as -> by congruence. exact H01.
Qed.

Lemma build_precomputed_metrics_df_renames_first_columns_example :
  exists T,
    (build_precomputed_metrics_df
       [("m", [("pixel_error", 0); ("confidence", 1)])]
       ["A"; "B"; "C"] [] [errors_ABC; preds_ABC_set]).2 !! 1 = Some T
    /\ (multi_level (columns T) = false ->
        head (labels T) = Some (Name "img_file"))
    /\ forall T0,
         [errors_ABC; preds_ABC_set] !! 1 = Some T0 ->
         index T = index T0
         /\ multi_level (columns T) = multi_level (columns T0)
         /\ (multi_level (columns T0) = true ->
             head (labels T) = head (labels T0)).
Proof.
  apply (build_precomputed_metrics_df_renames_first_columns
           [errors_ABC; preds_ABC_set]
           [("m", [("pixel_error", 0); ("confidence", 1)])] ["A"; "B"; "C"] []
           [("pixel error", 3); ("confidence", 4)]
           (build_precomputed_metrics_df
              [("m", [("pixel_error", 0); ("confidence", 1)])]
              ["A"; "B"; "C"] [] [errors_ABC; preds_ABC_set]).2
           eq_refl "m" [("pixel_error", 0); ("confidence", 1)] "confidence" 1).
  - by left.
  - right. by left.
Defined.

(** The two tables of the example after the call: the flat one with
    its first column renamed, the one with a header of two levels with
    the labels it had and two more. *)
Example build_precomputed_metrics_df_in_place :
  labels <$> (build_precomputed_metrics_df
                [("m", [("pixel_error", 0); ("confidence", 1)])]
                ["A"; "B"; "C"] [] [errors_ABC; preds_ABC_set]).2 !! 0
  = Some [Name "img_file"; Name "A"; Name "B"; Name "C";
          Name "model_name"; Name "mean"]
  /\ labels <$> (build_precomputed_metrics_df
                   [("m", [("pixel_error", 0); ("confidence", 1)])]
                   ["A"; "B"; "C"] [] [errors_ABC; preds_ABC_set]).2 !! 1
     = Some (labels preds_ABC_set
             ++ [Levels ["model_name"; ""]; Levels ["mean"; ""]]).
Proof. split; reflexivity. Qed.
(** ** From [get_precomputed_error] to [get_df_box] *)

Lemma rename_absent (old new : label) (cols : list (label * list cell)) :
  ~ In old (map fst cols) ->
  map (fun c => if has_label old c then (new, c.2) else c) cols = cols.
Proof.
  intros Hno. rewrite <- (map_id cols) at 2. apply map_ext_in. intros c Hc.
  rewrite (proj2 (has_label_false old c)); [done|].
  intros E. apply Hno. rewrite <- E. by apply in_map.
Qed.

Lemma NoDup_fst_In {A B : Type} (l : list (A * B)) (a : A) (b b' : B) :
  NoDup (map fst l) -> In (a, b) l -> In (a, b') l -> b = b'.
Proof.
  induction l as [|[x y] l IH]; [done|]. cbn [map fst].
  intros [Hx Hnd]%NoDup_cons H1 H2.
  assert (forall c, In (x, c) l -> False) as Hno.
  { intros c Hc. apply Hx, list_elem_of_In, in_map_iff. by exists (x, c). }
  destruct H1 as [[= -> ->]|H1], H2 as [[= E]|H2].
  - done.
  - by destruct (Hno b').
  - subst. by destruct (Hno b).
  - by apply IH.
Qed.

Lemma keep_where_all {A : Type} (m : string) (idx : list A) :
  keep_where (map (fun c => cell_eqb c (Str m)) (repeat (Str m) (length idx))) idx
  = idx.
Proof.
  induction idx as [|i idx IH]; [done|].
  cbn [length repeat map keep_where cell_eqb]. rewrite String.eqb_refl.
  by rewrite IH.
Qed.

(** The table [get_precomputed_error] makes of a table with distinct
    labels, none of them one of its own. *)
Lemma precomputed_error_table_plain (keypoint_names : list string)
    (model_name : string) (T T' : DataFrame) :
  multi_level (columns T) = false ->
  NoDup (labels T) -> columns T <> [] ->
  Forall (fun l => ~ In (Name l) (labels T)) ["model_name"; "mean"; "img_file"] ->
  precomputed_error_table keypoint_names model_name T = Ok T' ->
  index T' = index T
  /\ NoDup (labels T')
  /\ In (Name "model_name", repeat (Str model_name) (nrows T)) (columns T')
  /\ forall k, In (Name k) (tail (labels T)) -> In (Name k) (labels T').
Proof.
  intros Hflat Hnd Hne Hown Hrun.
  apply Forall_cons in Hown as [Hmn Hown].
  apply Forall_cons in Hown as [Hmean Hown].
  apply Forall_cons in Hown as [Himg _].
  unfold precomputed_error_table in Hrun.
  set (rep := repeat (Str model_name) (nrows T)).
  assert (columns (setitem_scalar "model_name" (Str model_name) T)
          = columns T ++ [(Name "model_name", rep)]) as Hcols1.
  { unfold setitem_scalar. cbn [columns]. by apply put_item_absent. }
  destruct (mean_without_last keypoint_names _) as [mean|] eqn:Emean; [|done].
  cbn [mbind result_bind] in Hrun.
  destruct (mean_without_last_spec _ _ _ Emean) as (Hidx & _ & _).
  rewrite (setitem_series_own_index _ _ _ Hidx) in Hrun.
  cbn [mbind result_bind] in Hrun. rewrite Hcols1 in Hrun.
  rewrite put_item_absent in Hrun.
  2:{ apply (flat_of_name _ "model_name"). rewrite map_app, in_app_iff.
      right. by left. }
  2:{ rewrite map_app, in_app_iff. cbn. unfold labels in Hmean.
      intros [?|[[=]|[]]]. done. }
  rewrite <- app_assoc in Hrun. cbn [app] in Hrun.
  unfold labels in *. destruct (columns T) as [|[first c0] rest] eqn:Ecols;
    [done|].
  cbn [app columns map fst item lookup list_lookup mbind result_bind
       mret result_ret] in Hrun.
  injection Hrun as <-.
  unfold labels. rewrite rename_column_flat.
  2:{ apply (flat_of_name _ "model_name"). cbn [columns map fst].
      right. rewrite map_app, in_app_iff. right. by left. }
  unfold rename_column at 1. cbn [index columns map fst].
  cbn [map fst] in Hnd, Hmn, Hmean, Himg.
  apply NoDup_cons in Hnd as [Hfirst Hnd].
  rewrite (proj2 (has_label_true first (first, c0))) by done.
  rewrite rename_absent.
  2:{ rewrite map_app, in_app_iff. cbn [map fst In].
      intros [H|[<-|[<-|[]]]]; [by apply Hfirst, list_elem_of_In| |];
        [apply Hmn|apply Hmean]; by left. }
  cbn [snd]. split; [done|]. split; [|split].
  - rewrite map_app. cbn [map fst]. apply NoDup_cons. split.
    + rewrite elem_of_app. intros [H|H].
      * apply Himg. right. by apply list_elem_of_In.
      * apply elem_of_cons in H as [[=]|H]. by apply list_elem_of_singleton in H.
    + apply NoDup_app. split; [done|]. split.
      * intros l Hl Hl'. apply elem_of_cons in Hl' as [->|Hl'].
        { apply Hmn. right. by apply list_elem_of_In. }
        apply list_elem_of_singleton in Hl' as ->.
        apply Hmean. right. by apply list_elem_of_In.
      * apply NoDup_cons. split; [|apply NoDup_singleton].
        by intros [=]%list_elem_of_singleton.
  - right. apply in_app_iff. right. by left.
  - intros k Hk. cbn [tail] in Hk. right. rewrite map_app, in_app_iff. by left.
Qed.

Lemma get_df_box_total (h : heap) (df_orig : ref) (T : DataFrame)
    (keypoint_names model_names : list string) :
  h !! df_orig = Some T ->
  NoDup (labels T) -> In (Name "model_name") (labels T) ->
  Forall (fun k => In (Name k) (labels T)) keypoint_names ->
  keypoint_names <> [] -> model_names <> [] ->
  exists r h', get_df_box df_orig keypoint_names model_names h = (Ok r, h').
Proof.
  intros HT Hnd Hmn Hkeys Hk Hm.
  pose proof (get_df_box_run h df_orig T keypoint_names model_names HT) as Hrun.
  destruct (mapM_Ok_exists (fun km => box_of T km.1 km.2)
              (list_prod keypoint_names model_names)) as [tabs Htabs].
  { apply Forall_forall. intros [k m] [Hk' _]%list_elem_of_In%in_prod_iff.
    unfold box_of. cbn [fst snd].
    destruct (proj1 (select_column_NoDup AttributeError "model_name" T Hnd) Hmn)
      as [s ->].
    cbn [mbind result_bind]. rewrite select_column_mask_rows.
    rewrite Forall_forall in Hkeys.
    destruct (proj1 (select_column_NoDup KeyError k T Hnd)
                (Hkeys k (proj2 (list_elem_of_In _ _) Hk'))) as [v ->].
    by eexists. }
  rewrite Htabs in Hrun.
  assert (list_prod keypoint_names model_names <> []) as Hne.
  { destruct keypoint_names as [|k ks]; [done|].
    destruct model_names as [|m ms]; [done|]. done. }
  destruct (boxes_Ok _ _ _ Hne Htabs) as (model_name & _ & E).
  rewrite E, concat_axis0_boxes in Hrun by done. by eexists _, _.
Qed.

(** The two steps of the application fit: a table that
    [get_precomputed_error] has completed for a model is one that
    [get_df_box] takes for that model.  For a table with distinct
    labels, none of them "model_name", "mean" or "img_file", and
    keypoints that label columns after the first, [get_df_box] returns
    on the result of [get_precomputed_error], with every row of the
    table once for each keypoint. *)
Theorem get_df_box_after_get_precomputed_error (h h1 : heap) (df r : ref)
    (T : DataFrame) (keypoint_names : list string) (model_name : string)
    (boxed : list string) :
  h !! df = Some T ->
  NoDup (labels T) ->
  Forall (fun l => ~ In (Name l) (labels T)) ["model_name"; "mean"; "img_file"] ->
  boxed <> [] ->
  Forall (fun k => In (Name k) (tail (labels T))) boxed ->
  get_precomputed_error df keypoint_names model_name h = (Ok r, h1) ->
  exists r' h2 R,
    get_df_box r boxed [model_name] h1 = (Ok r', h2)
    /\ h2 !! r' = Some R
    /\ nrows R = length boxed * nrows T.
Proof.
  intros HT Hnd Hown Hboxed Hkeys Hrun.
  destruct (get_precomputed_error_returns _ _ _ _ _ _ _ HT Hrun)
    as (T' & Htable & -> & ->).
  assert (Hlt : df < length h) by (by eapply lookup_lt_Some).
  assert (HT' : <[df:=T']> h !! df = Some T') by (by apply list_lookup_insert_eq).
  assert (columns T <> []) as Hne.
  { intros E. destruct boxed as [|k ks]; [done|].
    apply Forall_cons in Hkeys as [Hk _]. unfold labels in Hk.
    by rewrite E in Hk. }
  assert (multi_level (columns T) = false) as Hflat.
  { destruct boxed as [|k ks]; [done|].
    apply Forall_cons in Hkeys as [Hk _]. apply (flat_of_name _ k).
    unfold labels in Hk. destruct (map fst (columns T)); [done|]. by right. }
  destruct (precomputed_error_table_plain _ _ _ _ Hflat Hnd Hne Hown Htable)
    as (Hidx & Hnd' & Hmn & Hin).
  destruct (get_df_box_total (<[df:=T']> h) df T' boxed [model_name] HT' Hnd')
    as (r' & h2 & Hbox); [| |done|done|].
  { apply in_map_iff. by eexists (_, _). }
  { eapply Forall_impl; [exact Hkeys|]. intros k. apply Hin. }
  exists r', h2.
  destruct (get_df_box_returns _ _ _ _ _ _ _ HT' Hbox)
    as (model_col & tabs & Hcol & -> & ->).
  eexists. split; [done|]. split; [apply lookup_last|].
  rewrite (NoDup_fst_In _ _ _ _ Hnd' Hcol Hmn).
  unfold nrows at 1, long_form. cbn [index]. rewrite Hidx.
  clear. induction boxed as [|k ks IH]; [done|].
  cbn [list_prod map app flat_map length snd].
  rewrite length_app, IH. unfold nrows. by rewrite keep_where_all.
Qed.

Lemma get_df_box_after_get_precomputed_error_example :
  exists r' h2 R,
    get_df_box 0 ["A"; "C"] ["m"]
      (get_precomputed_error 0 ["A"; "B"; "C"] "m" [errors_ABC]).2
    = (Ok r', h2)
    /\ h2 !! r' = Some R
    /\ nrows R = length ["A"; "C"] * nrows errors_ABC.
Proof.
  apply (get_df_box_after_get_precomputed_error [errors_ABC] _ 0 0 errors_ABC
           ["A"; "B"; "C"] "m" ["A"; "C"]).
  - reflexivity.
  - repeat constructor; set_solver.
  - repeat constructor; cbn; intuition discriminate.
  - done.
  - repeat constructor; cbn; tauto.
  - reflexivity.
Defined.
(** ** Names that can be read back *)

Lemma underscore_free_prefix (a b x y : string) :
  count "_" a = 0%Z -> count "_" b = 0%Z ->
  a +:+ String "_" x = b +:+ String "_" y -> a = b /\ x = y.
Proof.
  revert b. induction a as [|c a IH]; intros [|d b] Ha Hb E.
  - by injection E as ->.
  - injection E as <- _. cbn [count] in Hb. pose proof (count_nonneg "_" b).
    change (Ascii.eqb "_" "_") with true in Hb. lia.
  - injection E as -> _. cbn [count] in Ha. pose proof (count_nonneg "_" a).
    change (Ascii.eqb "_" "_") with true in Ha. lia.
  - injection E as -> E. cbn [count] in Ha, Hb.
    pose proof (count_nonneg "_" a). pose proof (count_nonneg "_" b).
    destruct (Ascii.eqb d "_"); [lia|].
    destruct (IH b) as [-> ->]; [lia|lia|done|done].
Qed.

(** A full name tells its parts: when neither the keypoints nor the
    coordinates hold an underscore, two calls of [get_full_name] give
    the same name only for the same keypoint, coordinate and model. *)
Theorem get_full_name_tells_its_parts
    (keypoint coordinate model keypoint' coordinate' model' : string) :
  count "_" keypoint = 0%Z -> count "_" coordinate = 0%Z ->
  count "_" keypoint' = 0%Z -> count "_" coordinate' = 0%Z ->
  get_full_name keypoint coordinate model
  = get_full_name keypoint' coordinate' model' ->
  keypoint = keypoint' /\ coordinate = coordinate' /\ model = model'.
Proof.
  intros Hk Hc Hk' Hc'. unfold get_full_name, join. cbn [String.concat].
  intros E.
  change (keypoint +:+ String "_" (coordinate +:+ String "_" model)
          = keypoint' +:+ String "_" (coordinate' +:+ String "_" model')) in E.
  apply underscore_free_prefix in E as [-> E]; [|done..].
  apply underscore_free_prefix in E as [-> ->]; done.
Qed.

Lemma get_full_name_tells_its_parts_example :
  "nose" = "nose" /\ "x" = "x" /\ "m_0" = "m_0".
Proof.
  by apply (get_full_name_tells_its_parts "nose" "x" "m_0" "nose" "x" "m_0").
Defined.

(** With an underscore in a keypoint or a coordinate the parts can no
    longer be told. *)
Example get_full_name_can_meet :
  get_full_name "a_b" "c" "m" = get_full_name "a" "b_c" "m".
Proof. reflexivity. Qed.
